(** * Shapely: ring orientation, geometry constructors and the coordinate
      transform pipeline

    A shallow embedding of
    - [shapely/algorithms/cga.py]  ([signed_area], [_is_ccw_fallback],
      [is_ccw], [force_ccw]),
    - [shapely/geometry/polygon.py] ([LinearRing.__new__],
      [Polygon.__new__], [InteriorRingSequence], [Polygon.from_bounds],
      [orient]),
    - [shapely/coordinates.py] ([transform] and its helpers,
      [set_coordinates]).

    Conventions.  Python exceptions are values of [exn] carried by
    [result].  The orientation code is written once, over the
    operations of an arithmetic ([Arith]): [binary64] is the float64
    arithmetic in which numpy runs it, [exact] the rational arithmetic
    in which its formula is read as mathematics.  What is proved for
    every arithmetic holds of the code as it runs; what is proved for
    [exact] only says so.  The transform pipeline never computes with
    ordinates, so it is stated over an arbitrary scalar type with a
    distinguished NaN and an equality test. *)

From Stdlib Require Import String.
From Stdlib Require Import List Bool Arith ZArith QArith Qfield Lia Lqa.
From Stdlib Require Import Floats.
Import ListNotations.
Local Open Scope string_scope.
Local Open Scope list_scope.
Local Open Scope Q_scope.

Set Implicit Arguments.

(** ** Exceptions and results *)

Inductive exn : Type :=
| IndexError
| ValueError
| TypeError
| AttributeError
| NotImplementedError
| GeometryTypeError
| TopologicalError
| GEOSException          (* raised by the geometry engine *)
| KeyboardInterrupt.   (* a [BaseException] that is not an [Exception] *)

(** [except Exception:] catches everything but the [BaseException]s
    that do not derive from [Exception]. *)
Definition is_Exception (e : exn) : bool :=
  match e with
  | KeyboardInterrupt => false
  | _ => true
  end.

Inductive result (A : Type) : Type :=
| Ok (a : A)
| Raise (e : exn).
Arguments Ok {A} a.
Arguments Raise {A} e.

Definition bind {A B} (r : result A) (k : A -> result B) : result B :=
  match r with
  | Ok a => k a
  | Raise e => Raise e
  end.

Notation "x <- r ;; k" := (bind r (fun x => k))
  (at level 61, r at next level, right associativity).

Definition raises {A} (r : result A) : Prop :=
  match r with Ok _ => False | Raise _ => True end.

Section MapResult.
Variables A B : Type.
Variable f : A -> result B.

(** A list comprehension whose body may raise: the first exception
    ends it. *)
Fixpoint map_result (l : list A) : result (list B) :=
  match l with
  | [] => Ok []
  | a :: l' => b <- f a ;; bs <- map_result l' ;; Ok (b :: bs)
  end.

End MapResult.

(** ** Geometries *)

Record coord (F : Type) : Type := Coord { cx : F; cy : F; cz : option F }.
Arguments Coord {F} cx cy cz.
Arguments cx {F} c.
Arguments cy {F} c.
Arguments cz {F} c.

Inductive multi_type : Type :=
| MultiPoint | MultiLineString | MultiPolygon | GeometryCollection.

(** The tagged variant of the geometry engine.  A [Point] holds zero or
    one coordinate; the empty geometry of a variant holds none. *)
#[warnings="-register-all"]
Inductive Geometry (F : Type) : Type :=
| Point (coords : list (coord F))
| LineString (coords : list (coord F))
| LinearRing (coords : list (coord F))
| Polygon (exterior : list (coord F)) (interiors : list (list (coord F)))
| Multi (t : multi_type) (geoms : list (Geometry F)).
Arguments Point {F} coords.
Arguments LineString {F} coords.
Arguments LinearRing {F} coords.
Arguments Polygon {F} exterior interiors.
Arguments Multi {F} t geoms.

Definition multi_name (t : multi_type) : string :=
  match t with
  | MultiPoint => "MultiPoint"
  | MultiLineString => "MultiLineString"
  | MultiPolygon => "MultiPolygon"
  | GeometryCollection => "GeometryCollection"
  end.

Definition geom_type {F} (g : Geometry F) : string :=
  match g with
  | Point _ => "Point"
  | LineString _ => "LineString"
  | LinearRing _ => "LinearRing"
  | Polygon _ _ => "Polygon"
  | Multi t _ => multi_name t
  end.

Definition in_strings (s : string) (l : list string) : bool :=
  existsb (String.eqb s) l.

(** Modelled from the spec: [is_empty] of the geometry engine.  The
    empty geometry of a variant carries zero coordinates; a polygon is
    empty when its exterior ring is, a collection when all its children
    are. *)
Fixpoint is_empty {F} (g : Geometry F) : bool :=
  match g with
  | Point cs | LineString cs | LinearRing cs => (length cs =? 0)%nat
  | Polygon exterior _ => (length exterior =? 0)%nat
  | Multi _ geoms => forallb is_empty geoms
  end.

(** ** Array helpers *)

(** Element-wise binary operation on two arrays of the same length. *)
Fixpoint map2 {A B C} (f : A -> B -> C) (l : list A) (m : list B) : list C :=
  match l, m with
  | a :: l', b :: m' => f a b :: map2 f l' m'
  | _, _ => []
  end.

(** ** The arithmetic of the orientation code *)

(** The numbers [signed_area] computes with, and the operations it
    uses: the float64 arithmetic of numpy when the code runs
    ([binary64] below), exact rational arithmetic when its formula is
    read as mathematics ([exact]).  [np_sum] is [np.sum] on a
    one-dimensional array, [f_ge a b] is [a >= b] and [f_eqb a b] is
    [a == b]. *)
Class Arith (F : Type) : Type := {
  f_zero : F;
  f_two : F;
  f_add : F -> F -> F;
  f_sub : F -> F -> F;
  f_mul : F -> F -> F;
  f_div : F -> F -> F;
  f_neg : F -> F;
  f_ge : F -> F -> bool;
  f_eqb : F -> F -> bool;
  np_sum : list F -> F
}.

(** [a == b] and [b == a] are the same test. *)
Class EqbSym (F : Type) {A : Arith F} : Prop :=
  f_eqb_sym : forall a b : F, f_eqb a b = f_eqb b a.
Arguments EqbSym F {A}.

(** What the comparisons with zero do with opposite numbers: when
    [b == -a] holds, [b >= 0] is [a <= 0] and [b <= 0] is [a >= 0], and
    [a] is comparable with zero ([b == -a] fails on NaN); and a number
    that is [== 0] is [<= 0]. *)
Class SignLaws (F : Type) {A : Arith F} : Prop := {
  opposite_ge : forall a b : F,
    f_eqb b (f_neg a) = true -> f_ge b f_zero = f_ge f_zero a;
  opposite_le : forall a b : F,
    f_eqb b (f_neg a) = true -> f_ge f_zero b = f_ge a f_zero;
  comparable : forall a b : F,
    f_eqb b (f_neg a) = true -> f_ge a f_zero = false -> f_ge f_zero a = true;
  zero_sign : forall a : F, f_eqb a f_zero = true -> f_ge f_zero a = true
}.
Arguments SignLaws F {A}.

(** The sum of an array in exact arithmetic, where the order of the
    additions does not change the value. *)
Definition Qsum (l : list Q) : Q := fold_left Qplus l 0.

(** Exact arithmetic: nothing is rounded. *)
#[export] Instance exact : Arith Q := {
  f_zero := 0;
  f_two := 2;
  f_add := Qplus;
  f_sub := Qminus;
  f_mul := Qmult;
  f_div := Qdiv;
  f_neg := Qopp;
  f_ge := fun a b => Qle_bool b a;
  f_eqb := Qeq_bool;
  np_sum := Qsum
}.

(** *** [np.sum] in float64

    numpy reduces a one-dimensional float64 array with its pairwise
    summation: the result is [0.0 + pairwise_sum(a)], where fewer than
    eight elements are added one after the other from the left, up to
    128 elements are added in eight interleaved lanes that are then
    combined as [((r0+r1)+(r2+r3))+((r4+r5)+(r6+r7))], the elements
    after the last full group of eight being added to that one by one,
    and a longer array is cut in two (the first part a multiple of
    eight long) and the sums of the parts are added.  The sign of a sum
    that is zero is not looked at by [>=] and [==]. *)

(** [r[j] += a[i + j]] for the lanes [j = 0 .. 7], for [k] groups. *)
Fixpoint add_lanes (r l : list float) (k : nat) : list float * list float :=
  match k with
  | O => (r, l)
  | S k' => add_lanes (map2 PrimFloat.add r (firstn 8 l)) (skipn 8 l) k'
  end.

(** The branch [n <= PW_BLOCKSIZE] of [pairwise_sum], for [8 <= n]. *)
Definition block_sum (l : list float) : float :=
  let (r, rest) := add_lanes (firstn 8 l) (skipn 8 l) (length l / 8 - 1) in
  let lane j := nth j r 0%float in
  fold_left PrimFloat.add rest
    (((lane 0%nat + lane 1%nat) + (lane 2%nat + lane 3%nat)) +
     ((lane 4%nat + lane 5%nat) + (lane 6%nat + lane 7%nat)))%float.

(** [pairwise_sum(a, n)]; [depth] bounds the number of cuts, and the
    length of the array is enough. *)
Fixpoint pairwise_sum (depth : nat) (l : list float) : float :=
  let n := length l in
  if (n <? 8)%nat then fold_left PrimFloat.add l 0%float
  else if (n <=? 128)%nat then block_sum l
  else
    match depth with
    | O => block_sum l
    | S depth' =>
        let n2 := (n / 2 - (n / 2) mod 8)%nat in
        (pairwise_sum depth' (firstn n2 l) + pairwise_sum depth' (skipn n2 l))%float
    end.

(** float64, the arithmetic of numpy: IEEE 754 binary64 with rounding
    to nearest, ties to even. *)
#[export] Instance binary64 : Arith PrimFloat.float := {
  f_zero := 0%float;
  f_two := 2%float;
  f_add := PrimFloat.add;
  f_sub := PrimFloat.sub;
  f_mul := PrimFloat.mul;
  f_div := PrimFloat.div;
  f_neg := PrimFloat.opp;
  f_ge := fun a b => PrimFloat.leb b a;
  f_eqb := PrimFloat.eqb;
  np_sum := fun l => (0 + pairwise_sum (length l) l)%float
}.

(** ** [shapely/geometry/polygon.py]: the ring and polygon constructors *)

Module GeometryPolygon.

Section Constructors.

Variable F : Type.
(** Numeric equality of two ordinates (used when a ring is closed). *)
Variable F_eqb : F -> F -> bool.
(** Python objects that are geometries: [geom_of o] is the geometry an
    object holds; two objects may hold equal geometries and still be
    distinct instances. *)
Variable Obj : Type.
Variable geom_of : Obj -> Geometry F.
(** [is_valid] of the geometry engine. *)
Variable is_valid : Obj -> bool.

(** One element of a Python sequence of coordinates: a tuple, or a
    [Point] object given by its coordinate sequence. *)
Inductive item : Type :=
| ITuple (c : coord F)
| IPoint (coords : list (coord F)).

(** What a constructor may be handed. *)
Inductive pyvalue : Type :=
| PyNone
| PyGeom (o : Obj)
| PySeq (l : list item)
| PyNdarray (rows : list (coord F)).   (* numeric, shape (N, 2) or (N, 3) *)

(** Iterating over a geometry object that is not a [LineString]
    (behaviour of [BaseGeometry], which the constructors do not define). *)
Variable iter_geometry : Obj -> result (list item).

(** What a constructor returns: an object it was given, or a geometry
    it has just built. *)
Inductive made : Type :=
| Existing (o : Obj)
| Fresh (g : Geometry F).

Definition value_of (m : made) : Geometry F :=
  match m with
  | Existing o => geom_of o
  | Fresh g => g
  end.

Definition option_eqb (a b : option F) : bool :=
  match a, b with
  | Some u, Some v => F_eqb u v
  | None, None => true
  | _, _ => false
  end.

Definition coord_eqb (a b : coord F) : bool :=
  F_eqb (cx a) (cx b) && F_eqb (cy a) (cy b) && option_eqb (cz a) (cz b).

Definition is_closed (cs : list (coord F)) : bool :=
  match cs with
  | [] => true
  | c :: _ => coord_eqb c (last cs c)
  end.

Definition close_ring (cs : list (coord F)) : list (coord F) :=
  match cs with
  | [] => []
  | c :: _ => if is_closed cs then cs else cs ++ [c]
  end.

(** Modelled from the spec: [shapely.linearrings] of the compiled
    extension builds a ring from a coordinate sequence, and "any
    non-closed input is closed implicitly at construction". *)
Definition linearrings (cs : list (coord F)) : Geometry F :=
  LinearRing (close_ring cs).

Definition ring_coords (g : Geometry F) : list (coord F) :=
  match g with
  | LinearRing cs | LineString cs | Point cs => cs
  | _ => []
  end.

(** Modelled from the spec: [shapely.polygons(shell, holes)] of the
    compiled extension, "makePolygon(shell, holes)": the polygon whose
    exterior is the shell ring and whose interiors are the hole rings,
    in order. *)
Definition polygons (shell : Geometry F) (holes : option (list (Geometry F)))
  : Geometry F :=
  Polygon (ring_coords shell)
          (match holes with
           | None => []
           | Some hs => map ring_coords hs
           end).

(** [isinstance(o, LineString)]: [LinearRing] derives from [LineString]. *)
Definition isinstance_LineString (g : Geometry F) : bool :=
  match g with
  | LineString _ | LinearRing _ => true
  | _ => false
  end.

Definition is_LinearRing (g : Geometry F) : bool :=
  match g with LinearRing _ => true | _ => false end.

Definition is_Polygon (g : Geometry F) : bool :=
  match g with Polygon _ _ => true | _ => false end.

(** [_coords(o)]: [o.coords[0]] for a [Point], [o] otherwise. *)
Definition _coords (o : item) : result (coord F) :=
  match o with
  | IPoint cs => match cs with c :: _ => Ok c | [] => Raise IndexError end
  | ITuple c => Ok c
  end.

(** The tail of [LinearRing.__new__], once [coordinates] is a sequence
    of coordinates. *)
Definition LinearRing_of_coords (coordinates : list (coord F)) : result made :=
  if (length coordinates =? 0)%nat then Ok (Fresh (LinearRing []))
  else
    let geom := linearrings coordinates in
    if negb (is_LinearRing geom) then Raise ValueError else Ok (Fresh geom).

(** [LinearRing.__new__(self, coordinates=None)]. *)
Definition LinearRing_new (coordinates : pyvalue) : result made :=
  match coordinates with
  | PyNone => Ok (Fresh (LinearRing []))       (* from_wkt("LINEARRING EMPTY") *)
  | PyGeom o =>
      if isinstance_LineString (geom_of o) then
        if is_LinearRing (geom_of o) then Ok (Existing o)
        else if negb (is_valid o) then Raise TopologicalError
        else LinearRing_of_coords (ring_coords (geom_of o))
      else
        its <- iter_geometry o ;;
        cs <- map_result _coords its ;;
        LinearRing_of_coords cs
  | PyNdarray rows => LinearRing_of_coords rows
  | PySeq l =>
      cs <- map_result _coords l ;;
      LinearRing_of_coords cs
  end.

Definition arity (c : coord F) : nat :=
  match cz c with Some _ => 3 | None => 2 end.

(** [np.asarray(shell)] has a numeric dtype: every element is a tuple
    and all tuples have one arity. *)
Fixpoint numeric_rows (l : list item) : option (list (coord F)) :=
  match l with
  | [] => Some []
  | ITuple c :: l' =>
      match numeric_rows l' with
      | Some (d :: cs) =>
          if (arity c =? arity d)%nat then Some (c :: d :: cs) else None
      | Some [] => Some [c]
      | None => None
      end
  | IPoint _ :: _ => None
  end.

(** [Polygon.__new__(self, shell=None, holes=None)]. *)
Definition Polygon_new (shell : pyvalue) (holes : option (list pyvalue))
  : result made :=
  match shell with
  | PyNone => Ok (Fresh (Polygon [] []))       (* from_wkt("POLYGON EMPTY") *)
  | PyGeom o =>
      if is_Polygon (geom_of o) then Ok (Existing o)
      else
        holes <- match holes with
                 | None => Ok None
                 | Some hs =>
                     if (length hs =? 0)%nat then Ok None
                     else rs <- map_result LinearRing_new hs ;;
                          Ok (Some (map value_of rs))
                 end ;;
        shell <- (if negb (is_LinearRing (geom_of o))
                  then LinearRing_new (PyGeom o)
                  else Ok (Existing o)) ;;
        let geom := polygons (value_of shell) holes in
        if negb (is_Polygon geom) then Raise ValueError else Ok (Fresh geom)
  | PySeq _ | PyNdarray _ =>
      holes <- match holes with
               | None => Ok None
               | Some hs =>
                   if (length hs =? 0)%nat then Ok None
                   else rs <- map_result LinearRing_new hs ;;
                        Ok (Some (map value_of rs))
               end ;;
      let rows := match shell with
                  | PySeq l => if (length l =? 0)%nat then Some []
                               else numeric_rows l
                  | PyNdarray rows => Some rows
                  | _ => None
                  end in
      match rows with
      | Some [] => Ok (Fresh (Polygon [] []))   (* from_wkt("POLYGON EMPTY") *)
      | None => Raise ValueError                (* "Inconsistent coordinate dimensionality" *)
      | Some rows =>
          let geom := polygons (linearrings rows) holes in
          if negb (is_Polygon geom) then Raise ValueError else Ok (Fresh geom)
      end
  end.

End Constructors.

Arguments PyNone {F Obj}.
Arguments PyGeom {F Obj} o.
Arguments PySeq {F Obj} l.
Arguments PyNdarray {F Obj} rows.
Arguments Existing {F Obj} o.
Arguments Fresh {F Obj} g.

End GeometryPolygon.


Module Cga.

Definition ring (F : Type) : Type := list (coord F).

(** [a[1:-1]], [a[2:]] and [a[:-2]]. *)
Definition slice_1_m1 {A} (a : list A) : list A := removelast (tl a).
Definition slice_2 {A} (a : list A) : list A := skipn 2 a.
Definition slice_m2 {A} (a : list A) : list A := firstn (length a - 2) a.

(** What [is_ccw] may be handed: [None], one geometry, or a flat
    sequence of geometries and [None]s (anything without a [geom_type]). *)
Inductive ccw_arg (F : Type) : Type :=
| ArgNone
| ArgGeom (g : Geometry F)
| ArgSeq (l : list (option (Geometry F))).
Arguments ArgNone {F}.
Arguments ArgGeom {F} g.
Arguments ArgSeq {F} l.

(** A Python [bool], or a numpy array of [dtype=bool]. *)
Inductive ccw_out : Type :=
| OutBool (b : bool)
| OutArray (bs : list bool).

(** Tuple comparison [v >= w] of version triples. *)
Definition version_ge (v w : nat * nat * nat) : bool :=
  let '(a, b, c) := v in
  let '(a', b', c') := w in
  ((a' <? a) || ((a' =? a) && ((b' <? b) || ((b' =? b) && (c' <=? c)))))%nat.

(** The two-step flag transform, in the words of the specification. *)
Definition final_flags (is_ccw_flags : list bool) (ccw : bool) : list bool :=
  let inverted_exterior :=
    match is_ccw_flags with
    | b :: rest => negb b :: rest
    | [] => []
    end in
  if ccw then map negb inverted_exterior else inverted_exterior.

Section Arithmetic.

Context {F : Type} {A : Arith F}.

(** The array that [np.sum] receives, from the first two columns
    [coords[:, :2]] with [coords[1]] stacked below them:
    [xs[1:-1] * (ys[2:] - ys[:-2])]. *)
Definition code_terms (s : list (F * F)) : list F :=
  map2 f_mul (slice_1_m1 (map fst s))
       (map2 f_sub (slice_2 (map snd s)) (slice_m2 (map snd s))).

(** [signed_area(ring)], on the coordinate sequence of the ring.
<<
    coords = np.array(ring.coords)[:, :2]
    xs, ys = np.vstack([coords, coords[1]]).T
    return np.sum(xs[1:-1] * (ys[2:] - ys[:-2])) / 2.0
>>
    [coords[1]] raises [IndexError] on fewer than two points. *)
Definition signed_area (r : ring F) : result F :=
  let coords := map (fun c => (cx c, cy c)) r in
  match nth_error coords 1 with
  | None => Raise IndexError
  | Some c1 =>
      let stacked := coords ++ [c1] in
      let xs := map fst stacked in
      let ys := map snd stacked in
      Ok (f_div (np_sum (map2 f_mul (slice_1_m1 xs)
                           (map2 f_sub (slice_2 ys) (slice_m2 ys)))) f_two)
  end.

(** *** Notions used to state the properties of [signed_area] *)

(** The first two columns, [coords[:, :2]]. *)
Definition xy (r : ring F) : list (F * F) := map (fun c => (cx c, cy c)) r.

(** The same products, taken over consecutive triples of points. *)
Fixpoint tri (a b : F * F) (l : list (F * F)) : list F :=
  match l with
  | [] => []
  | c :: l' => f_mul (fst b) (f_sub (snd c) (snd a)) :: tri b c l'
  end.

(** A ring is closed when its first and last coordinates are equal. *)
Definition is_closed : ring F -> bool := GeometryPolygon.is_closed f_eqb.

Definition origin : coord F := Coord f_zero f_zero None.

(** The shoelace sum in the words of the specification, for a ring
    [v0 .. v(n-1)] with [v0 = v(n-1)]: one half of the sum of
    [x_i * (y_(i+1) - y_(i-1))] over [i = 1 .. n-1], in this order,
    where the neighbour after the last vertex wraps around to [v1]
    (and the one before the first is [v0], that is [v(n-1)]). *)
Definition shoelace (r : ring F) : F :=
  let m := (length r - 1)%nat in
  let x j := cx (nth j r origin) in
  let y j := cy (nth j r origin) in
  f_div (np_sum (map (fun i => f_mul (x i) (f_sub (y (i mod m + 1)%nat) (y (i - 1)%nat)))
                     (seq 1 m)))
        f_two.

(** Two rings with the same abscissas and ordinates. *)
Definition same_xy (r r' : ring F) : Prop :=
  map cx r = map cx r' /\ map cy r = map cy r'.

(** [geometry.coords]; it is only asked of a [LineString] or a
    [LinearRing]. *)
Definition coords (g : Geometry F) : ring F :=
  match g with
  | LineString cs | LinearRing cs | Point cs => cs
  | _ => []
  end.

(** [_is_ccw_fallback] on one element ([None] or a geometry). *)
Definition _is_ccw_fallback_scalar (geometry : option (Geometry F)) : result bool :=
  match geometry with
  | None => Ok false
  | Some g =>
      if in_strings (geom_type g) ["LinearRing"; "LineString"] then
        if (length (coords g) <? 4)%nat then Ok false
        else a <- signed_area (coords g) ;; Ok (f_ge a f_zero)
      else Ok false
  end.

(** [_is_ccw_fallback(geometry, **kwargs)]. *)
Definition _is_ccw_fallback (geometry : ccw_arg F) (kwargs : list string)
  : result ccw_out :=
  if negb (length kwargs =? 0)%nat then Raise NotImplementedError
  else
    match geometry with
    | ArgNone => Ok (OutBool false)
    | ArgSeq l =>
        bs <- map_result _is_ccw_fallback_scalar l ;; Ok (OutArray bs)
    | ArgGeom g =>
        b <- _is_ccw_fallback_scalar (Some g) ;; Ok (OutBool b)
    end.

(** A [LinearRing] or a [LineString]. *)
Definition is_ring_or_line (g : Geometry F) : bool :=
  match g with
  | LinearRing _ | LineString _ => true
  | _ => false
  end.

(** The flag the fallback gives one element (it never raises there). *)
Definition fallback_flag (g : option (Geometry F)) : bool :=
  match _is_ccw_fallback_scalar g with
  | Ok b => b
  | Raise _ => false
  end.

(** [Polygon.interiors]: [[]] for an empty polygon. *)
Definition interiors_of (exterior : ring F) (interiors : list (ring F))
  : list (ring F) :=
  if is_empty (Polygon exterior interiors) then [] else interiors.

(** [[geometry.exterior, *geometry.interiors]]. *)
Definition rings_of (exterior : ring F) (interiors : list (ring F))
  : list (ring F) :=
  exterior :: interiors_of exterior interiors.

(** What becomes of a ring: kept when its flag is true, reversed
    otherwise. *)
Definition keep_or_reverse (r : ring F) (flag : bool) : ring F :=
  if flag then r else rev r.

(** The reading of the flag as "reverse": reversed when the flag is
    true, kept otherwise. *)
Definition reverse_if_flagged (r : ring F) (flag : bool) : ring F :=
  if flag then rev r else r.

Definition polygon_of_rings (l : list (ring F)) : Geometry F :=
  match l with
  | e :: holes => Polygon e holes
  | [] => Polygon [] []
  end.

(** All the coordinates of a ring have one arity. *)
Fixpoint uniform_arity (r : ring F) : bool :=
  match r with
  | c :: ((d :: _) as t) =>
      (GeometryPolygon.arity c =? GeometryPolygon.arity d)%nat && uniform_arity t
  | _ => true
  end.

(** A closed ring of at least two points. *)
Definition proper_ring (r : ring F) : bool := is_closed r && (2 <=? length r)%nat.

(** [has_sign true r]: [signed_area(r) >= 0.0] holds;
    [has_sign false r]: [signed_area(r) <= 0.0] holds. *)
Definition has_sign (nonneg : bool) (r : ring F) : Prop :=
  exists a, signed_area r = Ok a /\
            (if nonneg then f_ge a f_zero else f_ge f_zero a) = true.

Section Orientation.

(** The version of the geometry engine and its native winding check
    (element-wise), both outside the source. *)
Variable geos_version : nat * nat * nat.
Variable _is_ccw_geos_3_7 : option (Geometry F) -> bool.
(** Engine facilities the constructors consult. *)
Variable is_valid : Geometry F -> bool.
Variable iter_geometry : Geometry F -> result (list (GeometryPolygon.item F)).

Definition native_is_ccw (geometry : ccw_arg F) : result ccw_out :=
  match geometry with
  | ArgNone => Ok (OutBool (_is_ccw_geos_3_7 None))
  | ArgGeom g => Ok (OutBool (_is_ccw_geos_3_7 (Some g)))
  | ArgSeq l => Ok (OutArray (map _is_ccw_geos_3_7 l))
  end.

(** [is_ccw = _is_ccw_geos_3_7 if geos_version >= (3, 7, 0)
             else _is_ccw_fallback]. *)
Definition is_ccw (geometry : ccw_arg F) : result ccw_out :=
  if version_ge geos_version (3, 7, 0)%nat then native_is_ccw geometry
  else _is_ccw_fallback geometry [].

(** The winding flag [is_ccw] gives one ring. *)
Definition ccw_flag (r : ring F) : bool :=
  if version_ge geos_version (3, 7, 0)%nat
  then _is_ccw_geos_3_7 (Some (LinearRing r))
  else fallback_flag (Some (LinearRing r)).

(** On the ring, the check in use answers as the reference check does:
    it is the reference check, or the native check agrees with it
    there. *)
Definition answers_as_reference (r : ring F) : Prop :=
  ccw_flag r = fallback_flag (Some (LinearRing r)).

(** The flags of lines 83-86 of [force_ccw]:
<<
    reverse_rings = is_ccw(rings)
    reverse_rings[0] = not reverse_rings[0]
    if ccw:
        reverse_rings = np.logical_not(reverse_rings)
>> *)
Definition reverse_flags (rings : list (Geometry F)) (ccw : bool)
  : result (list bool) :=
  r <- is_ccw (ArgSeq (map Some rings)) ;;
  match r with
  | OutBool _ => Raise TypeError          (* a bool cannot be indexed *)
  | OutArray reverse_rings =>
      match reverse_rings with
      | [] => Raise IndexError
      | b :: rest =>
          let reverse_rings := negb b :: rest in
          Ok (if ccw then map negb reverse_rings else reverse_rings)
      end
  end.

(** [ring if reverse_ring else list(ring.coords)[::-1]]. *)
Definition pick (ring : Geometry F) (reverse_ring : bool)
  : GeometryPolygon.pyvalue F (Geometry F) :=
  if reverse_ring then GeometryPolygon.PyGeom ring
  else GeometryPolygon.PySeq (map (@GeometryPolygon.ITuple F) (rev (coords ring))).

Definition Polygon_new :=
  GeometryPolygon.Polygon_new f_eqb (fun g : Geometry F => g)
                              is_valid iter_geometry.

(** Modelled from the spec: the constructors of [MultiPolygon] and
    [GeometryCollection], [geometry.__class__(list(...))], "rebuild the
    same collection variant around the normalized children, preserving
    child order and count". *)
Definition collection_new (t : multi_type) (geoms : list (Geometry F))
  : Geometry F :=
  Multi t geoms.

(** [force_ccw(geometry, ccw=True)] on one geometry. *)
Fixpoint force_ccw (geometry : Geometry F) (ccw : bool) : result (Geometry F) :=
  match geometry with
  | Multi t geoms =>
      if in_strings (multi_name t) ["MultiPolygon"; "GeometryCollection"] then
        gs <- map_result (fun g => force_ccw g ccw) geoms ;;
        Ok (collection_new t gs)
      else Ok geometry
  | Polygon exterior interiors =>
      let rings := LinearRing exterior
                   :: map (@LinearRing F) (interiors_of exterior interiors) in
      reverse_rings <- reverse_flags rings ccw ;;
      let rings := map2 pick rings reverse_rings in
      match rings with
      | [] => Raise IndexError
      | shell :: holes =>
          p <- Polygon_new shell (Some holes) ;;
          Ok (GeometryPolygon.value_of (fun g : Geometry F => g) p)
      end
  | _ => Ok geometry
  end.

(** [orient(geom, sign=1.0)] of [polygon.py]:
    [shapely.force_ccw(geom, np.array(sign) >= 0.0)]. *)
Definition orient (geom : Geometry F) (sign : F) : result (Geometry F) :=
  force_ccw geom (f_ge sign f_zero).

End Orientation.

End Arithmetic.

End Cga.


(** ** [shapely/coordinates.py]: the coordinate transform pipeline *)

Module Coordinates.

Section Pipeline.

(** The float64 values; [nan] is the one emitted for a missing third
    ordinate. *)
Variable F : Type.
Variable nan : F.
(** [a == b] on two ordinates. *)
Variable F_eqb : F -> F -> bool.

(** *** numpy arrays and Python values *)

Inductive dtype : Type :=
| Float64
| OtherDtype.        (* object, int64, ... *)

(** An array of numbers: its element type, its shape and its elements
    in C order. *)
Record ndarray : Type := NdArray { dt : dtype; shape : list nat; data : list F }.

(** What the mapping function is called with, and what it may return. *)
#[warnings="-register-all"]
Inductive pyobj : Type :=
| PFloat (v : F)             (* a Python float or a numpy float64 scalar *)
| PArray (a : ndarray)
| PTuple (l : list pyobj)    (* a tuple or a list *)
| POther.                    (* anything else: None, a string, ... *)

Definition dtype_eqb (a b : dtype) : bool :=
  match a, b with
  | Float64, Float64 | OtherDtype, OtherDtype => true
  | _, _ => false
  end.

Fixpoint shape_eqb (s t : list nat) : bool :=
  match s, t with
  | [], [] => true
  | a :: s', b :: t' => (a =? b)%nat && shape_eqb s' t'
  | _, _ => false
  end.

(** Rows of [m] elements each. *)
Fixpoint chunk (m : nat) (n : nat) (l : list F) : list (list F) :=
  match n with
  | O => []
  | S n' => firstn m l :: chunk m n' (skipn m l)
  end.

(** Columns of a list of rows of [m] elements each. *)
Fixpoint columns (m : nat) (rows : list (list F)) : list (list F) :=
  match m with
  | O => []
  | S m' => map (fun r => hd nan r) rows :: columns m' (map (@tl F) rows)
  end.

(** [a.T].  Arrays of fewer than two dimensions are left as they are;
    only the shape of an array of three or more dimensions is tracked
    (no such array passes the shape check of [_transform]). *)
Definition transpose (a : ndarray) : ndarray :=
  match shape a with
  | [n; m] => NdArray (dt a) [m; n] (concat (columns m (chunk m n (data a))))
  | s => NdArray (dt a) (rev s) (data a)
  end.

Definition all_shapes_equal (l : list ndarray) : bool :=
  match l with
  | [] => true
  | a :: l' => forallb (fun b => shape_eqb (shape b) (shape a)) l'
  end.

Definition common_dtype (l : list ndarray) : dtype :=
  if forallb (fun a => dtype_eqb (dt a) Float64) l then Float64 else OtherDtype.

(** [np.array(obj)]: a scalar gives a 0-d array, a sequence of arrays of
    one shape is stacked along a new first axis, a ragged sequence
    raises [ValueError]. *)
Fixpoint np_array (o : pyobj) : result ndarray :=
  match o with
  | PFloat v => Ok (NdArray Float64 [] [v])
  | PArray a => Ok a
  | POther => Ok (NdArray OtherDtype [] [])
  | PTuple l =>
      arrs <- map_result np_array l ;;
      if all_shapes_equal arrs then
        Ok (NdArray (common_dtype arrs)
                    (length arrs :: match arrs with a :: _ => shape a | [] => [] end)
                    (concat (map data arrs)))
      else Raise ValueError
  end.

(** *** The coordinate access engine *)

Definition geometry := Geometry F.

(** Modelled from the spec: [lib.count_coordinates], the "total number
    of coordinate tuples reachable by recursive descent"; a [None]
    contributes 0 and a batch sums its elements. *)
Fixpoint count_geom (g : geometry) : nat :=
  match g with
  | Point cs | LineString cs | LinearRing cs => length cs
  | Polygon e holes => length e + list_sum (map (@length _) holes)
  | Multi _ gs => list_sum (map count_geom gs)
  end.

(** Modelled from the spec: the count of one element of a batch, 0 for
    [None]. *)
Definition count_item (g : option geometry) : nat :=
  match g with Some g => count_geom g | None => 0 end.

(** Modelled from the spec: [lib.count_coordinates(arr)], the sum of
    the counts of the elements. *)
Definition lib_count_coordinates (items : list (option geometry)) : nat :=
  list_sum (map count_item items).

(** Modelled from the spec: the tuple emitted for one coordinate; "when
    a source geometry lacks a third dimension but arity 3 is requested,
    the third component is emitted as NaN". *)
Definition row_of (include_z : bool) (c : coord F) : list F :=
  if include_z
  then [cx c; cy c; match cz c with Some z => z | None => nan end]
  else [cx c; cy c].

(** Modelled from the spec: the depth-first, left-to-right traversal of
    [extract]: own coordinates for a point or a line, exterior then
    interiors for a polygon, children in order for a collection. *)
Fixpoint coords_geom (g : geometry) : list (coord F) :=
  match g with
  | Point cs | LineString cs | LinearRing cs => cs
  | Polygon e holes => e ++ concat holes
  | Multi _ gs => flat_map coords_geom gs
  end.

(** Modelled from the spec: "null entries in a batch are skipped". *)
Definition coords_item (g : option geometry) : list (coord F) :=
  match g with Some g => coords_geom g | None => [] end.

(** Modelled from the spec: [lib.get_coordinates(arr, include_z, False)],
    a float64 array of shape (N, 2) or (N, 3). *)
Definition lib_get_coordinates (items : list (option geometry)) (include_z : bool)
  : ndarray :=
  let cs := flat_map coords_item items in
  NdArray Float64 [length cs; if include_z then 3 else 2]%nat
          (flat_map (row_of include_z) cs).

(** Modelled from the spec: the coordinate written from one row.  A row
    of two drops the third ordinate; a row of three keeps the
    dimensionality of the input, as the docstring of [set_coordinates]
    has it. *)
Definition write_coord (old : coord F) (row : list F) : coord F :=
  match row with
  | [x; y] => Coord x y None
  | [x; y; z] => Coord x y (match cz old with Some _ => Some z | None => None end)
  | _ => old
  end.

(** Modelled from the spec: the rows are consumed in the order in
    which [lib_get_coordinates] emits the coordinates. *)
Fixpoint write_coords (cs : list (coord F)) (rows : list (list F))
  : list (coord F) * list (list F) :=
  match cs with
  | [] => ([], rows)
  | c :: cs' =>
      match rows with
      | [] => (cs, [])
      | r :: rows' =>
          let (out, rest) := write_coords cs' rows' in
          (write_coord c r :: out, rest)
      end
  end.

(** Modelled from the spec: the rings of a polygon, in ring order. *)
Fixpoint write_rings (rings : list (list (coord F))) (rows : list (list F))
  : list (list (coord F)) * list (list F) :=
  match rings with
  | [] => ([], rows)
  | r :: rings' =>
      let (r', rest) := write_coords r rows in
      let (out, rest') := write_rings rings' rest in
      (r' :: out, rest')
  end.

(** Modelled from the spec: the engine keeps the invariant of the data
    model, "a LinearRing's coordinate sequence is closed: first
    coordinate equals last".  It refuses to build a ring that is not
    closed, with an exception of its own. *)
Definition check_ring (cs : list (coord F)) : result (list (coord F)) :=
  if GeometryPolygon.is_closed F_eqb cs then Ok cs else Raise GEOSException.

(** Modelled from the spec: the scatter traversal of one geometry,
    mirroring [coords_geom]; the rings that it writes are checked. *)
Fixpoint write_geom (g : geometry) (rows : list (list F))
  : result (geometry * list (list F)) :=
  match g with
  | Point cs => let (cs', rest) := write_coords cs rows in Ok (Point cs', rest)
  | LineString cs => let (cs', rest) := write_coords cs rows in Ok (LineString cs', rest)
  | LinearRing cs =>
      let (cs', rest) := write_coords cs rows in
      cs'' <- check_ring cs' ;;
      Ok (LinearRing cs'', rest)
  | Polygon e holes =>
      let (e', rest) := write_coords e rows in
      let (holes', rest') := write_rings holes rest in
      e'' <- check_ring e' ;;
      holes'' <- map_result check_ring holes' ;;
      Ok (Polygon e'' holes'', rest')
  | Multi t gs =>
      let fix write_all (gs : list geometry) (rows : list (list F)) :=
        match gs with
        | [] => Ok ([], rows)
        | g :: gs' =>
            w <- write_geom g rows ;;
            ws <- write_all gs' (snd w) ;;
            Ok (fst w :: fst ws, snd ws)
        end in
      ws <- write_all gs rows ;;
      Ok (Multi t (fst ws), snd ws)
  end.

(** Modelled from the spec: the scatter traversal of a batch, element
    after element, each written element replacing the one in the array;
    a [None] stays [None].  The result is the array as the traversal
    leaves it and the exception that ended it, if any: the elements
    before the one that is refused have been replaced already. *)
Fixpoint write_items (items : list (option geometry)) (rows : list (list F))
  : list (option geometry) * option exn :=
  match items with
  | [] => ([], None)
  | None :: items' =>
      let (out, failure) := write_items items' rows in (None :: out, failure)
  | Some g :: items' =>
      match write_geom g rows with
      | Raise e => (items, Some e)
      | Ok (g', rest) =>
          let (out, failure) := write_items items' rest in
          (Some g' :: out, failure)
      end
  end.

(** Modelled from the spec: [lib.set_coordinates(arr, coordinates)]
    writes the rows of a validated buffer back in the order of
    [lib_get_coordinates], in place. *)
Definition lib_set_coordinates (items : list (option geometry)) (coordinates : ndarray)
  : list (option geometry) * option exn :=
  match shape coordinates with
  | [n; m] => write_items items (chunk m n (data coordinates))
  | _ => (items, None)
  end.

(** [shapely.get_coordinate_dimension] of the compiled extension, on
    one element of its argument (it works element by element). *)
Variable get_coordinate_dimension : option geometry -> Z.

(** [get_coordinate_dimension(g) == 3] on one element. *)
Definition is_3d (g : option geometry) : bool :=
  (get_coordinate_dimension g =? 3)%Z.

(** *** The mapping function and the record of its calls *)

Definition mapping : Type := list pyobj -> result pyobj.

(** The arguments of every call of the mapping function, oldest first. *)
Definition calls : Type := list (list pyobj).

(** A computation that may raise and that records the calls it makes. *)
Definition M (A : Type) : Type := calls -> result A * calls.

Definition ret {A} (a : A) : M A := fun log => (Ok a, log).
Definition raise {A} (e : exn) : M A := fun log => (Raise e, log).
Definition lift {A} (r : result A) : M A := fun log => (r, log).

Definition mbind {A B} (m : M A) (k : A -> M B) : M B :=
  fun log =>
    match m log with
    | (Ok a, log') => k a log'
    | (Raise e, log') => (Raise e, log')
    end.

Local Notation "x <~ m ;; k" := (mbind m (fun x => k))
  (at level 61, m at next level, right associativity).

Definition call (f : mapping) (args : list pyobj) : M pyobj :=
  fun log => (f args, log ++ [args]).

(** [try: body / except Exception: handler]. *)
Definition try_except {A} (body handler : M A) : M A :=
  fun log =>
    match body log with
    | (Raise e, log') => if is_Exception e then handler log' else (Raise e, log')
    | done => done
    end.

Section MapM.
Variables A B : Type.
Variable f : A -> M B.

Fixpoint mapM (l : list A) : M (list B) :=
  match l with
  | [] => ret []
  | a :: l' => b <~ f a ;; bs <~ mapM l' ;; ret (b :: bs)
  end.

End MapM.

(** *** Geometry arguments and results *)

(** The [geometry] argument: one geometry or [None], a Python list, or
    a one-dimensional numpy object array. *)
Inductive geom_arg : Type :=
| GScalar (g : option geometry)
| GList (l : list (option geometry))
| GArray (l : list (option geometry)).

(** A numpy object array of zero or one dimension. *)
Record garr : Type := GArr { ndim0 : bool; items : list (option geometry) }.

(** [np.array(geometry, dtype=np.object_)] (a copy) and
    [np.asarray(geometry, dtype=np.object_)] have the same contents. *)
Definition object_array (geometry : geom_arg) : garr :=
  match geometry with
  | GScalar g => GArr true [g]
  | GList l | GArray l => GArr false l
  end.

Definition isinstance_ndarray (geometry : geom_arg) : bool :=
  match geometry with GArray _ => true | _ => false end.

Inductive geom_out : Type :=
| OutItem (g : option geometry)
| OutArray (l : list (option geometry)).

(** [geometry_arr.item()] if the array is 0-d and the argument was not
    an array, [geometry_arr] otherwise. *)
Definition unwrap (geometry : geom_arg) (geometry_arr : garr) : geom_out :=
  if ndim0 geometry_arr && negb (isinstance_ndarray geometry)
  then OutItem (hd None (items geometry_arr))
  else OutArray (items geometry_arr).

(** *** [_transform] and [_transform_multi_vec] *)

(** The checks of [_transform] on what the mapping returned:
<<
    if not isinstance(new_coordinates, np.ndarray): raise ValueError(...)
    if new_coordinates.dtype != np.float64: raise ValueError(...)
    if new_coordinates.shape != coordinates.shape: raise ValueError(...)
>> *)
Definition check_result (coordinates : ndarray) (new_coordinates : pyobj)
  : result ndarray :=
  match new_coordinates with
  | PArray a =>
      if negb (dtype_eqb (dt a) Float64) then Raise ValueError
      else if negb (shape_eqb (shape a) (shape coordinates)) then Raise ValueError
      else Ok a
  | _ => Raise ValueError
  end.

(** [_transform(geometry, transformation, include_z)]. *)
Definition _transform (geometry : geom_arg) (transformation : ndarray -> M pyobj)
    (include_z : bool) : M geom_out :=
  let geometry_arr := object_array geometry in
  let coordinates := lib_get_coordinates (items geometry_arr) include_z in
  new_coordinates <~ transformation coordinates ;;
  new_coordinates <~ lift (check_result coordinates new_coordinates) ;;
  let (written, failure) := lib_set_coordinates (items geometry_arr) new_coordinates in
  match failure with
  | Some e => raise e
  | None => ret (unwrap geometry (GArr (ndim0 geometry_arr) written))
  end.

(** Iterating over an array, or unpacking it as arguments: its sub-arrays
    along the first axis. *)
Definition iter_array (a : ndarray) : list ndarray :=
  match shape a with
  | [] => []
  | n :: s => map (NdArray (dt a) s) (chunk (fold_right Nat.mul 1%nat s) n (data a))
  end.

(** The mapping applied to the whole array at once. *)
Definition single_vec_call (transformation : mapping) (coords : ndarray) : M pyobj :=
  call transformation [PArray coords].

(** [lambda coords: np.array(transformation( *coords.T)).T]. *)
Definition whole_axes (transformation : mapping) (coords : ndarray) : M pyobj :=
  r <~ call transformation (map PArray (iter_array (transpose coords))) ;;
  a <~ lift (np_array r) ;;
  ret (PArray (transpose a)).

(** [transformation( *c)] for each row [c]. *)
Definition each_coordinate (transformation : mapping) (coords : ndarray)
  : M (list pyobj) :=
  mapM (fun c => call transformation (map PFloat (data c))) (iter_array coords).

(** [lambda coords: np.array([transformation( *c) for c in coords])]. *)
Definition per_coordinate (transformation : mapping) (coords : ndarray) : M pyobj :=
  rs <~ each_coordinate transformation coords ;;
  a <~ lift (np_array (PTuple rs)) ;;
  ret (PArray a).

(** [_transform_multi_vec(geometry, transformation, include_z)]. *)
Definition _transform_multi_vec (geometry : geom_arg) (transformation : mapping)
    (include_z : bool) : M geom_out :=
  try_except
    (_transform geometry (whole_axes transformation) include_z)
    (_transform geometry (per_coordinate transformation) include_z).

(** *** Rebuild mode *)

(** The constructors [type(geometry)(value)] of a point, a line or a
    ring called on what the mapping returned, [type(geometry)(shell,
    holes)] of a polygon and [type(geometry)(parts)] of a collection. *)
Variable construct : geometry -> pyobj -> result geometry.
Variable construct_polygon : geometry -> list geometry -> result geometry.
Variable construct_multi : multi_type -> list (option geometry) -> result geometry.

(** [get_coordinates(geometry, include_z=include_z)] of one geometry. *)
Definition get_coordinates (g : geometry) (include_z : bool) : ndarray :=
  lib_get_coordinates [Some g] include_z.

Definition interiors (g : geometry) : list (list (coord F)) :=
  match g with
  | Polygon _ holes => if is_empty g then [] else holes
  | _ => []
  end.

(** [transform_rebuild_single_part]; it returns [None] when the
    geometry is neither a point, a line, a ring nor a polygon. *)
Definition transform_rebuild_single_part (g : geometry)
    (transformation : ndarray -> M pyobj) (include_z : bool) : M (option geometry) :=
  match g with
  | Point _ | LineString _ | LinearRing _ =>
      v <~ transformation (get_coordinates g include_z) ;;
      g' <~ lift (construct g v) ;;
      ret (Some g')
  | Polygon exterior _ =>
      v <~ transformation (get_coordinates (LinearRing exterior) include_z) ;;
      shell <~ lift (construct (LinearRing exterior) v) ;;
      holes <~ mapM (fun ring =>
                       v <~ transformation (get_coordinates (LinearRing ring) include_z) ;;
                       lift (construct (LinearRing ring) v))
                    (interiors g) ;;
      g' <~ lift (construct_polygon shell holes) ;;
      ret (Some g')
  | Multi _ _ => ret None
  end.

(** [_transform2(geometry, transformation, include_z)].  The variant is
    closed, so the final [raise GeometryTypeError] has no counterpart. *)
Fixpoint _transform2 (g : geometry) (transformation : mapping) (include_z : bool)
  : M (option geometry) :=
  if is_empty g then ret (Some g)
  else
    match g with
    | Multi t geoms =>
        parts <~ mapM (fun part => _transform2 part transformation include_z) geoms ;;
        g' <~ lift (construct_multi t parts) ;;
        ret (Some g')
    | _ =>
        transform_rebuild_single_part g (single_vec_call transformation) include_z
    end.

(** [lambda coords: np.array(transformation( *np.array(coords).T)).T]
    is [whole_axes]; [lambda coords: [transformation( *c) for c in coords]]
    returns the list itself. *)
Definition per_coordinate_list (transformation : mapping) (coords : ndarray) : M pyobj :=
  rs <~ each_coordinate transformation coords ;;
  ret (PTuple rs).

(** [_transform2_multi_vec(geometry, transformation, include_z)]. *)
Fixpoint _transform2_multi_vec (g : geometry) (transformation : mapping)
    (include_z : bool) : M (option geometry) :=
  if is_empty g then ret (Some g)
  else
    match g with
    | Multi t geoms =>
        parts <~ mapM (fun part => _transform2_multi_vec part transformation include_z)
                      geoms ;;
        g' <~ lift (construct_multi t parts) ;;
        ret (Some g')
    | _ =>
        try_except
          (transform_rebuild_single_part g (whole_axes transformation) include_z)
          (transform_rebuild_single_part g (per_coordinate_list transformation) include_z)
    end.

(** *** [transform] *)

(** The tri-state [include_z] argument: [True], [False] or [-1]. *)
Inductive include_z_arg : Type :=
| IncludeAlways
| IncludeNever
| IncludeIf3D.

(** [include_z] once resolved: a scalar, or an array with one flag per
    element of the batch. *)
Inductive include_z_val : Type :=
| ZScalar (b : bool)
| ZArray (bs : list bool).

(** Lines 118-119:
<<
    if include_z == -1:
        include_z = shapely.get_coordinate_dimension(geometry) == 3
>>
    [get_coordinate_dimension] works element-wise. *)
Definition resolve_include_z (geometry : geom_arg) (include_z : include_z_arg)
  : include_z_val :=
  match include_z with
  | IncludeAlways => ZScalar true
  | IncludeNever => ZScalar false
  | IncludeIf3D =>
      match geometry with
      | GScalar g => ZScalar (is_3d g)
      | GList l | GArray l => ZArray (map is_3d l)
      end
  end.

(** One call of a wrapper on one element of a batch. *)
Definition element_wrapper : Type := option geometry -> bool -> M (option geometry).

Definition as_item (r : geom_out) : option geometry :=
  match r with
  | OutItem g => g
  | OutArray _ => None      (* an element-wise call returns one object *)
  end.

Definition _transform_element (transformation : mapping) : element_wrapper :=
  fun g include_z =>
    r <~ _transform (GScalar g) (single_vec_call transformation) include_z ;;
    ret (as_item r).

Definition _transform_multi_vec_element (transformation : mapping) : element_wrapper :=
  fun g include_z =>
    r <~ _transform_multi_vec (GScalar g) transformation include_z ;;
    ret (as_item r).

(** [None] has no [is_empty]. *)
Definition _transform2_element (transformation : mapping) : element_wrapper :=
  fun g include_z =>
    match g with
    | None => raise AttributeError
    | Some g => _transform2 g transformation include_z
    end.

Definition _transform2_multi_vec_element (transformation : mapping) : element_wrapper :=
  fun g include_z =>
    match g with
    | None => raise AttributeError
    | Some g => _transform2_multi_vec g transformation include_z
    end.

(** [np.frompyfunc(wrapper, 3, 1)(geometry, transformation, include_z)]:
    the wrapper is called element by element, in order, on the
    broadcast arguments. *)
Definition frompyfunc (wrapper : element_wrapper) (geometry : geom_arg)
    (include_z : include_z_val) : M geom_out :=
  match geometry, include_z with
  | GScalar g, ZScalar b => r <~ wrapper g b ;; ret (OutItem r)
  | GScalar g, ZArray bs =>
      rs <~ mapM (fun b => wrapper g b) bs ;; ret (OutArray rs)
  | (GList l | GArray l), ZScalar b =>
      rs <~ mapM (fun g => wrapper g b) l ;; ret (OutArray rs)
  | (GList l | GArray l), ZArray bs =>
      if (length l =? length bs)%nat then
        rs <~ mapM (fun gb => wrapper (fst gb) (snd gb)) (combine l bs) ;;
        ret (OutArray rs)
      else
        match l, bs with
        | [g], _ => rs <~ mapM (fun b => wrapper g b) bs ;; ret (OutArray rs)
        | _, [b] => rs <~ mapM (fun g => wrapper g b) l ;; ret (OutArray rs)
        | _, _ => raise ValueError
        end
  end.

Definition all_equal_first (bs : list bool) : result bool :=
  match bs with
  | [] => Raise IndexError                 (* include_z[0] *)
  | b0 :: _ => Ok (forallb (Bool.eqb b0) bs)
  end.

(** Lines 120-138 of [transform], once [include_z] is resolved. *)
Definition transform_resolved (geometry : geom_arg) (transformation : mapping)
    (include_z : include_z_val) (single_vec rebuild : bool) : M geom_out :=
  if rebuild then
    let wrapper := if single_vec then _transform2_element transformation
                   else _transform2_multi_vec_element transformation in
    match geometry, include_z with
    | GScalar (Some g), ZScalar b =>        (* isinstance(geometry, Geometry) *)
        r <~ wrapper (Some g) b ;; ret (OutItem r)
    | _, _ => frompyfunc wrapper geometry include_z
    end
  else
    let batch b :=
      if single_vec
      then _transform geometry (single_vec_call transformation) b
      else _transform_multi_vec geometry transformation b in
    match include_z with
    | ZScalar b => batch b                 (* np.isscalar(include_z) *)
    | ZArray bs =>
        same <~ lift (all_equal_first bs) ;;
        if same then batch (hd false bs)
        else frompyfunc (if single_vec then _transform_element transformation
                         else _transform_multi_vec_element transformation)
                        geometry include_z
    end.

(** [transform(geometry, transformation, include_z, single_vec, rebuild)]. *)
Definition transform (geometry : geom_arg) (transformation : mapping)
    (include_z : include_z_arg) (single_vec rebuild : bool) : M geom_out :=
  transform_resolved geometry transformation
                     (resolve_include_z geometry include_z) single_vec rebuild.

(** *** [set_coordinates] *)

Definition atleast_2d (a : ndarray) : ndarray :=
  match shape a with
  | [] => NdArray (dt a) [1; 1]%nat (data a)
  | [n] => NdArray (dt a) [1; n]%nat (data a)
  | _ => a
  end.

Definition astype_float64 (a : ndarray) : ndarray :=
  NdArray Float64 (shape a) (data a).

(** [set_coordinates(geometry, coordinates)] on a numeric
    [coordinates].  The second component is the caller's [geometry]
    object after the call: [np.asarray] aliases an array argument, which
    [lib.set_coordinates] then overwrites in place, as far as it gets;
    a geometry or a list is left as it was. *)
Definition set_coordinates (geometry : geom_arg) (coordinates : ndarray)
  : result geom_out * geom_arg :=
  let geometry_arr := object_array geometry in
  let coordinates := astype_float64 (atleast_2d coordinates) in
  if negb (length (shape coordinates) =? 2)%nat then (Raise ValueError, geometry)
  else
    let n_coords := lib_count_coordinates (items geometry_arr) in
    if negb (nth 0 (shape coordinates) 0 =? n_coords)%nat
       || negb (existsb (Nat.eqb (nth 1 (shape coordinates) 0%nat)) [2; 3]%nat)
    then (Raise ValueError, geometry)
    else
      let (written, failure) := lib_set_coordinates (items geometry_arr) coordinates in
      let after := match geometry with
                   | GArray _ => GArray written
                   | _ => geometry
                   end in
      match failure with
      | Some e => (Raise e, after)
      | None => (Ok (unwrap geometry (GArr (ndim0 geometry_arr) written)), after)
      end.

(** *** Notions used to state the properties of the pipeline *)

(** [count_coordinates(geometry)]. *)
Definition count_coordinates (geometry : geom_arg) : nat :=
  lib_count_coordinates (items (object_array geometry)).

(** The buffer [_transform] extracts before it calls the mapping. *)
Definition coordinates_of (geometry : geom_arg) (include_z : bool) : ndarray :=
  lib_get_coordinates (items (object_array geometry)) include_z.

(** Rows and columns of a coordinate buffer, once made two-dimensional. *)
Definition row_count (b : ndarray) : nat := nth 0 (shape (atleast_2d b)) 0%nat.
Definition column_count (b : ndarray) : nat := nth 1 (shape (atleast_2d b)) 0%nat.

(** Every element of a batch handled on its own, with the flag of its
    own dimension. *)
Definition per_element (wrapper : element_wrapper) (l : list (option geometry))
  : M geom_out :=
  rs <~ mapM (fun g => wrapper g (is_3d g)) l ;; ret (OutArray rs).

Definition rebuild_wrapper (f : mapping) (single_vec : bool) : element_wrapper :=
  if single_vec then _transform2_element f else _transform2_multi_vec_element f.

Definition preserve_wrapper (f : mapping) (single_vec : bool) : element_wrapper :=
  if single_vec then _transform_element f else _transform_multi_vec_element f.

(** The whole batch handled in one pass with one flag. *)
Definition preserve_batch (geometry : geom_arg) (f : mapping) (single_vec : bool)
    (b : bool) : M geom_out :=
  if single_vec then _transform geometry (single_vec_call f) b
  else _transform_multi_vec geometry f b.

(** One decision for the whole batch: "true if any input geometry is
    three-dimensional". *)
Definition one_decision (l : list (option geometry)) : include_z_arg :=
  if existsb is_3d l then IncludeAlways else IncludeNever.

End Pipeline.

Arguments is_3d {F} get_coordinate_dimension g.
Arguments one_decision {F} get_coordinate_dimension l.

Notation "x <~ m ;; k" := (mbind m (fun x => k))
  (at level 61, m at next level, right associativity).

End Coordinates.


(** ** Concrete geometries and mappings used in the examples *)

Module Examples.

Definition pt (x y : Q) : coord Q := Coord x y None.

(** The clockwise unit square of the specification (area -1). *)
Definition square : Cga.ring Q := [pt 0 0; pt 0 1; pt 1 1; pt 1 0; pt 0 0].

(** A counter-clockwise hole inside it. *)
Definition hole : Cga.ring Q :=
  [pt (1#4) (1#4); pt (1#2) (1#4); pt (1#2) (1#2); pt (1#4) (1#4)].

(** The same rings in float64. *)
Definition fpt (x y : float) : coord float := Coord x y None.

Definition fsquare : Cga.ring float :=
  [fpt 0 0; fpt 0 1; fpt 1 1; fpt 1 0; fpt 0 0].

Definition fhole : Cga.ring float :=
  [fpt 0.25 0.25; fpt 0.5 0.25; fpt 0.5 0.5; fpt 0.25 0.25].

(** The square with a third ordinate. *)
Definition fsquare_z : Cga.ring float :=
  map (fun c => Coord (cx c) (cy c) (Some 7%float)) fsquare.

(** A quadrilateral with one long diagonal: the products that
    [signed_area] adds exceed 2^53 and are rounded. *)
Definition long_quad : Cga.ring float :=
  [fpt 0 0; fpt 1 0; fpt 1 134217729; fpt 134217729 134217729; fpt 0 0].

(** A quadrilateral far from the origin, counter-clockwise and without
    self-intersection: every ordinate is 2^53 plus a small even number. *)
Definition far (x y : float) : coord float :=
  fpt (9007199254740992 + x) (9007199254740992 + y).

Definition far_quad : Cga.ring float :=
  [far 4 0; far 12 10; far 12 14; far 10 8; far 4 0].

(** An engine of version 3.11.1 whose native check is the reference,
    and one of version 3.6.2, where [is_ccw] is [_is_ccw_fallback]. *)
Definition geos_3_11 : nat * nat * nat := (3, 11, 1)%nat.
Definition geos_3_6 : nat * nat * nat := (3, 6, 2)%nat.
Definition always_valid {F} : Geometry F -> bool := fun _ => true.
Definition not_iterable {F} : Geometry F -> result (list (GeometryPolygon.item F)) :=
  fun _ => Raise TypeError.
(** A native check that is never consulted. *)
Definition no_native {F} : option (Geometry F) -> bool := fun _ => false.

(** Objects with an identity. *)
Definition object : Type := nat * Geometry Q.
Definition a_ring : object := (1%nat, LinearRing square).
Definition a_polygon : object := (2%nat, Polygon square [hole]).

(** float64 values, as far as the transform pipeline looks at them. *)
Inductive float64 : Type :=
| Finite (q : Q)
| NaN.

(** [a == b]: a NaN is equal to nothing. *)
Definition float64_eqb (a b : float64) : bool :=
  match a, b with
  | Finite p, Finite q => Qeq_bool p q
  | _, _ => false
  end.

Definition point2 (x y : Q) : Geometry float64 :=
  Point [Coord (Finite x) (Finite y) None].
Definition point3 (x y z : Q) : Geometry float64 :=
  Point [Coord (Finite x) (Finite y) (Some (Finite z))].

(** A triangle, as a ring. *)
Definition triangle : Geometry float64 :=
  LinearRing [Coord (Finite 0) (Finite 0) None; Coord (Finite 1) (Finite 0) None;
              Coord (Finite 0) (Finite 1) None; Coord (Finite 0) (Finite 0) None].

(** [lambda x, y: (1.0, 2.0)]. *)
Definition constant_mapping : Coordinates.mapping float64 :=
  fun _ => Ok (Coordinates.PTuple [Coordinates.PFloat (Finite 1);
                                   Coordinates.PFloat (Finite 2)]).

(** [lambda coords: coords]. *)
Definition identity_mapping : Coordinates.mapping float64 :=
  fun args => match args with [a] => Ok a | _ => Raise TypeError end.

(** Constructors that are never reached in the examples. *)
Definition no_construct : Geometry float64 -> Coordinates.pyobj float64
                          -> result (Geometry float64) :=
  fun _ _ => Raise TypeError.
Definition no_construct_polygon : Geometry float64 -> list (Geometry float64)
                                  -> result (Geometry float64) :=
  fun _ _ => Raise TypeError.
Definition no_construct_multi : multi_type -> list (option (Geometry float64))
                                -> result (Geometry float64) :=
  fun _ _ => Raise TypeError.

(** The coordinate dimension of the engine: 3 with a third ordinate, 2
    without, -1 for [None]. *)
Definition dimension_of (g : option (Geometry float64)) : Z :=
  match g with
  | None => (-1)%Z
  | Some g =>
      if existsb (fun c => match cz c with Some _ => true | None => false end)
                 (Coordinates.coords_geom g)
      then 3%Z else 2%Z
  end.

Definition transform :=
  @Coordinates.transform float64 NaN float64_eqb dimension_of no_construct
                         no_construct_polygon no_construct_multi.

End Examples.

(** ** Further notions on rings and orientation *)

Module CgaNotions.
Import Cga.

Section Arithmetic.

Context {F : Type} {A : Arith F}.

(** One element of a batch, handed to [is_ccw] on its own. *)
Definition single (g : option (Geometry F)) : ccw_arg F :=
  match g with
  | None => ArgNone
  | Some g => ArgGeom g
  end.

(** Every polygon inside the geometry has closed rings and an exterior
    of one arity. *)
Fixpoint well_formed (g : Geometry F) : bool :=
  match g with
  | Polygon exterior interiors =>
      forallb is_closed (exterior :: interiors) && uniform_arity exterior
  | Multi _ geoms => forallb well_formed geoms
  | _ => true
  end.

(** No polygon occurs in the geometry. *)
Fixpoint no_polygon (g : Geometry F) : bool :=
  match g with
  | Polygon _ _ => false
  | Multi _ geoms => forallb no_polygon geoms
  | _ => true
  end.

(** The stacked array [np.vstack([coords, coords[1]])]. *)
Definition stacked (s : list (F * F)) : list (F * F) :=
  s ++ [nth 1 s (f_zero, f_zero)].

(** The product the code forms at position [i] of [xs[1:-1]]. *)
Definition term (s : list (F * F)) (i : nat) : F :=
  f_mul (fst (nth (S i) s (f_zero, f_zero)))
        (f_sub (snd (nth (S (S i)) s (f_zero, f_zero)))
               (snd (nth i s (f_zero, f_zero)))).

(** Two calls agree: both return, with areas that are [==], or both
    raise the same exception. *)
Inductive same_area : result F -> result F -> Prop :=
| same_ok (a b : F) : f_eqb a b = true -> same_area (Ok a) (Ok b)
| same_raise (e : exn) : same_area (Raise e) (Raise e).

Definition neg_area (u : result F) : result F :=
  match u with Ok a => Ok (f_neg a) | Raise e => Raise e end.

(** The identity [signed_area(reversed(r)) == -signed_area(r)] holds on
    the ring, both areas being computed in the arithmetic at hand; and
    when the ring has fewer than four points, where [is_ccw] does not
    look at the area, the area is [== 0.0]. *)
Definition reversal_negates (r : ring F) : Prop :=
  exists a b, signed_area r = Ok a /\ signed_area (rev r) = Ok b /\
              f_eqb b (f_neg a) = true /\
              ((length r < 4)%nat -> f_eqb a f_zero = true).

End Arithmetic.

(** *** Exact arithmetic *)

(** Sum of [f 0 .. f (k-1)]. *)
Fixpoint sum_upto (k : nat) (f : nat -> Q) : Q :=
  match k with
  | O => 0
  | S k' => sum_upto k' f + f k'
  end.

End CgaNotions.

(** ** [shapely/geometry/polygon.py]: [InteriorRingSequence] and
       [Polygon.from_bounds] *)

Module InteriorRings.

Section Sequence.

(** The parent polygon and what the geometry engine answers about it:
    [shapely.get_num_interior_rings(parent)] and
    [shapely.get_interior_ring(parent, i)], both outside the source. *)
Variable Parent : Type.
Variable Ring : Type.
Variable get_num_interior_rings : Parent -> nat.
Variable get_interior_ring : Parent -> Z -> Ring.

(** The attributes [_parent], [_index] and [_length] of the sequence. *)
Record sequence : Type :=
  Sequence { _parent : Parent; _index : Z; _length : Z }.

(** [InteriorRingSequence(parent)]: the class defaults are
    [_index = 0] and [_length = 0]. *)
Definition new (parent : Parent) : sequence := Sequence parent 0%Z 0%Z.

(** [__len__]. *)
Definition len (self : sequence) : Z :=
  Z.of_nat (get_num_interior_rings (_parent self)).

(** [_get_ring(i)]. *)
Definition _get_ring (self : sequence) (i : Z) : Ring :=
  get_interior_ring (_parent self) i.

(** [__iter__]: the sequence is its own iterator. *)
Definition iter (self : sequence) : sequence :=
  Sequence (_parent self) 0%Z (len self).

(** What [__next__] does: it returns a ring or raises [StopIteration]. *)
Inductive next_result : Type :=
| Yield (ring : Ring)
| StopIteration.

(** [__next__]. *)
Definition next (self : sequence) : next_result * sequence :=
  if (_index self <? _length self)%Z then
    (Yield (_get_ring self (_index self)),
     Sequence (_parent self) (_index self + 1)%Z (_length self))
  else (StopIteration, self).

(** A [for] loop over the iterator, that is [list(iterator)]: [next] is
    called until it raises [StopIteration].  [None] when the fuel runs
    out first. *)
Fixpoint drain (fuel : nat) (self : sequence) : option (list Ring * sequence) :=
  match fuel with
  | O => None
  | S fuel' =>
      match next self with
      | (StopIteration, self') => Some ([], self')
      | (Yield r, self') =>
          match drain fuel' self' with
          | Some (rs, final) => Some (r :: rs, final)
          | None => None
          end
      end
  end.

(** The key of [__getitem__]: an [int], a [slice(start, stop, step)]
    whose fields are integers or [None], or anything else. *)
Inductive key : Type :=
| KInt (k : Z)
| KSlice (start stop step : option Z)
| KOther.

(** One bound of a slice, as [slice.indices] adjusts it. *)
Definition adjust (bound : option Z) (default lower upper m : Z) : Z :=
  match bound with
  | None => default
  | Some b =>
      if (b <? 0)%Z then Z.max (b + m) lower else Z.min b upper
  end.

(** [slice(start, stop, step).indices(m)] of Python: [ValueError] on a
    zero step. *)
Definition slice_indices (start stop step : option Z) (m : Z)
  : result (Z * Z * Z) :=
  let step := match step with None => 1%Z | Some s => s end in
  if (step =? 0)%Z then Raise ValueError
  else
    let lower := if (step <? 0)%Z then (-1)%Z else 0%Z in
    let upper := if (step <? 0)%Z then (m - 1)%Z else m in
    Ok (adjust start (if (step <? 0)%Z then upper else lower) lower upper m,
        adjust stop (if (step <? 0)%Z then lower else upper) lower upper m,
        step).

(** The number of elements of [range(start, stop, step)], [step <> 0]. *)
Definition range_length (start stop step : Z) : nat :=
  if (0 <? step)%Z then
    if (start <? stop)%Z then Z.to_nat ((stop - start - 1) / step + 1) else O
  else
    if (stop <? start)%Z then Z.to_nat ((start - stop - 1) / (- step) + 1) else O.

(** [list(range(start, stop, step))]. *)
Definition range (start stop step : Z) : list Z :=
  map (fun k => (start + Z.of_nat k * step)%Z) (seq 0 (range_length start stop step)).

(** What [__getitem__] returns: one ring, or a list of rings. *)
Inductive item : Type :=
| One (ring : Ring)
| Many (rings : list Ring).

(** [__getitem__(key)]. *)
Definition getitem (self : sequence) (k : key) : result item :=
  let m := len self in
  match k with
  | KInt key =>
      if ((key + m <? 0) || (m <=? key))%Z then Raise IndexError
      else
        let i := if (key <? 0)%Z then (m + key)%Z else key in
        Ok (One (_get_ring self i))
  | KSlice start stop step =>
      ix <- slice_indices start stop step m ;;
      let '(start, stop, stride) := ix in
      Ok (Many (map (_get_ring self) (range start stop stride)))
  | KOther => Raise TypeError
  end.

(** The rings of the parent, first to last. *)
Definition all_rings (self : sequence) : list Ring :=
  map (fun k => _get_ring self (Z.of_nat k))
      (seq 0 (get_num_interior_rings (_parent self))).

End Sequence.

End InteriorRings.

Module PolygonMethods.

Section FromBounds.

Variable F : Type.
Variable F_eqb : F -> F -> bool.
Variable Obj : Type.
Variable geom_of : Obj -> Geometry F.
Variable is_valid : Obj -> bool.
Variable iter_geometry : Obj -> result (list (GeometryPolygon.item F)).

(** [Polygon.from_bounds(xmin, ymin, xmax, ymax)]:
    [cls([(xmin, ymin), (xmin, ymax), (xmax, ymax), (xmax, ymin)])]. *)
Definition from_bounds (xmin ymin xmax ymax : F)
  : result (GeometryPolygon.made F Obj) :=
  GeometryPolygon.Polygon_new F_eqb geom_of is_valid iter_geometry
    (GeometryPolygon.PySeq
       [GeometryPolygon.ITuple (Coord xmin ymin None);
        GeometryPolygon.ITuple (Coord xmin ymax None);
        GeometryPolygon.ITuple (Coord xmax ymax None);
        GeometryPolygon.ITuple (Coord xmax ymin None)])
    None.

(** A [Point] object without a coordinate, in a sequence. *)
Definition empty_point (o : GeometryPolygon.item F) : bool :=
  match o with
  | GeometryPolygon.IPoint [] => true
  | _ => false
  end.

(** The shell is neither [None] nor a [Polygon]. *)
Definition shell_is_examined (shell : GeometryPolygon.pyvalue F Obj) : bool :=
  match shell with
  | GeometryPolygon.PyNone => false
  | GeometryPolygon.PyGeom o => negb (GeometryPolygon.is_Polygon (geom_of o))
  | _ => true
  end.

End FromBounds.

End PolygonMethods.

(** ** Further concrete values used in the examples *)

Module MoreExamples.
Import Examples.

(** A parent polygon given by its interior rings, and the two accessors
    of the engine on it. *)
Definition holes_count (parent : list (Cga.ring Q)) : nat := length parent.
Definition hole_at (parent : list (Cga.ring Q)) (i : Z) : option (Cga.ring Q) :=
  nth_error parent (Z.to_nat i).
Definition three_holes : InteriorRings.sequence (list (Cga.ring Q)) :=
  InteriorRings.new [hole; rev hole; hole].

End MoreExamples.

(** ** Notions used to state further properties of the pipeline *)

Module CoordinatesNotions.
Import Coordinates.

Section Notions.

Variable F : Type.
Variable F_eqb : F -> F -> bool.

(** Every ring of the geometry is closed, as the data model has it. *)
Fixpoint rings_closed (g : Geometry F) : bool :=
  match g with
  | LinearRing cs => GeometryPolygon.is_closed F_eqb cs
  | Polygon e holes => forallb (GeometryPolygon.is_closed F_eqb) (e :: holes)
  | Multi _ geoms => forallb rings_closed geoms
  | _ => true
  end.

(** Every ring of every geometry of the argument is closed. *)
Definition all_rings_closed (geometry : geom_arg F) : bool :=
  forallb (fun g => match g with Some g => rings_closed g | None => true end)
          (items (object_array geometry)).

(** The buffer, made two-dimensional by [np.atleast_2d], has the shape
    that [set_coordinates] asks for: two dimensions,
    [count_coordinates(geometry)] rows and two or three columns. *)
Definition right_shape (geometry : geom_arg F) (b : ndarray F) : Prop :=
  length (shape (atleast_2d b)) = 2%nat /\
  row_count b = count_coordinates geometry /\
  (column_count b = 2 \/ column_count b = 3)%nat.

(** The geometry argument as [_transform] hands it back when nothing
    has changed: the object itself, or the array of the batch. *)
Definition unchanged (geometry : geom_arg F) : geom_out F :=
  unwrap geometry (object_array geometry).

(** The geometry whose coordinates a rebuild of a single part extracts
    first: the exterior ring of a polygon, the geometry itself
    otherwise. *)
Definition first_part (g : Geometry F) : Geometry F :=
  match g with
  | Polygon exterior _ => LinearRing exterior
  | _ => g
  end.

Definition is_collection (g : Geometry F) : bool :=
  match g with Multi _ _ => true | _ => false end.

(** The points, lines and rings that [_transform2] hands to the mapping:
    none in an empty geometry, the exterior and every interior ring of a
    polygon, those of the children of a collection. *)
Fixpoint components (g : Geometry F) : nat :=
  if is_empty g then 0
  else
    match g with
    | Point _ | LineString _ | LinearRing _ => 1
    | Polygon _ holes => 1 + length holes
    | Multi _ geoms => list_sum (map components geoms)
    end.

(** Two batches with the same entries missing. *)
Definition same_nones (l l' : list (option (Geometry F))) : Prop :=
  Forall2 (fun a b => a = None <-> b = None) l l'.

(** What the geometry argument and the result of a structure-preserving
    call have in common: one object for one object, and for a batch as
    many entries, missing at the same places. *)
Definition same_layout (geometry : geom_arg F) (out : geom_out F) : Prop :=
  match geometry, out with
  | GScalar g, OutItem g' => g = None <-> g' = None
  | GList l, OutArray l' | GArray l, OutArray l' => same_nones l l'
  | _, _ => False
  end.

(** A function applied to every coordinate of a geometry. *)
Fixpoint map_coords (h : coord F -> coord F) (g : Geometry F) : Geometry F :=
  match g with
  | Point cs => Point (map h cs)
  | LineString cs => LineString (map h cs)
  | LinearRing cs => LinearRing (map h cs)
  | Polygon e holes => Polygon (map h e) (map (map h) holes)
  | Multi t geoms => Multi t (map (map_coords h) geoms)
  end.

(** A coordinate, and a geometry, without the third ordinate. *)
Definition drop_z (c : coord F) : coord F := Coord (cx c) (cy c) None.
Definition flatten (g : Geometry F) : Geometry F := map_coords drop_z g.

(** An element of a batch after its own coordinates have been written
    back: as it was when three ordinates were extracted, without the
    third ordinate when two were. *)
Definition dimension_kept (include_z : bool) (g : option (Geometry F))
  : option (Geometry F) :=
  if include_z then g else option_map flatten g.

Definition out_map (h : option (Geometry F) -> option (Geometry F))
    (r : geom_out F) : geom_out F :=
  match r with
  | OutItem g => OutItem (h g)
  | OutArray l => OutArray (map h l)
  end.

(** A computation extends the record by at most [c] calls, and by
    exactly [c] when it returns. *)
Definition counted (A : Type) (m : M F A) (c : nat) : Prop :=
  forall log,
    exists extra, snd (m log) = log ++ extra /\ (length extra <= c)%nat /\
                  (forall r, fst (m log) = Ok r -> length extra = c).

End Notions.

End CoordinatesNotions.

Module CoordinateExamples.
Import Coordinates Examples.

(** A mapping that is interrupted from the keyboard. *)
Definition interrupted_mapping : mapping float64 :=
  fun _ => Raise KeyboardInterrupt.

(** A point and a triangle in an array, and a buffer of the right shape
    whose rows for the triangle do not end where they start. *)
Definition point_and_triangle : list (option (Geometry float64)) :=
  [Some (point2 5 6); Some triangle].
Definition open_rows : ndarray float64 :=
  NdArray Float64 [5; 2]%nat
          [Finite 7; Finite 8;
           Finite 0; Finite 0; Finite 1; Finite 0; Finite 0; Finite 1; Finite 9; Finite 9].

Definition line2 : Geometry float64 :=
  LineString [Coord (Finite 1) (Finite 2) None; Coord (Finite 3) (Finite 4) None].

(** Constructors that give the geometry they are called on again, and
    a collection of the parts that are there. *)
Definition construct_again : Geometry float64 -> pyobj float64
                             -> result (Geometry float64) :=
  fun g _ => Ok g.
Definition collect : multi_type -> list (option (Geometry float64))
                     -> result (Geometry float64) :=
  fun t parts =>
    Ok (Multi t (flat_map (fun p => match p with Some g => [g] | None => [] end) parts)).

End CoordinateExamples.

Unset Implicit Arguments.

(** * Properties *)

(** ** The arithmetic *)

Module ArithFacts.

Lemma SFcompare_sym (x y : spec_float) :
  SFcompare y x = option_map CompOpp (SFcompare x y).
Proof.
  destruct x as [sx|sx| |sx mx ex], y as [sy|sy| |sy my ey];
    cbn [SFcompare option_map];
    try reflexivity;
    try (destruct sx; reflexivity); try (destruct sy; reflexivity);
    try (destruct sx, sy; reflexivity).
  change (Pos.compare_cont Eq my mx) with (Pos.compare my mx).
  change (Pos.compare_cont Eq mx my) with (Pos.compare mx my).
  rewrite (Z.compare_antisym ex ey), (Pos.compare_antisym mx my).
  destruct sx, sy; try reflexivity;
    destruct (ex ?= ey)%Z; cbn [CompOpp]; try reflexivity;
    destruct (mx ?= my)%positive; reflexivity.
Qed.

(** [a == b] is symmetric on float64, NaN and the two zeros included. *)
Lemma float_eqb_sym (x y : float) : PrimFloat.eqb x y = PrimFloat.eqb y x.
Proof.
  rewrite !eqb_spec. unfold SFeqb. rewrite (SFcompare_sym (Prim2SF y) (Prim2SF x)).
  destruct (SFcompare (Prim2SF y) (Prim2SF x)) as [[| |]|]; reflexivity.
Qed.

#[export] Instance binary64_sym : EqbSym float.
Proof. exact float_eqb_sym. Qed.

Lemma Qeq_bool_comm (a b : Q) : Qeq_bool a b = Qeq_bool b a.
Proof.
  destruct (Qeq_bool a b) eqn:E.
  - symmetry. apply Qeq_bool_sym. exact E.
  - destruct (Qeq_bool b a) eqn:E'; [|reflexivity].
    apply Qeq_bool_sym in E'. congruence.
Qed.

#[export] Instance exact_sym : EqbSym Q.
Proof. exact Qeq_bool_comm. Qed.

(** The bound on the number of cuts is never reached: every bound that
    is at least the length of the array gives the same sum. *)
Lemma pairwise_sum_depth (d d' : nat) (l : list float) :
  (length l <= d)%nat -> (length l <= d')%nat -> pairwise_sum d l = pairwise_sum d' l.
Proof.
  revert d' l. induction d as [|d IH]; intros d' l Hd Hd'.
  - destruct l; [|cbn in Hd; lia]. destruct d'; reflexivity.
  - destruct d' as [|d'].
    + destruct l; [|cbn in Hd'; lia]. reflexivity.
    + cbn [pairwise_sum].
      destruct (length l <? 8)%nat; [reflexivity|].
      destruct (length l <=? 128)%nat eqn:E; [reflexivity|].
      apply Nat.leb_gt in E.
      pose proof (Nat.div_mod_eq (length l) 2) as H2.
      pose proof (Nat.mod_upper_bound (length l) 2 ltac:(lia)) as H2'.
      pose proof (Nat.mod_upper_bound (length l / 2) 8 ltac:(lia)) as H8.
      set (n2 := (length l / 2 - (length l / 2) mod 8)%nat) in *.
      assert (Hn2 : (0 < n2 < length l)%nat) by (subst n2; lia).
      rewrite (IH d' (firstn n2 l)), (IH d' (skipn n2 l));
        rewrite ?length_firstn, ?length_skipn; try lia.
      reflexivity.
Qed.

(** Opposite float64 numbers and zero. *)
Lemma float_opposite_ge (a b : float) :
  PrimFloat.eqb b (- a) = true -> PrimFloat.leb 0 b = PrimFloat.leb a 0.
Proof.
  rewrite eqb_spec, !leb_spec, opp_spec.
  change (Prim2SF 0) with (S754_zero false).
  destruct (Prim2SF a) as [sa|sa| |sa ma ea], (Prim2SF b) as [sb|sb| |sb mb eb];
    try destruct sa; try destruct sb; cbn; intros H;
    try discriminate H; reflexivity.
Qed.

Lemma float_opposite_le (a b : float) :
  PrimFloat.eqb b (- a) = true -> PrimFloat.leb b 0 = PrimFloat.leb 0 a.
Proof.
  rewrite eqb_spec, !leb_spec, opp_spec.
  change (Prim2SF 0) with (S754_zero false).
  destruct (Prim2SF a) as [sa|sa| |sa ma ea], (Prim2SF b) as [sb|sb| |sb mb eb];
    try destruct sa; try destruct sb; cbn; intros H;
    try discriminate H; reflexivity.
Qed.

Lemma float_comparable (a b : float) :
  PrimFloat.eqb b (- a) = true -> PrimFloat.leb 0 a = false -> PrimFloat.leb a 0 = true.
Proof.
  rewrite eqb_spec, !leb_spec, opp_spec.
  change (Prim2SF 0) with (S754_zero false).
  destruct (Prim2SF a) as [sa|sa| |sa ma ea], (Prim2SF b) as [sb|sb| |sb mb eb];
    try destruct sa; try destruct sb; cbn; intros H H';
    try discriminate H; try discriminate H'; reflexivity.
Qed.

Lemma float_zero_sign (a : float) :
  PrimFloat.eqb a 0 = true -> PrimFloat.leb a 0 = true.
Proof.
  rewrite eqb_spec, leb_spec.
  change (Prim2SF 0) with (S754_zero false).
  destruct (Prim2SF a) as [sa|sa| |sa ma ea];
    try destruct sa; cbn; intros H; try discriminate H; reflexivity.
Qed.

#[export] Instance binary64_signs : SignLaws float.
Proof.
  split.
  - exact float_opposite_ge.
  - exact float_opposite_le.
  - exact float_comparable.
  - exact float_zero_sign.
Qed.

#[export] Instance exact_signs : SignLaws Q.
Proof.
  split; cbn [f_zero f_neg f_ge f_eqb exact].
  - intros a b H. apply Qeq_bool_iff in H.
    destruct (Qle_bool 0 b) eqn:E1, (Qle_bool a 0) eqn:E2; try reflexivity; exfalso.
    + apply Qle_bool_iff in E1. rewrite H in E1.
      assert (E : ~ a <= 0) by (intros E; apply Qle_bool_iff in E; congruence).
      apply E. lra.
    + apply Qle_bool_iff in E2.
      assert (E : ~ 0 <= b) by (intros E; apply Qle_bool_iff in E; congruence).
      apply E. rewrite H. lra.
  - intros a b H. apply Qeq_bool_iff in H.
    destruct (Qle_bool b 0) eqn:E1, (Qle_bool 0 a) eqn:E2; try reflexivity; exfalso.
    + apply Qle_bool_iff in E1. rewrite H in E1.
      assert (E : ~ 0 <= a) by (intros E; apply Qle_bool_iff in E; congruence).
      apply E. lra.
    + apply Qle_bool_iff in E2.
      assert (E : ~ b <= 0) by (intros E; apply Qle_bool_iff in E; congruence).
      apply E. rewrite H. lra.
  - intros a b _ H. apply Qle_bool_iff.
    assert (E : ~ 0 <= a) by (intros E; apply Qle_bool_iff in E; congruence).
    lra.
  - intros a H. apply Qeq_bool_iff in H. apply Qle_bool_iff. rewrite H. lra.
Qed.

End ArithFacts.

(** ** [shapely/algorithms/cga.py] in every arithmetic *)

Module CgaFacts.
Import Cga CgaNotions Examples ArithFacts.

Section Arithmetic.

Context {F : Type} {A : Arith F}.

Lemma code_terms_tri (l : list (F * F)) (a b : F * F) :
  code_terms (a :: b :: l) = tri a b l.
Proof.
  revert a b. induction l as [|c l IH]; intros a b.
  - reflexivity.
  - cbn [tri]. rewrite <- IH. unfold code_terms, slice_1_m1, slice_2, slice_m2.
    cbn [map tl skipn length Nat.sub firstn fst snd].
    destruct l; reflexivity.
Qed.

Lemma term_cons (a : F * F) (s : list (F * F)) (i : nat) :
  term (a :: s) (S i) = term s i.
Proof. reflexivity. Qed.

Lemma tri_terms (l : list (F * F)) (a b : F * F) :
  tri a b l = map (term (a :: b :: l)) (seq 0 (length l)).
Proof.
  revert a b. induction l as [|c l IH]; intros a b; [reflexivity|].
  cbn [tri length seq map]. f_equal.
  rewrite IH, <- seq_shift, map_map. apply map_ext. intros i.
  symmetry. apply term_cons.
Qed.

Lemma length_xy (r : ring F) : length (xy r) = length r.
Proof. apply length_map. Qed.

Lemma nth_xy (r : ring F) (j : nat) :
  nth j (xy r) (f_zero, f_zero) = (cx (nth j r origin), cy (nth j r origin)).
Proof. unfold xy. apply (map_nth (fun c => (cx c, cy c)) r origin j). Qed.

Lemma nth_stacked_lt (c : list (F * F)) (j : nat) :
  (j < length c)%nat ->
  nth j (stacked c) (f_zero, f_zero) = nth j c (f_zero, f_zero).
Proof. intros H. unfold stacked. now rewrite app_nth1. Qed.

Lemma nth_stacked_len (c : list (F * F)) :
  nth (length c) (stacked c) (f_zero, f_zero) = nth 1 c (f_zero, f_zero).
Proof. unfold stacked. rewrite app_nth2, Nat.sub_diag by lia. reflexivity. Qed.

(** The array that [np.sum] receives, product by product. *)
Lemma signed_area_terms (r : ring F) :
  (2 <= length r)%nat ->
  signed_area r =
  Ok (f_div (np_sum (map (term (stacked (xy r))) (seq 0 (length r - 1)))) f_two).
Proof.
  intros Hlen. unfold signed_area. fold (xy r).
  destruct r as [|p [|q r]]; cbn [length] in Hlen; try lia.
  cbn [xy map nth_error]. do 3 f_equal.
  change (code_terms ((cx p, cy p) :: (cx q, cy q) :: (xy r ++ [(cx q, cy q)])) =
          map (term (stacked (xy (p :: q :: r)))) (seq 0 (length (p :: q :: r) - 1))).
  rewrite code_terms_tri, tri_terms.
  unfold stacked, xy. cbn [map nth app length Nat.sub].
  rewrite length_app, length_map. cbn [length].
  rewrite Nat.add_1_r. reflexivity.
Qed.

Lemma signed_area_short (r : ring F) :
  (length r < 2)%nat -> signed_area r = Raise IndexError.
Proof.
  destruct r as [|p [|q r]]; cbn [length]; intros H; try lia; reflexivity.
Qed.

(** The products of the code are those of the specification: the
    neighbour after the last vertex is the stacked [coords[1]]. *)
Lemma terms_shoelace (r : ring F) :
  (2 <= length r)%nat ->
  map (term (stacked (xy r))) (seq 0 (length r - 1)) =
  map (fun i => f_mul (cx (nth i r origin))
                      (f_sub (cy (nth (i mod (length r - 1) + 1) r origin))
                             (cy (nth (i - 1) r origin))))
      (seq 1 (length r - 1)).
Proof.
  intros Hlen. rewrite <- seq_shift, map_map. apply map_ext_in.
  intros i Hi. apply in_seq in Hi. unfold term.
  rewrite (nth_stacked_lt (xy r) (S i)) by (rewrite length_xy; lia).
  rewrite (nth_stacked_lt (xy r) i) by (rewrite length_xy; lia).
  rewrite !nth_xy. cbn [fst snd]. rewrite Nat.sub_succ, Nat.sub_0_r.
  do 2 f_equal.
  destruct (Nat.eq_dec (S i) (length r - 1)) as [E|E].
  - rewrite E, Nat.Div0.mod_same. cbn [Nat.add].
    replace (S (length r - 1)) with (length (xy r)) by (rewrite length_xy; lia).
    rewrite nth_stacked_len, nth_xy. reflexivity.
  - rewrite Nat.mod_small by lia. rewrite Nat.add_1_r.
    rewrite nth_stacked_lt by (rewrite length_xy; lia).
    rewrite nth_xy. reflexivity.
Qed.

Lemma same_xy_map (r r' : ring F) : same_xy r r' -> xy r = xy r'.
Proof.
  intros [Hx Hy]. revert r' Hx Hy.
  induction r as [|p r IH]; intros [|q r'] Hx Hy; try discriminate.
  - reflexivity.
  - cbn [map] in Hx, Hy. injection Hx as Hx1 Hx2. injection Hy as Hy1 Hy2.
    unfold xy in *. cbn [map]. rewrite Hx1, Hy1. f_equal. now apply IH.
Qed.


(** *** The reference winding check *)

Lemma fallback_scalar_short (g : Geometry F) :
  is_ring_or_line g = true -> (length (coords g) < 4)%nat ->
  _is_ccw_fallback_scalar (Some g) = Ok false.
Proof.
  intros Hg Hlen. apply Nat.ltb_lt in Hlen.
  destruct g; try discriminate; cbn in *; now rewrite Hlen.
Qed.

Lemma fallback_scalar_long (g : Geometry F) :
  is_ring_or_line g = true -> (4 <= length (coords g))%nat ->
  exists a, signed_area (coords g) = Ok a /\
            _is_ccw_fallback_scalar (Some g) = Ok (f_ge a f_zero).
Proof.
  intros Hg Hlen.
  assert (Ha : exists a, signed_area (coords g) = Ok a).
  { rewrite signed_area_terms by lia. eauto. }
  destruct Ha as (a & Ha). exists a. split; [exact Ha|].
  assert (Hlt : (length (coords g) <? 4)%nat = false) by (apply Nat.ltb_ge; exact Hlen).
  destruct g; try discriminate;
    cbn [_is_ccw_fallback_scalar geom_type in_strings existsb String.eqb Ascii.eqb
         Bool.eqb orb coords] in *;
    rewrite Hlt, Ha; reflexivity.
Qed.

Lemma fallback_scalar_other (g : Geometry F) :
  is_ring_or_line g = false -> _is_ccw_fallback_scalar (Some g) = Ok false.
Proof.
  destruct g as [| | | |t gs]; try discriminate; try reflexivity.
  destruct t; reflexivity.
Qed.

(** C4.  On a [LinearRing] or [LineString], the reference [is_ccw]
    returns [False] when there are fewer than 4 points, whatever the
    area, and [signed_area(ring) >= 0.0] otherwise; [None] gives [False]
    and so does any other geometry, without an exception. *)
Theorem is_ccw_fallback_reference :
  (forall g : Geometry F, is_ring_or_line g = true -> (length (coords g) < 4)%nat ->
     _is_ccw_fallback (ArgGeom g) [] = Ok (OutBool false)) /\
  (forall g : Geometry F, is_ring_or_line g = true -> (4 <= length (coords g))%nat ->
     exists a, signed_area (coords g) = Ok a /\
               _is_ccw_fallback (ArgGeom g) [] = Ok (OutBool (f_ge a f_zero))) /\
  _is_ccw_fallback (@ArgNone F) [] = Ok (OutBool false) /\
  (forall g : Geometry F, is_ring_or_line g = false ->
     _is_ccw_fallback (ArgGeom g) [] = Ok (OutBool false)).
Proof.
  repeat split.
  - intros g Hg Hlen. unfold _is_ccw_fallback. cbn [length Nat.eqb negb].
    now rewrite fallback_scalar_short.
  - intros g Hg Hlen.
    destruct (fallback_scalar_long g Hg Hlen) as (a & Ha & Hb).
    exists a. split; [exact Ha|].
    unfold _is_ccw_fallback. cbn [length Nat.eqb negb]. now rewrite Hb.
  - intros g Hg. unfold _is_ccw_fallback. cbn [length Nat.eqb negb].
    now rewrite fallback_scalar_other.
Qed.

Lemma fallback_scalar_total (g : option (Geometry F)) :
  _is_ccw_fallback_scalar g = Ok (fallback_flag g).
Proof.
  unfold fallback_flag. destruct g as [g|]; [|reflexivity].
  destruct (is_ring_or_line g) eqn:Hg.
  - destruct (le_lt_dec 4 (length (coords g))) as [H|H].
    + destruct (fallback_scalar_long g Hg H) as (a & _ & ->). reflexivity.
    + now rewrite fallback_scalar_short.
  - now rewrite fallback_scalar_other.
Qed.

Lemma map_result_total {X Y} (f : X -> result Y) (g : X -> Y) (l : list X) :
  (forall a, f a = Ok (g a)) -> map_result f l = Ok (map g l).
Proof.
  intros H. induction l as [|a l IH]; [reflexivity|].
  cbn [map_result map]. rewrite H, IH. reflexivity.
Qed.

End Arithmetic.

(** *** Orientation forcing *)

Section Orientation.

Context {F : Type} {A : Arith F} {S : EqbSym F}.

Lemma coord_eqb_sym (a b : coord F) :
  GeometryPolygon.coord_eqb f_eqb a b = GeometryPolygon.coord_eqb f_eqb b a.
Proof.
  unfold GeometryPolygon.coord_eqb, GeometryPolygon.option_eqb.
  rewrite (f_eqb_sym (cx a) (cx b)), (f_eqb_sym (cy a) (cy b)).
  destruct (cz a), (cz b); try reflexivity.
  now rewrite (f_eqb_sym f f0).
Qed.

Lemma is_closed_rev (r : ring F) : is_closed (rev r) = is_closed r.
Proof.
  destruct r as [|p t]; [reflexivity|].
  unfold is_closed, GeometryPolygon.is_closed.
  destruct (exists_last (l := p :: t)) as (r0 & q & E); [discriminate|].
  rewrite E at 2. rewrite last_last.
  assert (Hr : rev (p :: t) = q :: rev r0).
  { rewrite E, rev_app_distr. reflexivity. }
  rewrite Hr, <- Hr. cbn [rev]. rewrite last_last.
  apply coord_eqb_sym.
Qed.

Lemma numeric_rows_uniform (r : ring F) :
  uniform_arity r = true ->
  GeometryPolygon.numeric_rows (map (@GeometryPolygon.ITuple F) r) = Some r.
Proof.
  induction r as [|c t IH]; intros H; [reflexivity|].
  destruct t as [|d t]; [reflexivity|].
  cbn [uniform_arity] in H. apply andb_prop in H. destruct H as [Ha Ht].
  specialize (IH Ht).
  change (map (@GeometryPolygon.ITuple F) (c :: d :: t))
    with (GeometryPolygon.ITuple c :: map (@GeometryPolygon.ITuple F) (d :: t)).
  cbn [GeometryPolygon.numeric_rows] in *. rewrite IH, Ha. reflexivity.
Qed.

Lemma uniform_arity_all (r : ring F) :
  uniform_arity r = true <->
  (forall c d, In c r -> In d r -> GeometryPolygon.arity c = GeometryPolygon.arity d).
Proof.
  induction r as [|c t IH].
  - split; [intros _ c d []|reflexivity].
  - destruct t as [|d t].
    + split; [|reflexivity]. intros _ u v [<-|[]] [<-|[]]. reflexivity.
    + cbn [uniform_arity]. rewrite andb_true_iff, Nat.eqb_eq, IH. split.
      * intros [Hcd Ht] u v Hu Hv.
        assert (Hd : forall w, In w (c :: d :: t) ->
                       GeometryPolygon.arity w = GeometryPolygon.arity d).
        { intros w [<-|Hw]; [exact Hcd|]. apply Ht; [exact Hw|now left]. }
        now rewrite (Hd u), (Hd v).
      * intros H. split.
        -- apply H; [now left|right; now left].
        -- intros u v Hu Hv. apply H; right; assumption.
Qed.

Lemma uniform_arity_rev (r : ring F) :
  uniform_arity r = true -> uniform_arity (rev r) = true.
Proof.
  rewrite !uniform_arity_all. intros H c d Hc Hd.
  apply H; apply in_rev; assumption.
Qed.

Lemma close_ring_closed (r : ring F) :
  is_closed r = true -> GeometryPolygon.close_ring f_eqb r = r.
Proof.
  intros H. destruct r as [|c r]; [reflexivity|].
  unfold GeometryPolygon.close_ring. unfold is_closed in H. now rewrite H.
Qed.

Lemma map_result_coords_tuples (l : ring F) :
  map_result (@GeometryPolygon._coords F) (map (@GeometryPolygon.ITuple F) l) = Ok l.
Proof.
  induction l as [|c l IH]; [reflexivity|].
  cbn [map map_result GeometryPolygon._coords bind]. rewrite IH. reflexivity.
Qed.

Variable geos_version : nat * nat * nat.
Variable _is_ccw_geos_3_7 : option (Geometry F) -> bool.
Variable is_valid : Geometry F -> bool.
Variable iter_geometry : Geometry F -> result (list (GeometryPolygon.item F)).

Local Abbreviation is_ccw := (Cga.is_ccw geos_version _is_ccw_geos_3_7).
Local Abbreviation reverse_flags := (Cga.reverse_flags geos_version _is_ccw_geos_3_7).
Local Abbreviation force_ccw :=
  (Cga.force_ccw geos_version _is_ccw_geos_3_7 is_valid iter_geometry).
Local Abbreviation LinearRing_new :=
  (GeometryPolygon.LinearRing_new f_eqb (fun g : Geometry F => g)
     is_valid iter_geometry).
Local Abbreviation ccw_flag := (Cga.ccw_flag geos_version _is_ccw_geos_3_7).

Lemma is_ccw_rings (rs : list (ring F)) :
  is_ccw (ArgSeq (map Some (map (@LinearRing F) rs))) = Ok (OutArray (map ccw_flag rs)).
Proof.
  unfold Cga.is_ccw, Cga.ccw_flag.
  destruct (version_ge geos_version (3, 7, 0)%nat).
  - cbn [native_is_ccw]. now rewrite !map_map.
  - unfold _is_ccw_fallback. cbn [length Nat.eqb negb].
    rewrite (map_result_total _ fallback_flag) by apply fallback_scalar_total.
    cbn [bind]. now rewrite !map_map.
Qed.

Lemma reverse_flags_rings (r : ring F) (rs : list (ring F)) (ccw : bool) :
  reverse_flags (map (@LinearRing F) (r :: rs)) ccw =
  Ok (final_flags (map ccw_flag (r :: rs)) ccw).
Proof.
  unfold Cga.reverse_flags. rewrite is_ccw_rings. reflexivity.
Qed.

Lemma LinearRing_new_pick (r : ring F) (flag : bool) :
  is_closed r = true ->
  exists m, LinearRing_new (pick (LinearRing r) flag) = Ok m /\
            GeometryPolygon.value_of (fun g : Geometry F => g) m =
            LinearRing (keep_or_reverse r flag).
Proof.
  intros Hc. destruct flag; cbn [pick keep_or_reverse coords].
  - eexists. split; reflexivity.
  - cbn [GeometryPolygon.LinearRing_new]. rewrite map_result_coords_tuples.
    cbn [bind]. unfold GeometryPolygon.LinearRing_of_coords.
    destruct (rev r) as [|c l] eqn:E.
    + eexists. split; reflexivity.
    + cbn [length Nat.eqb]. unfold GeometryPolygon.linearrings.
      rewrite <- E, close_ring_closed by (rewrite is_closed_rev; exact Hc).
      eexists. split; reflexivity.
Qed.

Lemma holes_pick (rs : list (ring F)) (flags : list bool) :
  forallb is_closed rs = true ->
  exists ms, map_result LinearRing_new (map2 pick (map (@LinearRing F) rs) flags) = Ok ms /\
             map (GeometryPolygon.value_of (fun g : Geometry F => g)) ms =
             map (@LinearRing F) (map2 keep_or_reverse rs flags).
Proof.
  revert flags. induction rs as [|r rs IH]; intros flags H.
  - exists []. split; reflexivity.
  - cbn [forallb] in H. apply andb_prop in H. destruct H as [Hr Hrs].
    destruct flags as [|f flags].
    + exists []. split; reflexivity.
    + destruct (LinearRing_new_pick r f Hr) as (m & Hm & Vm).
      destruct (IH flags Hrs) as (ms & Hms & Vms).
      exists (m :: ms). split.
      * cbn [map map2 map_result]. rewrite Hm. cbn [bind].
        rewrite Hms. reflexivity.
      * cbn [map map2]. now rewrite Vm, Vms.
Qed.

Lemma ring_coords_map (rs : list (ring F)) :
  map (@GeometryPolygon.ring_coords F) (map (@LinearRing F) rs) = rs.
Proof. rewrite map_map. cbn [GeometryPolygon.ring_coords]. apply map_id. Qed.

Lemma force_ccw_polygon (exterior : ring F) (interiors : list (ring F)) (ccw : bool) :
  forallb is_closed (exterior :: interiors) = true ->
  uniform_arity exterior = true ->
  force_ccw (Polygon exterior interiors) ccw =
  Ok (polygon_of_rings
        (map2 keep_or_reverse (rings_of exterior interiors)
              (final_flags (map ccw_flag (rings_of exterior interiors)) ccw))).
Proof.
  intros Hc Hu. cbn [forallb] in Hc. apply andb_prop in Hc. destruct Hc as [He Hi].
  assert (Hi' : forallb is_closed (interiors_of exterior interiors) = true).
  { unfold interiors_of. destruct (is_empty (Polygon exterior interiors)); [reflexivity|exact Hi]. }
  unfold rings_of. cbn [Cga.force_ccw].
  change (LinearRing exterior :: map (@LinearRing F) (interiors_of exterior interiors))
    with (map (@LinearRing F) (exterior :: interiors_of exterior interiors)).
  rewrite reverse_flags_rings. cbn [bind].
  set (cs := map ccw_flag (interiors_of exterior interiors)).
  assert (Ef : exists f0 fs, final_flags (map ccw_flag (exterior :: interiors_of exterior interiors)) ccw = f0 :: fs).
  { unfold final_flags. cbn [map]. destruct ccw; cbn [map]; eauto. }
  destruct Ef as (f0 & fs & Ef). rewrite Ef.
  cbn [map map2 polygon_of_rings].
  destruct (holes_pick (interiors_of exterior interiors) fs Hi') as (ms & Hms & Vms).
  set (holes := map2 pick (map (@LinearRing F) (interiors_of exterior interiors)) fs) in *.
  assert (Hholes :
    (match Some holes with
     | None => Ok None
     | Some hs =>
         if (length hs =? 0)%nat then Ok None
         else rs <- map_result LinearRing_new hs ;;
              Ok (Some (map (GeometryPolygon.value_of (fun g : Geometry F => g)) rs))
     end) = Ok (if (length holes =? 0)%nat then None
                else Some (map (@LinearRing F)
                             (map2 keep_or_reverse (interiors_of exterior interiors) fs)))).
  { destruct (length holes =? 0)%nat; [reflexivity|].
    rewrite Hms. cbn [bind]. now rewrite Vms. }
  assert (Hint : forall e : ring F,
    GeometryPolygon.polygons (LinearRing e)
      (if (length holes =? 0)%nat then None
       else Some (map (@LinearRing F)
                    (map2 keep_or_reverse (interiors_of exterior interiors) fs))) =
    Polygon e (map2 keep_or_reverse (interiors_of exterior interiors) fs)).
  { intros e. unfold GeometryPolygon.polygons. cbn [GeometryPolygon.ring_coords].
    destruct (length holes =? 0)%nat eqn:El.
    - apply Nat.eqb_eq in El. f_equal.
      assert (Hm : length ms = length holes).
      { clear - Hms. revert ms Hms. induction holes as [|h hs IH]; intros ms H.
        - cbn in H. injection H as <-. reflexivity.
        - cbn [map_result] in H. destruct (LinearRing_new h); [|discriminate].
          cbn [bind] in H. destruct (map_result LinearRing_new hs); [|discriminate].
          cbn [bind] in H. injection H as <-. cbn [length]. f_equal. now apply IH. }
      apply (f_equal (@length _)) in Vms. rewrite !length_map in Vms.
      destruct (map2 keep_or_reverse (interiors_of exterior interiors) fs);
        [reflexivity | cbn [length] in Vms; lia].
    - now rewrite ring_coords_map. }
  unfold Cga.Polygon_new.
  destruct f0; cbn [pick keep_or_reverse coords].
  - cbn [GeometryPolygon.Polygon_new GeometryPolygon.is_Polygon
         GeometryPolygon.is_LinearRing negb].
    rewrite Hholes. cbn [bind GeometryPolygon.value_of].
    rewrite Hint. reflexivity.
  - cbn [GeometryPolygon.Polygon_new]. rewrite Hholes. cbn [bind].
    destruct (rev exterior) as [|c l] eqn:E.
    + cbn [map length Nat.eqb GeometryPolygon.value_of]. f_equal.
      assert (exterior = []) by (apply (f_equal (@rev _)) in E; rewrite rev_involutive in E; exact E).
      subst exterior. reflexivity.
    + rewrite <- E.
      assert (El : (length (map (@GeometryPolygon.ITuple F) (rev exterior)) =? 0)%nat = false).
      { rewrite E. reflexivity. }
      rewrite El.
      assert (Hur : uniform_arity (rev exterior) = true) by (apply uniform_arity_rev; exact Hu).
      rewrite (numeric_rows_uniform _ Hur). rewrite E, <- E.
      unfold GeometryPolygon.linearrings.
      rewrite close_ring_closed by (rewrite is_closed_rev; exact He).
      rewrite Hint. reflexivity.
Qed.

(** C2, as amended.  [force_ccw] computes the [is_ccw] flag of each
    ring in the order [exterior, interior_1, ..., interior_k], inverts
    the flag of the exterior, then, if [ccw], inverts every flag once
    more; the rings whose resulting flag is false are the ones whose
    coordinate sequence is reversed, the rings whose flag is true are
    kept as they are. *)
Theorem force_ccw_reverses_unflagged (exterior : ring F) (interiors : list (ring F))
    (ccw : bool) :
  forallb is_closed (exterior :: interiors) = true ->
  uniform_arity exterior = true ->
  let rings := rings_of exterior interiors in
  let flags := final_flags (map ccw_flag rings) ccw in
  reverse_flags (map (@LinearRing F) rings) ccw = Ok flags /\
  force_ccw (Polygon exterior interiors) ccw =
  Ok (polygon_of_rings (map2 keep_or_reverse rings flags)).
Proof.
  intros Hc Hu rings flags. split.
  - apply reverse_flags_rings.
  - now apply force_ccw_polygon.
Qed.

End Orientation.


Lemma is_ccw_fallback_reference_witness :
  _is_ccw_fallback (ArgGeom (LinearRing [fpt 0 0; fpt 1 0; fpt 0 0])) []
  = Ok (OutBool false) /\
  (exists a, signed_area (coords (LineString fsquare)) = Ok a /\
             _is_ccw_fallback (ArgGeom (LineString fsquare)) []
             = Ok (OutBool (f_ge a f_zero))) /\
  _is_ccw_fallback (ArgGeom (Polygon fsquare [])) [] = Ok (OutBool false).
Proof.
  destruct (@is_ccw_fallback_reference float binary64) as (Hshort & Hlong & _ & Hother).
  split; [|split].
  - apply Hshort; [reflexivity | cbn; lia].
  - apply Hlong; [reflexivity | cbn; lia].
  - apply Hother. reflexivity.
Defined.

Lemma force_ccw_reverses_unflagged_witness :
  let rings := rings_of fsquare [fhole] in
  let flags := final_flags (map (ccw_flag geos_3_11 fallback_flag) rings) true in
  reverse_flags geos_3_11 fallback_flag (map (@LinearRing float) rings) true = Ok flags /\
  force_ccw geos_3_11 fallback_flag always_valid not_iterable
            (Polygon fsquare [fhole]) true =
  Ok (polygon_of_rings (map2 keep_or_reverse rings flags)).
Proof.
  apply (force_ccw_reverses_unflagged geos_3_11 fallback_flag always_valid
           not_iterable fsquare [fhole] true); reflexivity.
Defined.

(** C2, as stated, fails on the clockwise square with [ccw=True]: the
    flag of the exterior is false and yet the exterior is reversed. *)
Lemma force_ccw_flagged_reversal_counterexample :
  let flags := final_flags (map (ccw_flag geos_3_11 fallback_flag)
                                (rings_of fsquare [])) true in
  flags = [false] /\
  force_ccw geos_3_11 fallback_flag always_valid not_iterable
            (Polygon fsquare []) true = Ok (Polygon (rev fsquare) []) /\
  force_ccw geos_3_11 fallback_flag always_valid not_iterable
            (Polygon fsquare []) true <>
  Ok (polygon_of_rings (map2 reverse_if_flagged (rings_of fsquare []) flags)).
Proof.
  cbv zeta. split; [reflexivity|]. split; [reflexivity|].
  vm_compute. discriminate.
Qed.

End CgaFacts.
(** ** [shapely/algorithms/cga.py] in exact arithmetic, and where float64
       departs from it *)

Module ExactFacts.
Import Cga CgaNotions CgaFacts Examples ArithFacts.

Ltac exact_arith :=
  cbn [f_zero f_two f_add f_sub f_mul f_div f_neg f_ge f_eqb np_sum exact] in *.

Lemma fold_left_Qplus_acc (l : list Q) (a : Q) :
  fold_left Qplus l a == a + fold_left Qplus l 0.
Proof.
  revert a. induction l as [|q l IH]; intros a; simpl.
  - ring.
  - rewrite (IH (a + q)), (IH (0 + q)). ring.
Qed.

Lemma sum_upto_ext (k : nat) (f g : nat -> Q) :
  (forall i, (i < k)%nat -> f i == g i) -> sum_upto k f == sum_upto k g.
Proof.
  induction k as [|k IH]; intros H; simpl.
  - reflexivity.
  - rewrite IH, (H k) by (intros; try apply H; lia). reflexivity.
Qed.

Lemma sum_upto_shift (k : nat) (f : nat -> Q) :
  sum_upto (S k) f == f O + sum_upto k (fun i => f (S i)).
Proof.
  induction k as [|k IH].
  - simpl. ring.
  - change (sum_upto (S (S k)) f) with (sum_upto (S k) f + f (S k)).
    rewrite IH. simpl. ring.
Qed.

Lemma sum_upto_opp (k : nat) (f : nat -> Q) :
  sum_upto k (fun i => - f i) == - sum_upto k f.
Proof.
  induction k as [|k IH]; simpl.
  - ring.
  - rewrite IH. ring.
Qed.

Lemma sum_upto_rev (k : nat) (f : nat -> Q) :
  sum_upto k (fun i => f (k - 1 - i)%nat) == sum_upto k f.
Proof.
  revert f. induction k as [|k IH]; intros f.
  - reflexivity.
  - rewrite sum_upto_shift.
    change (sum_upto (S k) f) with (sum_upto k f + f k).
    rewrite <- (IH f).
    replace (S k - 1 - 0)%nat with k by lia.
    rewrite Qplus_comm. apply Qplus_inj_r.
    apply sum_upto_ext. intros i Hi.
    replace (S k - 1 - S i)%nat with (k - 1 - i)%nat by lia. reflexivity.
Qed.

(** In exact arithmetic the order of the additions does not matter:
    [np.sum] of the products is their sum. *)
Lemma Qsum_map_seq (k : nat) (f : nat -> Q) :
  Qsum (map f (seq 0 k)) == sum_upto k f.
Proof.
  induction k as [|k IH]; [reflexivity|].
  rewrite seq_S, map_app. cbn [map Nat.add sum_upto].
  unfold Qsum in *. rewrite fold_left_app. cbn [fold_left]. now rewrite IH.
Qed.

Lemma signed_area_index (r : ring Q) :
  (2 <= length r)%nat ->
  exists a, signed_area r = Ok a /\
            a == sum_upto (length r - 1) (term (stacked (xy r))) / 2.
Proof.
  intros Hlen. rewrite (signed_area_terms r Hlen). eexists. split; [reflexivity|].
  exact_arith. now rewrite Qsum_map_seq.
Qed.

(** Reversal negates the sum of the code, as soon as the first and the
    last point have the same abscissa. *)
Lemma sum_term_rev (c : list (Q * Q)) :
  (2 <= length c)%nat ->
  fst (nth (length c - 1) c (f_zero, f_zero)) == fst (nth 0 c (f_zero, f_zero)) ->
  sum_upto (length c - 1) (term (stacked (rev c))) ==
  - sum_upto (length c - 1) (term (stacked c)).
Proof.
  intros Hlen Hx.
  remember (length c) as n eqn:En.
  assert (Hrev : forall j, (j < n)%nat ->
             nth j (stacked (rev c)) (f_zero, f_zero) = nth (n - S j) c (f_zero, f_zero)).
  { intros j Hj. rewrite nth_stacked_lt by (rewrite length_rev; lia).
    rewrite En. apply rev_nth. lia. }
  assert (Hlast : nth n (stacked (rev c)) (f_zero, f_zero) = nth (n - 2) c (f_zero, f_zero)).
  { rewrite En. rewrite <- (length_rev c) at 1.
    rewrite nth_stacked_len. apply rev_nth. lia. }
  assert (Hlt : forall j, (j < n)%nat ->
             nth j (stacked c) (f_zero, f_zero) = nth j c (f_zero, f_zero)).
  { intros j Hj. apply nth_stacked_lt. lia. }
  assert (Hlen' : nth n (stacked c) (f_zero, f_zero) = nth 1 c (f_zero, f_zero)).
  { rewrite En. apply nth_stacked_len. }
  clear En.
  destruct n as [|[|k]]; try lia.
  replace (S (S k) - 1)%nat with (S k) in * by lia.
  cbn [sum_upto].
  rewrite <- (sum_upto_rev k (term (stacked c))).
  rewrite <- (Qopp_involutive (sum_upto k (term (stacked (rev c))) + _)).
  apply Qopp_comp.
  rewrite Qopp_plus, <- sum_upto_opp.
  apply Qplus_comp.
  - apply sum_upto_ext. intros i Hi. unfold term.
    rewrite !Hrev, !Hlt by lia.
    replace (S (S k) - S (S i))%nat with (S (k - 1 - i)) by lia.
    replace (S (S k) - S (S (S i)))%nat with (k - 1 - i)%nat by lia.
    replace (S (S k) - S i)%nat with (S (S (k - 1 - i))) by lia.
    exact_arith. ring.
  - unfold term. rewrite Hlast, Hlen', !Hrev, !Hlt by lia.
    replace (S (S k) - S (S k))%nat with 0%nat by lia.
    replace (S (S k) - 2)%nat with k by lia.
    replace (S (S k) - S k)%nat with 1%nat by lia.
    exact_arith. rewrite Hx. ring.
Qed.

Lemma nth_last_default {X} (l : list X) (d e : X) :
  l <> [] -> nth (length l - 1) l d = last l e.
Proof.
  induction l as [|a l IH]; intros H; [congruence|].
  destruct l as [|b l]; [reflexivity|].
  change (nth (length (b :: l)) (a :: b :: l) d = last (b :: l) e).
  rewrite <- IH by discriminate. cbn [length nth Nat.sub]. rewrite ?Nat.sub_0_r. reflexivity.
Qed.

Lemma closed_ends (r : ring Q) :
  is_closed r = true -> (1 <= length r)%nat ->
  cx (nth (length r - 1) r origin) == cx (nth 0 r origin) /\
  cy (nth (length r - 1) r origin) == cy (nth 0 r origin).
Proof.
  intros Hc Hlen. destruct r as [|p r]; [simpl in Hlen; lia|].
  unfold is_closed, GeometryPolygon.is_closed, GeometryPolygon.coord_eqb in Hc.
  rewrite (nth_last_default (p :: r) origin p) by discriminate.
  apply andb_prop in Hc. destruct Hc as [Hc _].
  apply andb_prop in Hc. destruct Hc as [Hx Hy].
  exact_arith.
  apply Qeq_bool_iff in Hx. apply Qeq_bool_iff in Hy.
  cbn [nth]. split; symmetry; assumption.
Qed.

Lemma signed_area_rev_ok (r : ring Q) :
  is_closed r = true -> (2 <= length r)%nat ->
  exists a b, signed_area r = Ok a /\ signed_area (rev r) = Ok b /\ b == - a.
Proof.
  intros Hc Hlen.
  destruct (signed_area_index r Hlen) as (a & Ha & Ea).
  assert (Hlen' : (2 <= length (rev r))%nat) by (rewrite length_rev; exact Hlen).
  destruct (signed_area_index (rev r) Hlen') as (b & Hb & Eb).
  exists a, b. split; [exact Ha|]. split; [exact Hb|].
  rewrite Eb, Ea, length_rev.
  unfold xy at 1. rewrite map_rev. fold (xy r).
  rewrite <- (length_xy r).
  rewrite sum_term_rev.
  - unfold Qdiv. ring.
  - rewrite length_xy. exact Hlen.
  - rewrite !nth_xy, length_xy. cbn [fst].
    apply closed_ends; [exact Hc | lia].
Qed.




(** *** Rings of fewer than four points *)

Lemma short_closed_area (r : ring Q) :
  is_closed r = true -> (2 <= length r < 4)%nat ->
  exists a, signed_area r = Ok a /\ a == 0.
Proof.
  intros Hc Hlen.
  destruct (closed_ends r Hc) as [_ Hy]; [lia|].
  destruct r as [|p [|q [|s [|t r]]]]; cbn [length] in Hlen; try lia.
  - eexists. split; [reflexivity|]. cbn in Hy |- *.
    unfold Qsum. cbn. rewrite Hy. field.
  - eexists. split; [reflexivity|]. cbn in Hy |- *.
    unfold Qsum. cbn. rewrite Hy. field.
Qed.

(** In exact arithmetic every closed ring of at least two points
    satisfies the reversal identity. *)
Lemma exact_reversal_negates (r : ring Q) :
  proper_ring r = true -> reversal_negates r.
Proof.
  unfold proper_ring. intros H. apply andb_prop in H. destruct H as [Hc Hlen].
  apply Nat.leb_le in Hlen.
  destruct (signed_area_rev_ok r Hc Hlen) as (a & b & Ha & Hb & E).
  exists a, b. split; [exact Ha|]. split; [exact Hb|].
  split; [apply Qeq_bool_iff; exact E|].
  intros Hs. destruct (short_closed_area r Hc) as (a' & Ha' & E'); [lia|].
  rewrite Ha in Ha'. injection Ha' as <-. apply Qeq_bool_iff. exact E'.
Qed.

End ExactFacts.

(** ** The polarity of [force_ccw] *)

Module PolarityFacts.
Import ArithFacts Cga CgaFacts CgaNotions Examples.

Section Polarity.

Context {F : Type} {A : Arith F} {S : EqbSym F} {L : SignLaws F}.

Lemma fallback_flag_long (r : ring F) :
  (4 <= length r)%nat ->
  exists a, signed_area r = Ok a /\
            fallback_flag (Some (LinearRing r)) = f_ge a f_zero.
Proof.
  intros Hl. unfold fallback_flag.
  destruct (fallback_scalar_long (LinearRing r) eq_refl Hl) as (a & Ha & Hb).
  exists a. split; [exact Ha|]. now rewrite Hb.
Qed.

Lemma fallback_flag_short (r : ring F) :
  (length r < 4)%nat -> fallback_flag (Some (LinearRing r)) = false.
Proof.
  intros Hl. unfold fallback_flag.
  now rewrite (fallback_scalar_short (LinearRing r) eq_refl Hl).
Qed.

(** The reference check and the signs of the areas of a ring and of its
    reverse. *)
Lemma kept_sign (r : ring F) (nonneg : bool) :
  reversal_negates r ->
  let flag := fallback_flag (Some (LinearRing r)) in
  has_sign nonneg (keep_or_reverse r (if nonneg then flag else negb flag)).
Proof.
  intros (a & b & Ha & Hb & E & Hshort). cbv zeta.
  assert (Hflag : fallback_flag (Some (LinearRing r)) = true -> f_ge a f_zero = true).
  { intros Hf. destruct (le_lt_dec 4 (length r)) as [Hl|Hl].
    - destruct (fallback_flag_long r Hl) as (a' & Ha' & Hf').
      rewrite Ha in Ha'. injection Ha' as <-. congruence.
    - rewrite (fallback_flag_short r Hl) in Hf. discriminate. }
  assert (Hno : fallback_flag (Some (LinearRing r)) = false -> f_ge f_zero a = true).
  { intros Hf. destruct (le_lt_dec 4 (length r)) as [Hl|Hl].
    - destruct (fallback_flag_long r Hl) as (a' & Ha' & Hf').
      rewrite Ha in Ha'. injection Ha' as <-.
      apply (comparable a b E). congruence.
    - apply zero_sign. now apply Hshort. }
  destruct (fallback_flag (Some (LinearRing r))) eqn:Ef;
    destruct nonneg; cbn [negb keep_or_reverse].
  - exists a. split; [exact Ha|]. now apply Hflag.
  - exists b. split; [exact Hb|]. rewrite (opposite_le a b E). now apply Hflag.
  - exists b. split; [exact Hb|]. rewrite (opposite_ge a b E). now apply Hno.
  - exists a. split; [exact Ha|]. now apply Hno.
Qed.

Variable geos_version : nat * nat * nat.
Variable _is_ccw_geos_3_7 : option (Geometry F) -> bool.
Variable is_valid : Geometry F -> bool.
Variable iter_geometry : Geometry F -> result (list (GeometryPolygon.item F)).

Local Abbreviation force_ccw :=
  (Cga.force_ccw geos_version _is_ccw_geos_3_7 is_valid iter_geometry).
Local Abbreviation ccw_flag := (Cga.ccw_flag geos_version _is_ccw_geos_3_7).
Local Abbreviation answers_as_reference :=
  (Cga.answers_as_reference geos_version _is_ccw_geos_3_7).

Lemma holes_sign (rs : list (ring F)) (nonneg : bool) :
  Forall reversal_negates rs ->
  Forall answers_as_reference rs ->
  let flags := map (fun r => if nonneg then ccw_flag r else negb (ccw_flag r)) rs in
  length (map2 keep_or_reverse rs flags) = length rs /\
  Forall (has_sign nonneg) (map2 keep_or_reverse rs flags).
Proof.
  intros Hn Ha. induction Hn as [|r rs Hr _ IH]; cbn [map map2 length].
  - split; [reflexivity|constructor].
  - inversion Ha as [|x l Har Has]; subst.
    destruct (IH Has) as [Hl Hf]. split; [now f_equal|].
    constructor; [|exact Hf].
    unfold Cga.answers_as_reference in Har. rewrite Har. now apply kept_sign.
Qed.

Lemma negated_nonempty (r : ring F) (holes : list (ring F)) :
  reversal_negates r -> is_empty (Polygon r holes) = false.
Proof.
  intros (a & b & Ha & _). cbn [is_empty]. apply Nat.eqb_neq. intros E.
  rewrite signed_area_short in Ha by lia. discriminate.
Qed.


End Polarity.



End PolarityFacts.
Module GeometryFacts.

(** Induction on a geometry, with the property at hand for every child
    of a collection. *)
Lemma Geometry_nested_ind {F : Type} (P : Geometry F -> Prop) :
  (forall cs, P (Point cs)) ->
  (forall cs, P (LineString cs)) ->
  (forall cs, P (LinearRing cs)) ->
  (forall e holes, P (Polygon e holes)) ->
  (forall t geoms, Forall P geoms -> P (Multi t geoms)) ->
  forall g, P g.
Proof.
  intros HP HL HR HPo HM.
  fix IH 1. intros [cs|cs|cs|e holes|t geoms].
  - apply HP.
  - apply HL.
  - apply HR.
  - apply HPo.
  - apply HM.
    revert geoms. fix IHl 1. intros [|g geoms].
    + constructor.
    + constructor; [apply IH|apply IHl].
Qed.

End GeometryFacts.

Module GeometryPolygonFacts.
Import GeometryPolygon Examples.

(** C9.  [LinearRing(x)] returns [x] itself when [x] is a [LinearRing],
    and [Polygon(x, holes)] returns [x] itself when [x] is a [Polygon],
    whatever the holes. *)
Theorem constructors_return_their_argument
    (F : Type) (F_eqb : F -> F -> bool) (Obj : Type) (geom_of : Obj -> Geometry F)
    (is_valid : Obj -> bool) (iter_geometry : Obj -> result (list (item F))) :
  (forall o, is_LinearRing (geom_of o) = true ->
     LinearRing_new F_eqb geom_of is_valid iter_geometry (PyGeom o) = Ok (Existing o)) /\
  (forall o holes, is_Polygon (geom_of o) = true ->
     Polygon_new F_eqb geom_of is_valid iter_geometry (PyGeom o) holes
     = Ok (Existing o)).
Proof.
  split.
  - intros o H. cbn [LinearRing_new]. rewrite H.
    destruct (geom_of o); try discriminate. reflexivity.
  - intros o holes H. cbn [Polygon_new]. rewrite H. reflexivity.
Qed.

Lemma constructors_return_their_argument_witness :
  LinearRing_new Qeq_bool snd (fun _ => true) (fun _ => Raise TypeError)
                 (PyGeom a_ring) = Ok (Existing a_ring) /\
  Polygon_new Qeq_bool snd (fun _ => true) (fun _ => Raise TypeError)
              (PyGeom a_polygon) (Some [PyGeom a_ring]) = Ok (Existing a_polygon).
Proof.
  split.
  - apply (proj1 (constructors_return_their_argument Q Qeq_bool object snd
                    (fun _ => true) (fun _ => Raise TypeError))). reflexivity.
  - apply (proj2 (constructors_return_their_argument Q Qeq_bool object snd
                    (fun _ => true) (fun _ => Raise TypeError))). reflexivity.
Defined.

End GeometryPolygonFacts.

Module CoordinatesFacts.
Import Coordinates CoordinatesNotions Examples CoordinateExamples GeometryFacts.

Section Facts.

Variable F : Type.
Variable nan : F.
Variable F_eqb : F -> F -> bool.
Variable get_coordinate_dimension : option (Geometry F) -> Z.
Variable construct : Geometry F -> pyobj F -> result (Geometry F).
Variable construct_polygon : Geometry F -> list (Geometry F) -> result (Geometry F).
Variable construct_multi : multi_type -> list (option (Geometry F)) -> result (Geometry F).

Local Abbreviation transform :=
  (@Coordinates.transform F nan F_eqb get_coordinate_dimension construct
     construct_polygon construct_multi).
Local Abbreviation _transform2 :=
  (@Coordinates._transform2 F nan construct construct_polygon construct_multi).
Local Abbreviation _transform2_multi_vec :=
  (@Coordinates._transform2_multi_vec F nan construct construct_polygon
     construct_multi).
Local Abbreviation is_3d := (@Coordinates.is_3d F get_coordinate_dimension).
Local Abbreviation resolve_include_z :=
  (@Coordinates.resolve_include_z F get_coordinate_dimension).
Local Abbreviation _transform := (@Coordinates._transform F nan F_eqb).
Local Abbreviation _transform_multi_vec := (@Coordinates._transform_multi_vec F nan F_eqb).
Local Abbreviation coordinates_of := (@Coordinates.coordinates_of F nan).
Local Abbreviation per_element :=
  (@Coordinates.per_element F get_coordinate_dimension).
Local Abbreviation rebuild_wrapper :=
  (@Coordinates.rebuild_wrapper F nan construct construct_polygon construct_multi).
Local Abbreviation preserve_wrapper := (@Coordinates.preserve_wrapper F nan F_eqb).
Local Abbreviation preserve_batch := (@Coordinates.preserve_batch F nan F_eqb).

(** *** Structure-preserving mode: the retry *)

Lemma check_result_raises (coordinates : ndarray F) (v : pyobj F) :
  raises (check_result coordinates v) -> check_result coordinates v = Raise ValueError.
Proof.
  unfold check_result. destruct v as [x|a|l|]; try reflexivity.
  destruct (negb (dtype_eqb (dt a) Float64)); [reflexivity|].
  destruct (negb (shape_eqb (shape a) (shape coordinates))); [reflexivity|].
  intros [].
Qed.

Lemma transform_multi_vec_retries (geometry : geom_arg F) (f : mapping F)
    (include_z : bool) (log log1 : calls F) (v : pyobj F) :
  whole_axes nan f (coordinates_of geometry include_z) log = (Ok v, log1) ->
  raises (check_result (coordinates_of geometry include_z) v) ->
  _transform_multi_vec geometry f include_z log =
  _transform geometry (per_coordinate f) include_z log1.
Proof.
  intros Hcall Hcheck. apply check_result_raises in Hcheck.
  unfold Coordinates._transform_multi_vec, try_except.
  unfold Coordinates._transform at 1. unfold mbind at 1.
  fold (Coordinates.coordinates_of nan geometry include_z). rewrite Hcall.
  unfold mbind at 1. unfold lift at 1. rewrite Hcheck. reflexivity.
Qed.

(** C5, as amended.  In [transform] with [single_vec=False] and
    [rebuild=False], when the whole-array invocation of the mapping
    succeeds but the check of its result fails, the failure is caught
    like a failure of the invocation itself: the per-coordinate retry
    runs, and its outcome (result or error) is what the caller gets. *)
Theorem validation_failure_is_retried (geometry : geom_arg F) (f : mapping F)
    (include_z : include_z_arg) (b : bool) (log log1 : calls F) (v : pyobj F) :
  resolve_include_z geometry include_z = ZScalar b ->
  whole_axes nan f (coordinates_of geometry b) log = (Ok v, log1) ->
  raises (check_result (coordinates_of geometry b) v) ->
  transform geometry f include_z false false log =
  _transform geometry (per_coordinate f) b log1.
Proof.
  intros Hz Hcall Hcheck. unfold Coordinates.transform, transform_resolved.
  rewrite Hz. now apply transform_multi_vec_retries with (v := v).
Qed.

(** *** The resolution of [include_z] *)

Lemma mapM_combine {B} (w : option (Geometry F) -> bool -> M F B)
    (h : option (Geometry F) -> bool) (l : list (option (Geometry F))) (log : calls F) :
  mapM (fun gb => w (fst gb) (snd gb)) (combine l (map h l)) log =
  mapM (fun g => w g (h g)) l log.
Proof.
  revert log. induction l as [|a l IH]; intros log; [reflexivity|].
  cbn [map combine mapM fst snd]. unfold mbind.
  destruct (w a (h a) log) as [[b|e] log']; [|reflexivity].
  rewrite IH. reflexivity.
Qed.

Lemma frompyfunc_per_element (wrapper : element_wrapper F)
    (l : list (option (Geometry F))) (log : calls F) :
  frompyfunc wrapper (GList l) (ZArray (map is_3d l)) log = per_element wrapper l log.
Proof.
  unfold frompyfunc, Coordinates.per_element. rewrite length_map, Nat.eqb_refl.
  unfold mbind. rewrite mapM_combine. reflexivity.
Qed.

(** C6, as amended.  With [include_z=-1] the decision is resolved once
    per call, before any traversal, but element by element: the flag of
    an element is true when that element is three-dimensional.  In
    rebuild mode every element is transformed on its own with its own
    flag; in structure-preserving mode a batch whose flags all agree is
    transformed in one pass with the common flag, and otherwise every
    element is transformed on its own with its own flag. *)
Theorem include_z_resolved_per_element (l : list (option (Geometry F)))
    (f : mapping F) (single_vec : bool) (log : calls F) :
  resolve_include_z (GList l) IncludeIf3D = ZArray (map is_3d l) /\
  transform (GList l) f IncludeIf3D single_vec true log =
    per_element (rebuild_wrapper f single_vec) l log /\
  (forall g l',
     transform (GList (g :: l')) f IncludeIf3D single_vec false log =
       if forallb (Bool.eqb (is_3d g)) (map is_3d (g :: l'))
       then preserve_batch (GList (g :: l')) f single_vec (is_3d g) log
       else per_element (preserve_wrapper f single_vec) (g :: l') log).
Proof.
  split; [reflexivity|]. split.
  - unfold Coordinates.transform, transform_resolved. cbn [resolve_include_z].
    rewrite frompyfunc_per_element. unfold Coordinates.rebuild_wrapper.
    destruct single_vec; reflexivity.
  - intros g l'. unfold Coordinates.transform, transform_resolved.
    cbn [resolve_include_z]. cbn [map all_equal_first]. unfold mbind, lift.
    change (is_3d g :: map is_3d l') with (map is_3d (g :: l')).
    destruct (forallb (Bool.eqb (is_3d g)) (map is_3d (g :: l'))).
    + unfold Coordinates.preserve_batch. destruct single_vec; reflexivity.
    + rewrite frompyfunc_per_element. unfold Coordinates.preserve_wrapper.
      destruct single_vec; reflexivity.
Qed.

(** *** Rebuild mode on an empty geometry *)

Lemma transform2_empty (g : Geometry F) (f : mapping F) (b : bool) (log : calls F) :
  is_empty g = true -> _transform2 g f b log = (Ok (Some g), log).
Proof. intros H. destruct g; cbn [Coordinates._transform2]; rewrite H; reflexivity. Qed.

Lemma transform2_multi_vec_empty (g : Geometry F) (f : mapping F) (b : bool)
    (log : calls F) :
  is_empty g = true -> _transform2_multi_vec g f b log = (Ok (Some g), log).
Proof.
  intros H. destruct g; cbn [Coordinates._transform2_multi_vec]; rewrite H; reflexivity.
Qed.

(** C10.  In rebuild mode, [transform] returns an empty geometry as it
    is, for every mapping and in both calling modes, and the mapping is
    never invoked: the record of its calls is unchanged. *)
Theorem transform_rebuild_empty (g : Geometry F) (f : mapping F)
    (include_z : include_z_arg) (single_vec : bool) (log : calls F) :
  is_empty g = true ->
  transform (GScalar (Some g)) f include_z single_vec true log =
  (Ok (OutItem (Some g)), log) /\
  (forall b, _transform2 g f b log = (Ok (Some g), log)) /\
  (forall b, _transform2_multi_vec g f b log = (Ok (Some g), log)).
Proof.
  intros H. split; [|split; intros b; [now apply transform2_empty
                                      |now apply transform2_multi_vec_empty]].
  unfold Coordinates.transform, transform_resolved.
  assert (Hz : exists b, resolve_include_z (GScalar (Some g)) include_z = ZScalar b).
  { destruct include_z; cbn; eauto. }
  destruct Hz as (b & ->).
  destruct single_vec; unfold mbind;
    cbn [_transform2_element _transform2_multi_vec_element].
  - rewrite transform2_empty by exact H. reflexivity.
  - rewrite transform2_multi_vec_empty by exact H. reflexivity.
Qed.

End Facts.

Section Scatter.

Variable F : Type.
Variable F_eqb : F -> F -> bool.

Local Abbreviation right_shape := (@CoordinatesNotions.right_shape F).

(** *** [set_coordinates] *)

Lemma check_ring_raises (cs : list (coord F)) (e : exn) :
  check_ring F_eqb cs = Raise e -> e = GEOSException.
Proof. unfold check_ring. destruct (GeometryPolygon.is_closed F_eqb cs); congruence. Qed.

Lemma map_check_ring_raises (l : list (list (coord F))) (e : exn) :
  map_result (check_ring F_eqb) l = Raise e -> e = GEOSException.
Proof.
  induction l as [|cs l IH]; cbn [map_result]; [discriminate|].
  destruct (check_ring F_eqb cs) eqn:E; cbn [bind].
  - destruct (map_result (check_ring F_eqb) l); cbn [bind]; [discriminate|].
    intros [= <-]. now apply IH.
  - intros [= <-]. now apply check_ring_raises in E.
Qed.

(** The engine refuses a geometry with an exception of its own only. *)
Lemma write_geom_raises (g : Geometry F) (rows : list (list F)) (e : exn) :
  write_geom F_eqb g rows = Raise e -> e = GEOSException.
Proof.
  revert rows.
  induction g as [cs|cs|cs|ext holes|t geoms IH] using Geometry_nested_ind;
    intros rows; cbn [write_geom].
  - destruct (write_coords cs rows). discriminate.
  - destruct (write_coords cs rows). discriminate.
  - destruct (write_coords cs rows) as [cs' rest].
    destruct (check_ring F_eqb cs') eqn:E; cbn [bind]; [discriminate|].
    intros [= <-]. now apply check_ring_raises in E.
  - destruct (write_coords ext rows) as [e' rest].
    destruct (write_rings holes rest) as [holes' rest'].
    destruct (check_ring F_eqb e') eqn:E; cbn [bind].
    + destruct (map_result (check_ring F_eqb) holes') eqn:E'; cbn [bind]; [discriminate|].
      intros [= <-]. now apply map_check_ring_raises in E'.
    + intros [= <-]. now apply check_ring_raises in E.
  - match goal with
    | |- bind (?w geoms rows) _ = _ -> _ =>
        assert (H : forall rows, w geoms rows = Raise e -> e = GEOSException)
    end.
    { induction IH as [|g geoms Hg _ IHl]; intros rows'; [discriminate|].
      cbn beta iota. destruct (write_geom F_eqb g rows') as [w|e0] eqn:E; cbn [bind].
      - match goal with
        | |- bind ?x _ = _ -> _ => destruct x eqn:E'; cbn [bind]
        end; [discriminate|].
        intros [= <-]. now apply IHl in E'.
      - intros [= <-]. now apply Hg in E. }
    match goal with
    | |- bind ?x _ = _ -> _ => destruct x eqn:E; cbn [bind]
    end; [discriminate|].
    intros [= <-]. now apply H in E.
Qed.

Lemma write_items_raises (l : list (option (Geometry F))) (rows : list (list F))
    (e : exn) :
  snd (write_items F_eqb l rows) = Some e -> e = GEOSException.
Proof.
  revert rows. induction l as [|[g|] l IH]; intros rows; cbn [write_items].
  - discriminate.
  - destruct (write_geom F_eqb g rows) as [[g' rest]|e0] eqn:E.
    + specialize (IH rest). destruct (write_items F_eqb l rest). exact IH.
    + cbn [snd]. intros [= <-]. now apply write_geom_raises in E.
  - specialize (IH rows). destruct (write_items F_eqb l rows). exact IH.
Qed.

Lemma lib_set_coordinates_raises (l : list (option (Geometry F))) (a : ndarray F)
    (e : exn) :
  snd (lib_set_coordinates F_eqb l a) = Some e -> e = GEOSException.
Proof.
  unfold lib_set_coordinates.
  destruct (shape a) as [|n [|m [|k s]]]; try discriminate.
  apply write_items_raises.
Qed.


End Scatter.

Lemma validation_failure_is_retried_witness :
  Examples.transform (GScalar (Some (point2 0 0))) constant_mapping IncludeNever
                     false false [] =
  _transform NaN float64_eqb (GScalar (Some (point2 0 0))) (per_coordinate constant_mapping) false
    [[PArray (NdArray Float64 [1%nat] [Finite 0]);
      PArray (NdArray Float64 [1%nat] [Finite 0])]].
Proof.
  apply (validation_failure_is_retried float64 NaN float64_eqb dimension_of no_construct
           no_construct_polygon
           no_construct_multi (GScalar (Some (point2 0 0))) constant_mapping
           IncludeNever false []
           [[PArray (NdArray Float64 [1%nat] [Finite 0]);
             PArray (NdArray Float64 [1%nat] [Finite 0])]]
           (PArray (NdArray Float64 [2%nat] [Finite 1; Finite 2]))).
  - reflexivity.
  - reflexivity.
  - exact I.
Defined.

(** C5, as stated, fails on [transform(Point(0, 0), lambda x, y: (1.0,
    2.0), single_vec=False)]: the whole-array call returns, the shape
    (2,) of its result is rejected, and the caller nevertheless gets
    [POINT (1 2)] from the retry. *)
Lemma validation_failure_masked_counterexample :
  let geometry := GScalar (Some (point2 0 0)) in
  let coordinates := Coordinates.coordinates_of NaN geometry false in
  let v := PArray (NdArray Float64 [2%nat] [Finite 1; Finite 2]) in
  fst (whole_axes NaN constant_mapping coordinates []) = Ok v /\
  check_result coordinates v = Raise ValueError /\
  fst (Examples.transform geometry constant_mapping IncludeNever false false []) =
  Ok (OutItem (Some (point2 1 2))).
Proof. cbv zeta. repeat split. Qed.

(** C6, as stated, fails on the batch [[Point(5, 6), Point(7, 8, 9)]]:
    the mapping is called once per element, with a (1, 2) and then a
    (1, 3) array, and not once with the (2, 3) array that one decision
    for the whole batch gives. *)
Lemma include_z_one_decision_counterexample :
  let batch := GList [Some (point2 5 6); Some (point3 7 8 9)] in
  snd (Examples.transform batch identity_mapping IncludeIf3D true false []) =
    [[PArray (NdArray Float64 [1; 2]%nat [Finite 5; Finite 6])];
     [PArray (NdArray Float64 [1; 3]%nat [Finite 7; Finite 8; Finite 9])]] /\
  Examples.transform batch identity_mapping IncludeIf3D true false [] <>
  Examples.transform batch identity_mapping
    (one_decision dimension_of [Some (point2 5 6); Some (point3 7 8 9)])
    true false [].
Proof.
  cbv zeta. split; [reflexivity|]. vm_compute. discriminate.
Qed.



Lemma transform_rebuild_empty_witness :
  let g := Multi MultiPolygon [Polygon [] []] in
  Examples.transform (GScalar (Some g)) identity_mapping IncludeIf3D false true [] =
  (Ok (OutItem (Some g)), []) /\
  (forall b, _transform2 NaN no_construct no_construct_polygon no_construct_multi
               g identity_mapping b [] = (Ok (Some g), [])) /\
  (forall b, _transform2_multi_vec NaN no_construct no_construct_polygon
               no_construct_multi g identity_mapping b [] = (Ok (Some g), [])).
Proof.
  cbv zeta.
  apply (transform_rebuild_empty float64 NaN float64_eqb dimension_of no_construct
           no_construct_polygon
           no_construct_multi). reflexivity.
Defined.

End CoordinatesFacts.
Module CgaMoreFacts.
Import Cga CgaFacts CgaNotions Examples.

Section Arithmetic.

Context {F : Type} {A : Arith F}.

(** X3.  Without keyword arguments the reference [is_ccw] never raises, and
    on a batch it returns one flag per element: the flag the element
    gets when it is handed over alone. *)
Theorem fallback_elementwise (l : list (option (Geometry F))) :
  exists bs,
    _is_ccw_fallback (ArgSeq l) [] = Ok (OutArray bs) /\
    Forall2 (fun g b => _is_ccw_fallback (single g) [] = Ok (OutBool b)) l bs.
Proof.
  exists (map fallback_flag l). split.
  - unfold _is_ccw_fallback. cbn [length Nat.eqb negb].
    rewrite (map_result_total _ fallback_flag) by apply fallback_scalar_total.
    reflexivity.
  - induction l as [|g l IH]; cbn [map]; constructor; [|exact IH].
    unfold _is_ccw_fallback. cbn [length Nat.eqb negb].
    destruct g as [g|]; cbn [single].
    + rewrite fallback_scalar_total. reflexivity.
    + reflexivity.
Qed.

End Arithmetic.

End CgaMoreFacts.

Module ForceCcwFacts.
Import ArithFacts Cga CgaFacts CgaNotions Examples.

Section Engine.

Context {F : Type} {A : Arith F} {S : EqbSym F}.

Lemma keep_or_reverse_negb (r : ring F) (f : bool) :
  keep_or_reverse r (negb f) = rev (keep_or_reverse r f).
Proof. destruct f; cbn; [reflexivity|]. symmetry. apply rev_involutive. Qed.

Lemma map2_keep_negb (rs : list (ring F)) (fs : list bool) :
  map2 keep_or_reverse rs (map negb fs) = map (@rev (coord F)) (map2 keep_or_reverse rs fs).
Proof.
  revert fs. induction rs as [|r rs IH]; intros [|f fs]; cbn [map map2]; try reflexivity.
  now rewrite keep_or_reverse_negb, IH.
Qed.

Lemma keep_or_reverse_closed (r : ring F) (f : bool) :
  is_closed r = true -> is_closed (keep_or_reverse r f) = true.
Proof. intros H. destruct f; cbn; [exact H|now rewrite is_closed_rev]. Qed.

Lemma map2_keep_closed (rs : list (ring F)) (fs : list bool) :
  forallb is_closed rs = true ->
  forallb is_closed (map2 keep_or_reverse rs fs) = true.
Proof.
  revert fs. induction rs as [|r rs IH]; intros [|f fs] H; cbn [map2 forallb]; try reflexivity.
  cbn [forallb] in H. apply andb_prop in H. destruct H as [Hr Hrs].
  now rewrite keep_or_reverse_closed, IH.
Qed.

Lemma keep_or_reverse_uniform (r : ring F) (f : bool) :
  uniform_arity r = true -> uniform_arity (keep_or_reverse r f) = true.
Proof. intros H. destruct f; cbn; [exact H|now apply uniform_arity_rev]. Qed.


Variable geos_version : nat * nat * nat.
Variable _is_ccw_geos_3_7 : option (Geometry F) -> bool.
Variable is_valid : Geometry F -> bool.
Variable iter_geometry : Geometry F -> result (list (GeometryPolygon.item F)).

Local Abbreviation force_ccw :=
  (Cga.force_ccw geos_version _is_ccw_geos_3_7 is_valid iter_geometry).
Local Abbreviation ccw_flag := (Cga.ccw_flag geos_version _is_ccw_geos_3_7).

(** The shape of the result on a polygon: the exterior and the interiors
    as the accessors give them, each kept or reversed by its flag. *)
Lemma force_ccw_polygon_rings (exterior : ring F) (interiors : list (ring F)) (ccw : bool) :
  forallb is_closed (exterior :: interiors) = true ->
  uniform_arity exterior = true ->
  let cs := map ccw_flag (interiors_of exterior interiors) in
  let f0 := if ccw then ccw_flag exterior else negb (ccw_flag exterior) in
  let fs := if ccw then map negb cs else cs in
  force_ccw (Polygon exterior interiors) ccw =
  Ok (Polygon (keep_or_reverse exterior f0)
              (map2 keep_or_reverse (interiors_of exterior interiors) fs)).
Proof.
  intros Hc Hu cs f0 fs.
  rewrite force_ccw_polygon by assumption.
  unfold rings_of, final_flags. cbn [map]. subst cs f0 fs.
  destruct ccw; cbn [map map2 polygon_of_rings]; [rewrite negb_involutive|]; reflexivity.
Qed.

(** X5.  The two target orientations give ring-wise reversed results. *)
Theorem force_ccw_opposite (exterior : ring F) (interiors : list (ring F)) :
  forallb is_closed (exterior :: interiors) = true ->
  uniform_arity exterior = true ->
  exists e holes,
    force_ccw (Polygon exterior interiors) false = Ok (Polygon e holes) /\
    force_ccw (Polygon exterior interiors) true =
    Ok (Polygon (rev e) (map (@rev (coord F)) holes)).
Proof.
  intros Hc Hu.
  rewrite !force_ccw_polygon_rings by assumption. cbv zeta.
  eexists _, _. split; [reflexivity|].
  now rewrite map2_keep_negb, <- keep_or_reverse_negb, negb_involutive.
Qed.

(** X6.  [orient] of [polygon.py] looks at the outcome of [sign >= 0.0]
    only, zero counting as positive: a sign for which the comparison
    fails and one for which it holds give polygons whose rings are the
    reverse of one another. *)
Theorem orient_opposite_signs (exterior : ring F) (interiors : list (ring F)) (s t : F) :
  forallb is_closed (exterior :: interiors) = true ->
  uniform_arity exterior = true ->
  f_ge s f_zero = true -> f_ge t f_zero = false ->
  exists e holes,
    Cga.orient geos_version _is_ccw_geos_3_7 is_valid iter_geometry
               (Polygon exterior interiors) t = Ok (Polygon e holes) /\
    Cga.orient geos_version _is_ccw_geos_3_7 is_valid iter_geometry
               (Polygon exterior interiors) s =
    Ok (Polygon (rev e) (map (@rev (coord F)) holes)).
Proof.
  intros Hc Hu Es Et. unfold Cga.orient.
  rewrite Es, Et. rewrite !force_ccw_polygon_rings by assumption. cbv zeta.
  eexists _, _. split; [reflexivity|].
  now rewrite map2_keep_negb, <- keep_or_reverse_negb, negb_involutive.
Qed.

End Engine.

Lemma force_ccw_opposite_witness :
  exists e holes,
    Cga.force_ccw geos_3_11 fallback_flag always_valid not_iterable
                  (Polygon fsquare [fhole]) false = Ok (Polygon e holes) /\
    Cga.force_ccw geos_3_11 fallback_flag always_valid not_iterable
                  (Polygon fsquare [fhole]) true =
    Ok (Polygon (rev e) (map (@rev (coord float)) holes)).
Proof.
  apply (force_ccw_opposite geos_3_11 fallback_flag always_valid not_iterable
           fsquare [fhole]); reflexivity.
Defined.

Lemma orient_opposite_signs_witness :
  exists e holes,
    Cga.orient geos_3_11 fallback_flag always_valid not_iterable
               (Polygon fsquare [fhole]) (-0.5)%float = Ok (Polygon e holes) /\
    Cga.orient geos_3_11 fallback_flag always_valid not_iterable
               (Polygon fsquare [fhole]) 0%float =
    Ok (Polygon (rev e) (map (@rev (coord float)) holes)).
Proof.
  apply (orient_opposite_signs geos_3_11 fallback_flag always_valid not_iterable
           fsquare [fhole] 0%float (-0.5)%float); reflexivity.
Defined.

End ForceCcwFacts.

Module NestedFacts.
Import ArithFacts Cga CgaFacts CgaNotions ForceCcwFacts GeometryFacts Examples.

Section Engine.

Context {F : Type} {A : Arith F} {S : EqbSym F}.

Variable geos_version : nat * nat * nat.
Variable _is_ccw_geos_3_7 : option (Geometry F) -> bool.
Variable is_valid : Geometry F -> bool.
Variable iter_geometry : Geometry F -> result (list (GeometryPolygon.item F)).

Local Abbreviation force_ccw :=
  (Cga.force_ccw geos_version _is_ccw_geos_3_7 is_valid iter_geometry).

Lemma force_ccw_multi (t : multi_type) (geoms : list (Geometry F)) (ccw : bool) :
  force_ccw (Multi t geoms) ccw =
  if in_strings (multi_name t) ["MultiPolygon"; "GeometryCollection"] then
    gs <- map_result (fun g => force_ccw g ccw) geoms ;; Ok (collection_new t gs)
  else Ok (Multi t geoms).
Proof. reflexivity. Qed.

(** X8.  A geometry in which no polygon occurs comes back as it is, also
    when it is a collection that [force_ccw] takes apart and rebuilds. *)
Theorem force_ccw_without_polygon (g : Geometry F) (ccw : bool) :
  no_polygon g = true -> force_ccw g ccw = Ok g.
Proof.
  induction g as [cs|cs|cs|e holes|t geoms IH] using Geometry_nested_ind;
    intros H; try reflexivity; try discriminate.
  rewrite force_ccw_multi.
  destruct (in_strings (multi_name t) ["MultiPolygon"; "GeometryCollection"]);
    [|reflexivity].
  cbn [no_polygon] in H.
  assert (E : map_result (fun g => force_ccw g ccw) geoms = Ok geoms).
  { induction IH as [|g geoms Hg _ IHl]; [reflexivity|].
    cbn [forallb] in H. apply andb_prop in H. destruct H as [H1 H2].
    cbn [map_result]. rewrite (Hg H1). cbn [bind]. rewrite (IHl H2). reflexivity. }
  rewrite E. reflexivity.
Qed.

(** X9.  On a geometry all of whose polygons have closed rings, [force_ccw]
    returns: it gives a geometry of the same type whose polygons again
    have closed rings. *)
Theorem force_ccw_returns (g : Geometry F) (ccw : bool) :
  well_formed g = true ->
  exists g', force_ccw g ccw = Ok g' /\
             geom_type g' = geom_type g /\
             well_formed g' = true.
Proof.
  induction g as [cs|cs|cs|e holes|t geoms IH] using Geometry_nested_ind;
    intros H; try (eexists; repeat split; reflexivity).
  - cbn [well_formed] in H. apply andb_prop in H. destruct H as [Hc Hu].
    rewrite force_ccw_polygon_rings by assumption. cbv zeta.
    eexists. split; [reflexivity|]. split; [reflexivity|].
    cbn [well_formed forallb]. cbn [forallb] in Hc.
    apply andb_prop in Hc. destruct Hc as [He Hi].
    rewrite keep_or_reverse_closed, keep_or_reverse_uniform by assumption.
    rewrite map2_keep_closed; [reflexivity|].
    unfold interiors_of. destruct (is_empty (Polygon e holes)); [reflexivity|exact Hi].
  - rewrite force_ccw_multi.
    destruct (in_strings (multi_name t) ["MultiPolygon"; "GeometryCollection"]);
      [|exists (Multi t geoms); split; [reflexivity|split; [reflexivity|exact H]]].
    cbn [well_formed] in H.
    assert (E : exists gs, map_result (fun g => force_ccw g ccw) geoms = Ok gs /\
                           forallb well_formed gs = true).
    { induction IH as [|g geoms Hg _ IHl]; [exists []; split; reflexivity|].
      cbn [forallb] in H. apply andb_prop in H. destruct H as [H1 H2].
      destruct (Hg H1) as (g' & Eg & _ & Wg).
      destruct (IHl H2) as (gs & Egs & Wgs).
      exists (g' :: gs). cbn [map_result]. rewrite Eg. cbn [bind]. rewrite Egs.
      split; [reflexivity|]. cbn [forallb]. now rewrite Wg, Wgs. }
    destruct E as (gs & -> & Wgs).
    eexists. split; [reflexivity|]. split; [reflexivity|exact Wgs].
Qed.

End Engine.

Lemma force_ccw_without_polygon_witness :
  Cga.force_ccw geos_3_11 fallback_flag always_valid not_iterable
     (Multi GeometryCollection [Point [fpt 1 2]; Multi MultiLineString [LineString fsquare]])
     true
  = Ok (Multi GeometryCollection [Point [fpt 1 2]; Multi MultiLineString [LineString fsquare]]).
Proof.
  apply (force_ccw_without_polygon geos_3_11 fallback_flag always_valid not_iterable).
  reflexivity.
Defined.

Lemma force_ccw_returns_witness :
  exists g',
    Cga.force_ccw geos_3_11 fallback_flag always_valid not_iterable
       (Multi GeometryCollection [Multi MultiPolygon [Polygon fsquare [fhole]]; Point []])
       false = Ok g' /\
    geom_type g' = "GeometryCollection" /\
    well_formed g' = true.
Proof.
  apply (force_ccw_returns geos_3_11 fallback_flag always_valid not_iterable
           (Multi GeometryCollection [Multi MultiPolygon [Polygon fsquare [fhole]]; Point []])
           false).
  reflexivity.
Defined.

End NestedFacts.
Module InteriorRingsFacts.
Import InteriorRings MoreExamples.

Section Sequence.

Variable Parent : Type.
Variable Ring : Type.
Variable get_num_interior_rings : Parent -> nat.
Variable get_interior_ring : Parent -> Z -> Ring.

Local Abbreviation len := (@InteriorRings.len Parent get_num_interior_rings).
Local Abbreviation getitem :=
  (@InteriorRings.getitem Parent Ring get_num_interior_rings get_interior_ring).
Local Abbreviation _get_ring := (@InteriorRings._get_ring Parent Ring get_interior_ring).
Local Abbreviation iter := (@InteriorRings.iter Parent get_num_interior_rings).
Local Abbreviation drain := (@InteriorRings.drain Parent Ring get_interior_ring).
Local Abbreviation all_rings :=
  (@InteriorRings.all_rings Parent Ring get_num_interior_rings get_interior_ring).

(** X10.  An integer key is accepted exactly when [-m <= key < m], and then a
    negative key counts from the end. *)
Theorem getitem_int (self : sequence Parent) (key : Z) :
  ((- len self <= key < len self)%Z ->
   getitem self (KInt key) = Ok (One (_get_ring self (key mod len self)%Z))) /\
  (~ (- len self <= key < len self)%Z ->
   getitem self (KInt key) = Raise IndexError).
Proof.
  unfold InteriorRings.getitem. set (m := len self). split; intros H.
  - assert (E : ((key + m <? 0) || (m <=? key))%Z = false).
    { apply orb_false_iff. split; [apply Z.ltb_ge|apply Z.leb_gt]; lia. }
    rewrite E. f_equal. f_equal. f_equal.
    destruct (key <? 0)%Z eqn:Ek.
    + apply Z.ltb_lt in Ek.
      apply (Z.mod_unique_pos key m (-1) (m + key)); lia.
    + apply Z.ltb_ge in Ek. symmetry. apply Z.mod_small. lia.
  - assert (E : ((key + m <? 0) || (m <=? key))%Z = true).
    { apply orb_true_iff.
      destruct (Z_lt_dec (key + m) 0) as [H1|H1]; [left; now apply Z.ltb_lt|].
      right. apply Z.leb_le. lia. }
    now rewrite E.
Qed.

(** *** Slices *)

Lemma range_bounds_up (start stop step : Z) (i : Z) :
  (0 < step)%Z -> In i (range start stop step) -> (start <= i < stop)%Z.
Proof.
  intros Hs Hi. unfold range in Hi. apply in_map_iff in Hi.
  destruct Hi as (k & <- & Hk). apply in_seq in Hk.
  unfold range_length in Hk.
  assert (E : (0 <? step)%Z = true) by now apply Z.ltb_lt.
  rewrite E in Hk.
  destruct (start <? stop)%Z eqn:El; [|lia].
  apply Z.ltb_lt in El.
  assert (Hq : (0 <= (stop - start - 1) / step)%Z) by (apply Z.div_pos; lia).
  assert (Hk' : (Z.of_nat k <= (stop - start - 1) / step)%Z) by lia.
  assert (Hm : (step * ((stop - start - 1) / step) <= stop - start - 1)%Z)
    by (apply Z.mul_div_le; lia).
  nia.
Qed.

Lemma range_bounds_down (start stop step : Z) (i : Z) :
  (step < 0)%Z -> In i (range start stop step) -> (stop < i <= start)%Z.
Proof.
  intros Hs Hi. unfold range in Hi. apply in_map_iff in Hi.
  destruct Hi as (k & <- & Hk). apply in_seq in Hk.
  unfold range_length in Hk.
  assert (E : (0 <? step)%Z = false) by (apply Z.ltb_ge; lia).
  rewrite E in Hk.
  destruct (stop <? start)%Z eqn:El; [|lia].
  apply Z.ltb_lt in El.
  assert (Hq : (0 <= (start - stop - 1) / (- step))%Z) by (apply Z.div_pos; lia).
  assert (Hk' : (Z.of_nat k <= (start - stop - 1) / (- step))%Z) by lia.
  assert (Hm : ((- step) * ((start - stop - 1) / (- step)) <= start - stop - 1)%Z)
    by (apply Z.mul_div_le; lia).
  nia.
Qed.

(** X11.  A slice never reaches outside the sequence: whatever its bounds,
    it returns rings at indices [0 <= i < m] only, and it raises
    [ValueError] exactly when its step is zero. *)
Theorem getitem_slice (self : sequence Parent) (start stop step : option Z) :
  (step = Some 0%Z -> getitem self (KSlice start stop step) = Raise ValueError) /\
  (step <> Some 0%Z ->
   exists indices,
     getitem self (KSlice start stop step) = Ok (Many (map (_get_ring self) indices)) /\
     Forall (fun i => (0 <= i < len self)%Z) indices).
Proof.
  split.
  - intros ->. reflexivity.
  - intros Hstep. unfold InteriorRings.getitem, slice_indices.
    set (m := len self).
    assert (Hm : (0 <= m)%Z) by (unfold m, InteriorRings.len; lia).
    set (s := match step with Some s => s | None => 1%Z end).
    assert (Hs : s <> 0%Z).
    { unfold s. destruct step as [z|]; [|lia]. intros ->. now apply Hstep. }
    apply Z.eqb_neq in Hs. rewrite Hs. apply Z.eqb_neq in Hs. cbn [bind].
    eexists. split; [reflexivity|].
    apply Forall_forall. intros i Hi.
    destruct (s <? 0)%Z eqn:Eneg.
    + apply Z.ltb_lt in Eneg. apply range_bounds_down in Hi; [|exact Eneg].
      unfold adjust in Hi. destruct start as [a|], stop as [b|];
        repeat match type of Hi with
               | context [(?x <? 0)%Z] => destruct (x <? 0)%Z eqn:?
               end; lia.
    + apply Z.ltb_ge in Eneg. apply range_bounds_up in Hi; [|lia].
      unfold adjust in Hi. destruct start as [a|], stop as [b|];
        repeat match type of Hi with
               | context [(?x <? 0)%Z] => destruct (x <? 0)%Z eqn:?
               end; lia.
Qed.

(** *** Iteration *)

Lemma range_unit (m : nat) :
  range 0 (Z.of_nat m) 1 = map Z.of_nat (seq 0 m).
Proof.
  unfold range, range_length. cbn [Z.ltb Z.compare].
  destruct m as [|m]; [reflexivity|].
  replace (0 <? Z.of_nat (S m))%Z with true by (symmetry; apply Z.ltb_lt; lia).
  rewrite Z.div_1_r.
  replace (Z.to_nat (Z.of_nat (S m) - 0 - 1 + 1)) with (S m) by lia.
  apply map_ext. intros k. lia.
Qed.

Lemma drain_from (self : sequence Parent) (k n fuel : nat) :
  _index self = Z.of_nat k -> _length self = Z.of_nat (k + n) ->
  (n < fuel)%nat ->
  drain fuel self =
  Some (map (fun i => _get_ring self (Z.of_nat i)) (seq k n),
        Sequence (_parent self) (Z.of_nat (k + n)) (_length self)).
Proof.
  revert self k fuel. induction n as [|n IH]; intros self k fuel Hi Hl Hf.
  - destruct fuel as [|fuel]; [lia|]. cbn [InteriorRings.drain]. unfold next.
    replace (_index self <? _length self)%Z with false
      by (symmetry; apply Z.ltb_ge; lia).
    cbn [seq map]. f_equal. f_equal. destruct self as [p i l]. cbn in *.
    subst. f_equal. lia.
  - destruct fuel as [|fuel]; [lia|]. cbn [InteriorRings.drain]. unfold next.
    replace (_index self <? _length self)%Z with true
      by (symmetry; apply Z.ltb_lt; lia).
    rewrite (IH _ (S k)); cbn [_index _length _parent]; try lia.
    cbn [seq map]. rewrite Hi. f_equal. f_equal. f_equal. lia.
Qed.

(** X12.  Iterating, taking the full slice and indexing agree: after
    [__iter__], [__next__] yields the rings [0 .. m-1] in order and then
    raises [StopIteration]; [self[:]] is the same list, and its [k]-th
    element is [self[k]]. *)
Theorem iteration_gives_all_rings (self : sequence Parent) (fuel : nat) :
  (get_num_interior_rings (_parent self) < fuel)%nat ->
  (exists final, drain fuel (iter self) = Some (all_rings self, final) /\
                 fst (next get_interior_ring final) = StopIteration Ring) /\
  getitem self (KSlice None None None) = Ok (Many (all_rings self)) /\
  (forall k, (k < get_num_interior_rings (_parent self))%nat ->
     getitem self (KInt (Z.of_nat k))
     = Ok (One (nth k (all_rings self) (_get_ring self 0%Z)))).
Proof.
  intros Hf. set (m := get_num_interior_rings (_parent self)) in *.
  split; [|split].
  - eexists. split.
    + rewrite (drain_from (iter self) 0 m fuel); cbn; try reflexivity; lia.
    + unfold next. cbn [_index _length iter InteriorRings.iter Nat.add].
      assert (E : (Z.of_nat m <? len self)%Z = false).
      { apply Z.ltb_ge. unfold InteriorRings.len. fold m. lia. }
      rewrite E. reflexivity.
  - unfold InteriorRings.getitem, slice_indices. cbn [Z.eqb Z.ltb Z.compare bind adjust].
    unfold InteriorRings.len. fold m. rewrite range_unit.
    unfold InteriorRings.all_rings. fold m. now rewrite map_map.
  - intros k Hk.
    destruct (getitem_int self (Z.of_nat k)) as [Hin _].
    rewrite Hin by (unfold InteriorRings.len; fold m; lia).
    f_equal. f_equal. unfold InteriorRings.all_rings. fold m.
    rewrite Z.mod_small by (unfold InteriorRings.len; fold m; lia).
    rewrite (nth_indep _ _ (_get_ring self (Z.of_nat 0)))
      by (rewrite length_map, length_seq; exact Hk).
    rewrite (map_nth (fun i => _get_ring self (Z.of_nat i)) (seq 0 m) 0%nat k).
    rewrite seq_nth by exact Hk. reflexivity.
Qed.

End Sequence.

Lemma getitem_int_witness :
  getitem holes_count hole_at three_holes (KInt (-1))
  = Ok (One (hole_at (_parent three_holes) 2%Z)).
Proof.
  apply (proj1 (getitem_int _ _ holes_count hole_at three_holes (-1))).
  cbn. lia.
Defined.

Lemma getitem_slice_witness :
  exists indices,
    getitem holes_count hole_at three_holes (KSlice (Some (-7)%Z) None (Some 2%Z))
    = Ok (Many (map (_get_ring hole_at three_holes) indices)) /\
    Forall (fun i => (0 <= i < len holes_count three_holes)%Z) indices.
Proof.
  apply (proj2 (getitem_slice _ _ holes_count hole_at three_holes
                  (Some (-7)%Z) None (Some 2%Z))).
  discriminate.
Defined.

Lemma iteration_gives_all_rings_witness :
  (exists final,
     drain hole_at 4 (iter holes_count three_holes)
     = Some (all_rings holes_count hole_at three_holes, final) /\
     fst (next hole_at final) = StopIteration _) /\
  getitem holes_count hole_at three_holes (KSlice None None None)
  = Ok (Many (all_rings holes_count hole_at three_holes)) /\
  (forall k, (k < holes_count (_parent three_holes))%nat ->
     getitem holes_count hole_at three_holes (KInt (Z.of_nat k))
     = Ok (One (nth k (all_rings holes_count hole_at three_holes)
                      (_get_ring hole_at three_holes 0%Z)))).
Proof.
  apply (iteration_gives_all_rings _ _ holes_count hole_at three_holes 4).
  cbn. lia.
Defined.

End InteriorRingsFacts.

Module ConstructorFacts.
Import GeometryPolygon PolygonMethods Examples.

Section Constructors.

Variable F : Type.
Variable F_eqb : F -> F -> bool.
Variable Obj : Type.
Variable geom_of : Obj -> Geometry F.
Variable is_valid : Obj -> bool.
Variable iter_geometry : Obj -> result (list (item F)).

Local Abbreviation LinearRing_new :=
  (GeometryPolygon.LinearRing_new F_eqb geom_of is_valid iter_geometry).
Local Abbreviation Polygon_new :=
  (GeometryPolygon.Polygon_new F_eqb geom_of is_valid iter_geometry).
Local Abbreviation value_of := (GeometryPolygon.value_of geom_of).

Lemma LinearRing_of_coords_ring (cs : list (coord F)) (m : made F Obj) :
  LinearRing_of_coords F_eqb Obj cs = Ok m ->
  m = Fresh (LinearRing (close_ring F_eqb cs)).
Proof.
  unfold LinearRing_of_coords, linearrings. destruct cs as [|c cs].
  - cbn. intros H. now injection H as <-.
  - cbn [length Nat.eqb is_LinearRing negb]. intros H. now injection H as <-.
Qed.

Lemma LinearRing_new_ring (a : pyvalue F Obj) (m : made F Obj) :
  LinearRing_new a = Ok m -> is_LinearRing (value_of m) = true.
Proof.
  destruct a as [|o|l|rows]; cbn [GeometryPolygon.LinearRing_new].
  - intros H. now injection H as <-.
  - destruct (isinstance_LineString (geom_of o)).
    + destruct (is_LinearRing (geom_of o)) eqn:E.
      * intros H. injection H as <-. exact E.
      * destruct (negb (is_valid o)); [discriminate|].
        intros H. apply LinearRing_of_coords_ring in H. now subst.
    + destruct (iter_geometry o) as [its|e]; [|discriminate]. cbn [bind].
      destruct (map_result (@_coords F) its) as [cs|e]; [|discriminate]. cbn [bind].
      intros H. apply LinearRing_of_coords_ring in H. now subst.
  - destruct (map_result (@_coords F) l) as [cs|e]; [|discriminate]. cbn [bind].
    intros H. apply LinearRing_of_coords_ring in H. now subst.
  - intros H. apply LinearRing_of_coords_ring in H. now subst.
Qed.

(** X13.  Whenever [LinearRing(...)] returns, what it returns is a
    [LinearRing]; whenever [Polygon(...)] returns, what it returns is a
    [Polygon]. *)
Theorem constructors_build_their_type :
  (forall a m, LinearRing_new a = Ok m -> is_LinearRing (value_of m) = true) /\
  (forall shell holes m, Polygon_new shell holes = Ok m ->
                         is_Polygon (value_of m) = true).
Proof.
  split; [exact LinearRing_new_ring|].
  intros shell holes m. destruct shell as [|o|l|rows]; cbn [GeometryPolygon.Polygon_new].
  - intros H. now injection H as <-.
  - destruct (is_Polygon (geom_of o)) eqn:E.
    + intros H. injection H as <-. exact E.
    + match goal with
      | |- bind ?h _ = _ -> _ => destruct h as [hs|e]; [|discriminate]
      end. cbn [bind].
      match goal with
      | |- bind ?s _ = _ -> _ => destruct s as [sh|e]; [|discriminate]
      end. cbn [bind]. unfold polygons. cbn [is_Polygon negb].
      intros H. now injection H as <-.
  - match goal with
    | |- bind ?h _ = _ -> _ => destruct h as [hs|e]; [|discriminate]
    end. cbn [bind].
    destruct (if (length l =? 0)%nat then Some [] else numeric_rows l) as [[|r rs]|];
      try discriminate; intros H; now injection H as <-.
  - match goal with
    | |- bind ?h _ = _ -> _ => destruct h as [hs|e]; [|discriminate]
    end. cbn [bind].
    destruct rows as [|r rs]; intros H; now injection H as <-.
Qed.

(** X14.  The holes are converted before the shell is looked at: when the
    conversion of a hole raises, the constructor raises the same
    exception for every shell that is neither [None] nor a [Polygon],
    an empty shell included; and [holes=[]] is handled as [holes=None]. *)
Theorem holes_are_converted_first (shell : pyvalue F Obj) :
  (forall holes e,
     shell_is_examined geom_of shell = true ->
     map_result LinearRing_new holes = Raise e ->
     Polygon_new shell (Some holes) = Raise e) /\
  Polygon_new shell (Some []) = Polygon_new shell None.
Proof.
  split.
  - intros holes e Hs Hh.
    assert (Hl : (length holes =? 0)%nat = false).
    { destruct holes; [discriminate|reflexivity]. }
    destruct shell as [|o|l|rows]; cbn [shell_is_examined] in Hs;
      cbn [GeometryPolygon.Polygon_new]; try discriminate.
    + apply negb_true_iff in Hs. rewrite Hs, Hl, Hh. reflexivity.
    + rewrite Hl, Hh. reflexivity.
    + rewrite Hl, Hh. reflexivity.
  - destruct shell; reflexivity.
Qed.

Lemma map_result_coords (l : list (item F)) :
  if existsb (@empty_point F) l
  then map_result (@_coords F) l = Raise IndexError
  else exists cs, map_result (@_coords F) l = Ok cs /\
                  Forall2 (fun o c => _coords o = Ok c) l cs.
Proof.
  induction l as [|o l IH]; cbn [existsb map_result].
  - exists []. split; [reflexivity|constructor].
  - destruct o as [c|[|c cs]]; cbn [empty_point orb _coords bind].
    + destruct (existsb (@empty_point F) l).
      * rewrite IH. reflexivity.
      * destruct IH as (cs & -> & Hl). eexists. split; [reflexivity|].
        constructor; [reflexivity|exact Hl].
    + reflexivity.
    + destruct (existsb (@empty_point F) l).
      * rewrite IH. reflexivity.
      * destruct IH as (cs' & -> & Hl). eexists. split; [reflexivity|].
        constructor; [reflexivity|exact Hl].
Qed.

(** X15.  [LinearRing(sequence)] raises [IndexError] when the sequence holds
    a [Point] without a coordinate, whatever else it holds; otherwise
    the sequence is handed on as one coordinate per element, a tuple as
    it is and a [Point] as its coordinate. *)
Theorem LinearRing_of_sequence (l : list (item F)) :
  (existsb (@empty_point F) l = true -> LinearRing_new (PySeq l) = Raise IndexError) /\
  (existsb (@empty_point F) l = false ->
   exists cs, Forall2 (fun o c => _coords o = Ok c) l cs /\
              LinearRing_new (PySeq l) = LinearRing_of_coords F_eqb Obj cs).
Proof.
  pose proof (map_result_coords l) as H. cbn [GeometryPolygon.LinearRing_new].
  split; intros E; rewrite E in H.
  - rewrite H. reflexivity.
  - destruct H as (cs & -> & Hl). exists cs. split; [exact Hl|reflexivity].
Qed.

End Constructors.

Lemma constructors_build_their_type_witness :
  is_LinearRing (value_of (snd : object -> Geometry Q) (Fresh (LinearRing (close_ring Qeq_bool square)))) = true /\
  is_Polygon (value_of (snd : object -> Geometry Q) (Existing a_polygon)) = true.
Proof.
  split.
  - apply (proj1 (constructors_build_their_type Q Qeq_bool object snd
                    (fun _ => true) (fun _ => Raise TypeError))
             (PySeq (map (@ITuple Q) square))).
    reflexivity.
  - apply (proj2 (constructors_build_their_type Q Qeq_bool object snd
                    (fun _ => true) (fun _ => Raise TypeError))
             (PyGeom a_polygon) None).
    reflexivity.
Defined.

Lemma holes_are_converted_first_witness :
  Polygon_new Qeq_bool (snd : object -> Geometry Q) (fun _ => true)
              (fun _ => Raise TypeError)
              (PySeq []) (Some [PySeq [IPoint []]]) = Raise IndexError.
Proof.
  apply (proj1 (holes_are_converted_first Q Qeq_bool object snd
                  (fun _ => true) (fun _ => Raise TypeError) (PySeq [])));
    reflexivity.
Defined.

Lemma LinearRing_of_sequence_witness :
  LinearRing_new Qeq_bool (snd : object -> Geometry Q) (fun _ => true)
                 (fun _ => Raise TypeError)
                 (PySeq [ITuple (pt 0 0); IPoint []]) = Raise IndexError /\
  exists cs,
    Forall2 (fun o c => _coords o = Ok c)
            [ITuple (pt 0 0); IPoint [pt 1 0]; ITuple (pt 1 1)] cs /\
    LinearRing_new Qeq_bool (snd : object -> Geometry Q) (fun _ => true)
                   (fun _ => Raise TypeError)
                   (PySeq [ITuple (pt 0 0); IPoint [pt 1 0]; ITuple (pt 1 1)])
    = LinearRing_of_coords Qeq_bool object cs.
Proof.
  split.
  - apply (proj1 (LinearRing_of_sequence Q Qeq_bool object snd
                    (fun _ => true) (fun _ => Raise TypeError) _)). reflexivity.
  - apply (proj2 (LinearRing_of_sequence Q Qeq_bool object snd
                    (fun _ => true) (fun _ => Raise TypeError)
                    [ITuple (pt 0 0); IPoint [pt 1 0]; ITuple (pt 1 1)])).
    reflexivity.
Defined.

(** *** Polygons from coordinate tuples *)

Section Tuples.

Import Cga.

Variable F : Type.
Variable F_eqb : F -> F -> bool.
Variable Obj : Type.
Variable geom_of : Obj -> Geometry F.
Variable is_valid : Obj -> bool.
Variable iter_geometry : Obj -> result (list (item F)).

Local Abbreviation Polygon_new :=
  (GeometryPolygon.Polygon_new F_eqb geom_of is_valid iter_geometry).

Lemma numeric_rows_tuples (cs : ring F) :
  numeric_rows (map (@ITuple F) cs) = if uniform_arity cs then Some cs else None.
Proof.
  induction cs as [|c t IH]; [reflexivity|].
  destruct t as [|d t]; [reflexivity|].
  change (map (@ITuple F) (c :: d :: t))
    with (ITuple c :: map (@ITuple F) (d :: t)).
  assert (E : uniform_arity (c :: d :: t)
               = (arity c =? arity d)%nat && uniform_arity (d :: t)) by reflexivity.
  rewrite E. remember (uniform_arity (d :: t)) as u eqn:Eu.
  cbn [numeric_rows]. rewrite IH. destruct u.
  - destruct (arity c =? arity d)%nat; reflexivity.
  - now rewrite andb_false_r.
Qed.

(** X16.  A shell given as a sequence of coordinate tuples of mixed arities
    raises [ValueError]; an empty sequence gives the empty polygon; and
    tuples of one arity that make a ring of at least four coordinates
    once closed give the polygon whose exterior is that ring. *)
Theorem Polygon_of_tuples (cs : ring F) :
  (uniform_arity cs = false ->
   Polygon_new (PySeq (map (@ITuple F) cs)) None = Raise ValueError) /\
  (cs = [] ->
   Polygon_new (PySeq (map (@ITuple F) cs)) None = Ok (Fresh (Polygon [] []))) /\
  (uniform_arity cs = true ->
   (4 <= length (close_ring F_eqb cs))%nat ->
   Polygon_new (PySeq (map (@ITuple F) cs)) None
   = Ok (Fresh (Polygon (close_ring F_eqb cs) []))).
Proof.
  cbn [GeometryPolygon.Polygon_new bind]. rewrite length_map.
  destruct cs as [|c cs].
  - split; [discriminate|]. split; reflexivity.
  - cbn [length Nat.eqb]. rewrite numeric_rows_tuples.
    split; [intros ->; reflexivity|]. split; [discriminate|].
    intros -> _. reflexivity.
Qed.

(** X17.  [Polygon.from_bounds] gives the polygon without holes whose
    shell lists the corners in the order (xmin, ymin), (xmin, ymax),
    (xmax, ymax), (xmax, ymin), closed by a fifth point equal to the
    first unless the fourth corner is equal to the first already. *)
Theorem from_bounds_corners (xmin ymin xmax ymax : F) :
  from_bounds F_eqb geom_of is_valid iter_geometry xmin ymin xmax ymax
  = Ok (Fresh (Polygon (close_ring F_eqb [Coord xmin ymin None; Coord xmin ymax None;
                                         Coord xmax ymax None; Coord xmax ymin None])
                       [])).
Proof.
  unfold from_bounds. cbn [GeometryPolygon.Polygon_new bind length Nat.eqb].
  cbn [numeric_rows arity cz Nat.eqb].
  unfold polygons, linearrings, close_ring. cbn [is_Polygon negb ring_coords].
  destruct (GeometryPolygon.is_closed F_eqb _); reflexivity.
Qed.

End Tuples.

Lemma Polygon_of_tuples_witness :
  Polygon_new PrimFloat.eqb (snd : unit * Geometry float -> Geometry float)
              (fun _ => true) (fun _ => Raise TypeError)
              (PySeq (map (@ITuple float) [fpt 0 0; fpt 0 1; fpt 1 1])) None
  = Ok (Fresh (Polygon [fpt 0 0; fpt 0 1; fpt 1 1; fpt 0 0] [])) /\
  Polygon_new PrimFloat.eqb (snd : unit * Geometry float -> Geometry float)
              (fun _ => true) (fun _ => Raise TypeError)
              (PySeq (map (@ITuple float) [fpt 0 0; Coord 0%float 1%float (Some 2%float)]))
              None
  = Raise ValueError.
Proof.
  split.
  - apply (proj2 (proj2 (Polygon_of_tuples float PrimFloat.eqb (unit * Geometry float)
                           snd (fun _ => true) (fun _ => Raise TypeError)
                           [fpt 0 0; fpt 0 1; fpt 1 1]))).
    + reflexivity.
    + cbn. lia.
  - apply (proj1 (Polygon_of_tuples float PrimFloat.eqb (unit * Geometry float)
                    snd (fun _ => true) (fun _ => Raise TypeError)
                    [fpt 0 0; Coord 0%float 1%float (Some 2%float)])).
    reflexivity.
Defined.

(** On the box from (0, 0) to (2, 1), in float64: five points,
    clockwise, with the signed area -2.0. *)
Lemma from_bounds_corners_example :
  from_bounds PrimFloat.eqb (snd : unit * Geometry float -> Geometry float)
              (fun _ => true) (fun _ => Raise TypeError) 0%float 0%float 2%float 1%float
  = Ok (Fresh (Polygon [fpt 0 0; fpt 0 1; fpt 2 1; fpt 2 0; fpt 0 0] [])) /\
  Cga.signed_area [fpt 0 0; fpt 0 1; fpt 2 1; fpt 2 0; fpt 0 0] = Ok (-2)%float /\
  Cga._is_ccw_fallback (Cga.ArgGeom (LinearRing [fpt 0 0; fpt 0 1; fpt 2 1; fpt 2 0; fpt 0 0]))
                       [] = Ok (Cga.OutBool false).
Proof. repeat split. Qed.

End ConstructorFacts.
Module PipelineFacts.
Import Coordinates CoordinatesNotions Examples CoordinateExamples GeometryFacts.

Section Facts.

Variable F : Type.
Variable nan : F.
Variable F_eqb : F -> F -> bool.
Variable get_coordinate_dimension : option (Geometry F) -> Z.
Variable construct : Geometry F -> pyobj F -> result (Geometry F).
Variable construct_polygon : Geometry F -> list (Geometry F) -> result (Geometry F).
Variable construct_multi : multi_type -> list (option (Geometry F)) -> result (Geometry F).

Local Abbreviation transform :=
  (@Coordinates.transform F nan F_eqb get_coordinate_dimension construct
     construct_polygon construct_multi).
Local Abbreviation _transform2 :=
  (@Coordinates._transform2 F nan construct construct_polygon construct_multi).
Local Abbreviation _transform2_multi_vec :=
  (@Coordinates._transform2_multi_vec F nan construct construct_polygon
     construct_multi).
Local Abbreviation transform_rebuild_single_part :=
  (@Coordinates.transform_rebuild_single_part F nan construct construct_polygon).
Local Abbreviation is_3d := (@Coordinates.is_3d F get_coordinate_dimension).
Local Abbreviation _transform := (@Coordinates._transform F nan F_eqb).
Local Abbreviation _transform_multi_vec := (@Coordinates._transform_multi_vec F nan F_eqb).
Local Abbreviation coordinates_of := (@Coordinates.coordinates_of F nan).
Local Abbreviation get_coordinates := (@Coordinates.get_coordinates F nan).
Local Abbreviation counted := (@CoordinatesNotions.counted F _).
Local Abbreviation set_coordinates := (@Coordinates.set_coordinates F F_eqb).
Local Abbreviation lib_set_coordinates := (@Coordinates.lib_set_coordinates F F_eqb).
Local Abbreviation write_items := (@Coordinates.write_items F F_eqb).
Local Abbreviation write_geom := (@Coordinates.write_geom F F_eqb).
Local Abbreviation check_ring := (@Coordinates.check_ring F F_eqb).
Local Abbreviation all_rings_closed := (@CoordinatesNotions.all_rings_closed F F_eqb).
Local Abbreviation rings_closed := (@CoordinatesNotions.rings_closed F F_eqb).
Local Abbreviation is_closed := (@GeometryPolygon.is_closed F F_eqb).
Local Abbreviation preserve_wrapper := (@Coordinates.preserve_wrapper F nan F_eqb).
Local Abbreviation preserve_batch := (@Coordinates.preserve_batch F nan F_eqb).
Local Abbreviation per_element := (@Coordinates.per_element F get_coordinate_dimension).

(** *** [_transform]: one call of the mapping *)

Lemma shape_eqb_eq (s t : list nat) : shape_eqb s t = true <-> s = t.
Proof.
  revert t. induction s as [|a s IH]; intros [|b t]; cbn [shape_eqb];
    try (split; [discriminate|discriminate]); [tauto|].
  rewrite andb_true_iff, Nat.eqb_eq, IH. split.
  - intros [-> ->]. reflexivity.
  - intros H. injection H as -> ->. tauto.
Qed.

Lemma dtype_eqb_eq (a b : dtype) : dtype_eqb a b = true <-> a = b.
Proof. destruct a, b; cbn; split; congruence. Qed.

Lemma check_result_ok (coordinates : ndarray F) (v : pyobj F) (a : ndarray F) :
  check_result coordinates v = Ok a <->
  v = PArray a /\ dt a = Float64 /\ shape a = shape coordinates.
Proof.
  unfold check_result. destruct v as [x|a'|l|];
    try (split; [discriminate|intros [H _]; discriminate]).
  destruct (dtype_eqb (dt a') Float64) eqn:Ed; cbn [negb].
  - destruct (shape_eqb (shape a') (shape coordinates)) eqn:Es; cbn [negb].
    + apply dtype_eqb_eq in Ed. apply shape_eqb_eq in Es. split.
      * intros H. injection H as <-. auto.
      * intros (H & _ & _). injection H as <-. reflexivity.
    + split; [discriminate|]. intros (H & _ & Hs). injection H as ->.
      apply shape_eqb_eq in Hs. congruence.
  - split; [discriminate|]. intros (H & Hd & _). injection H as ->.
    apply dtype_eqb_eq in Hd. congruence.
Qed.

Lemma check_result_error (coordinates : ndarray F) (v : pyobj F) (e : exn) :
  check_result coordinates v = Raise e -> e = ValueError.
Proof.
  intros H.
  assert (R : raises (check_result coordinates v)) by (rewrite H; exact I).
  apply CoordinatesFacts.check_result_raises in R. congruence.
Qed.

(** The record of the calls after [_transform] is the record after its
    one use of the transformation. *)
Lemma transform_log (geometry : geom_arg F) (t : ndarray F -> M F (pyobj F))
    (b : bool) (log : calls F) :
  snd (_transform geometry t b log) = snd (t (coordinates_of geometry b) log).
Proof.
  unfold Coordinates._transform, Coordinates.coordinates_of, mbind, lift, ret.
  destruct (t _ log) as [[v|e] log']; [|reflexivity].
  destruct (check_result _ v) as [a|e]; [|reflexivity].
  destruct (Coordinates.lib_set_coordinates F_eqb _ a) as [written [e|]]; reflexivity.
Qed.

(** X18.  [_transform] calls the mapping exactly once, with the extracted
    buffer, whatever the outcome.  An exception of the mapping is passed
    on; a return value that is not a float64 array of the shape of the
    buffer gives [ValueError]; the call succeeds only when the mapping
    returns such an array, and then the outcome is that of the engine's
    scatter: the written geometry, or the exception of the engine. *)
Theorem transform_calls_mapping_once (geometry : geom_arg F) (f : mapping F)
    (b : bool) (log : calls F) :
  let coordinates := coordinates_of geometry b in
  let outcome := _transform geometry (single_vec_call f) b log in
  snd outcome = log ++ [[PArray coordinates]] /\
  (forall e, f [PArray coordinates] = Raise e -> fst outcome = Raise e) /\
  ((exists out, fst outcome = Ok out) ->
   exists a, f [PArray coordinates] = Ok (PArray a) /\
             dt a = Float64 /\ shape a = shape coordinates) /\
  (forall v, f [PArray coordinates] = Ok v ->
             ~ (exists a, v = PArray a /\ dt a = Float64 /\ shape a = shape coordinates) ->
             fst outcome = Raise ValueError) /\
  (forall a, f [PArray coordinates] = Ok (PArray a) ->
             dt a = Float64 -> shape a = shape coordinates ->
             fst outcome =
             match lib_set_coordinates (items (object_array geometry)) a with
             | (_, Some e) => Raise e
             | (written, None) =>
                 Ok (unwrap geometry (GArr (ndim0 (object_array geometry)) written))
             end).
Proof.
  cbv zeta. split; [|split; [|split; [|split]]].
  - rewrite transform_log. reflexivity.
  - intros e He. unfold Coordinates._transform, mbind, single_vec_call, call.
    fold (coordinates_of geometry b). rewrite He. reflexivity.
  - unfold Coordinates._transform, mbind, single_vec_call, call, lift, ret.
    fold (coordinates_of geometry b).
    destruct (f [PArray (coordinates_of geometry b)]) as [v|e]; cbn [fst];
      [|intros [out H]; discriminate].
    destruct (check_result (coordinates_of geometry b) v) as [a|e] eqn:Ec; cbn [fst];
      [|intros [out H]; discriminate].
    apply check_result_ok in Ec. destruct Ec as (-> & Hd & Hs).
    intros _. exists a. auto.
  - intros v Hv Hn. unfold Coordinates._transform, mbind, single_vec_call, call, lift, ret.
    fold (coordinates_of geometry b). rewrite Hv.
    destruct (check_result (coordinates_of geometry b) v) as [a|e] eqn:Ec; cbn [fst].
    + apply check_result_ok in Ec. destruct Ec as (-> & Hd & Hs).
      exfalso. apply Hn. exists a. auto.
    + apply check_result_error in Ec. now subst.
  - intros a Ha Hd Hs.
    unfold Coordinates._transform, mbind, single_vec_call, call, lift, ret, raise.
    fold (coordinates_of geometry b). rewrite Ha.
    assert (Ec : check_result (coordinates_of geometry b) (PArray a) = Ok a)
      by (apply check_result_ok; auto).
    rewrite Ec.
    destruct (Coordinates.lib_set_coordinates F_eqb (items (object_array geometry)) a)
      as [written [e|]]; reflexivity.
Qed.

(** *** The retry of the calling mode with separate ordinates *)

Lemma whole_axes_raise (f : mapping F) (coords : ndarray F) (log : calls F) (e : exn) :
  f (map (@PArray F) (iter_array (transpose nan coords))) = Raise e ->
  whole_axes nan f coords log =
  (Raise e, log ++ [map (@PArray F) (iter_array (transpose nan coords))]).
Proof. intros H. unfold whole_axes, mbind, call. rewrite H. reflexivity. Qed.

(** X19.  When the mapping raises on the whole ordinate vectors, the class of
    the exception decides: an [Exception] starts the retry coordinate by
    coordinate, anything else (a [KeyboardInterrupt]) is passed on and
    the mapping is not called again.  This holds in the
    structure-preserving wrapper and, on a single part, in the
    rebuilding one. *)
Theorem retry_only_on_Exception (f : mapping F) (b : bool) (log : calls F) (e : exn) :
  (forall geometry,
     let args := map (@PArray F) (iter_array (transpose nan (coordinates_of geometry b))) in
     f args = Raise e ->
     _transform_multi_vec geometry f b log =
     if is_Exception e
     then _transform geometry (per_coordinate f) b (log ++ [args])
     else (Raise e, log ++ [args])) /\
  (forall g,
     let args := map (@PArray F)
                     (iter_array (transpose nan (get_coordinates (first_part g) b))) in
     is_empty g = false -> is_collection g = false ->
     f args = Raise e ->
     _transform2_multi_vec g f b log =
     if is_Exception e
     then transform_rebuild_single_part g (per_coordinate_list f) b (log ++ [args])
     else (Raise e, log ++ [args])).
Proof.
  split.
  - intros geometry args H. unfold Coordinates._transform_multi_vec, try_except.
    unfold Coordinates._transform at 1. unfold mbind at 1.
    fold (coordinates_of geometry b).
    rewrite (whole_axes_raise f _ log e H). fold args.
    destruct (is_Exception e); reflexivity.
  - intros g args Hne Hc H.
    destruct g as [cs|cs|cs|ext holes|t geoms]; try discriminate;
      cbn [Coordinates._transform2_multi_vec]; rewrite Hne;
      unfold try_except;
      unfold Coordinates.transform_rebuild_single_part at 1; unfold mbind at 1;
      cbn [first_part] in args, H;
      rewrite (whole_axes_raise f _ log e H); fold args;
      destruct (is_Exception e); reflexivity.
Qed.

(** *** The resolution of [include_z] on one geometry and on no geometry *)

(** X22.  On one geometry (or [None]) the value [-1] of [include_z] stands
    for [True] when the geometry is three-dimensional and for [False]
    otherwise, in every mode. *)
Theorem include_z_of_one_geometry (g : option (Geometry F)) (f : mapping F)
    (single_vec rebuild : bool) (log : calls F) :
  transform (GScalar g) f IncludeIf3D single_vec rebuild log =
  transform (GScalar g) f (if is_3d g then IncludeAlways else IncludeNever)
            single_vec rebuild log.
Proof.
  unfold Coordinates.transform. cbn [resolve_include_z].
  destruct (Coordinates.is_3d get_coordinate_dimension g); reflexivity.
Qed.

(** X23.  On an empty batch with [include_z=-1] the mapping is never called:
    the structure-preserving mode raises [IndexError] (it reads the
    first flag of an empty array of flags) and the rebuilding mode
    returns an empty array. *)
Theorem include_z_of_empty_batch (f : mapping F) (single_vec : bool) (log : calls F) :
  transform (GList []) f IncludeIf3D single_vec false log = (Raise IndexError, log) /\
  transform (GArray []) f IncludeIf3D single_vec false log = (Raise IndexError, log) /\
  transform (GList []) f IncludeIf3D single_vec true log = (Ok (OutArray []), log) /\
  transform (GArray []) f IncludeIf3D single_vec true log = (Ok (OutArray []), log).
Proof. destruct single_vec; repeat split. Qed.

(** *** Rebuild mode and missing geometries *)

Lemma mapM_raises {A B} (w : A -> M F B) (l : list A) (a : A) (log : calls F) :
  In a l -> (forall log', raises (fst (w a log'))) -> raises (fst (mapM w l log)).
Proof.
  intros Hin Hw. revert log. induction l as [|x l IH]; intros log; [destruct Hin|].
  cbn [mapM]. unfold mbind. destruct Hin as [->|Hin].
  - specialize (Hw log). destruct (w a log) as [[y|e] log']; [destruct Hw|exact I].
  - destruct (w x log) as [[y|e] log']; [|exact I].
    specialize (IH Hin log'). destruct (mapM w l log') as [[ys|e] log'']; [destruct IH|exact I].
Qed.

Lemma mbind_raises {A B} (m : M F A) (k : A -> M F B) (log : calls F) :
  raises (fst (m log)) -> raises (fst (mbind m k log)).
Proof. unfold mbind. destruct (m log) as [[a|e] log']; [intros []|intros _; exact I]. Qed.

Lemma frompyfunc_None (w : element_wrapper F) (l : list (option (Geometry F)))
    (include_z : include_z_arg) (log : calls F) :
  In None l -> (forall b log', raises (fst (w None b log'))) ->
  raises (fst (frompyfunc w (GList l)
                 (resolve_include_z get_coordinate_dimension (GList l) include_z) log)) /\
  raises (fst (frompyfunc w (GArray l)
                 (resolve_include_z get_coordinate_dimension (GArray l) include_z) log)).
Proof.
  intros Hin Hw.
  assert (Hs : forall b, raises (fst (mapM (fun g => w g b) l log))).
  { intros b. apply mapM_raises with (a := None); [exact Hin|]. intros; apply Hw. }
  assert (Hp : raises (fst (mapM (fun gb => w (fst gb) (snd gb))
                              (combine l (map is_3d l)) log))).
  { rewrite CoordinatesFacts.mapM_combine.
    apply mapM_raises with (a := None); [exact Hin|]. intros; apply Hw. }
  destruct include_z; cbn [resolve_include_z frompyfunc];
    try (split; apply mbind_raises; apply Hs).
  rewrite length_map, Nat.eqb_refl. split; apply mbind_raises; exact Hp.
Qed.

(** X24.  The rebuilding mode has no place for [None]: on [None] itself it
    raises [AttributeError] without calling the mapping, and a batch
    that holds a [None] never gives a result. *)
Theorem rebuild_rejects_None (f : mapping F) (include_z : include_z_arg)
    (single_vec : bool) (log : calls F) :
  transform (GScalar None) f include_z single_vec true log = (Raise AttributeError, log) /\
  (forall l, In None l ->
             raises (fst (transform (GList l) f include_z single_vec true log)) /\
             raises (fst (transform (GArray l) f include_z single_vec true log))).
Proof.
  split.
  - unfold Coordinates.transform, transform_resolved.
    destruct include_z, single_vec; cbn [resolve_include_z]; reflexivity.
  - intros l Hin. unfold Coordinates.transform, transform_resolved.
    destruct single_vec.
    + destruct (frompyfunc_None (_transform2_element nan construct construct_polygon
                                   construct_multi f) l include_z log Hin) as [H1 H2];
        [intros; exact I|].
      split; [exact H1|].
      destruct (resolve_include_z get_coordinate_dimension (GArray l) include_z); exact H2.
    + destruct (frompyfunc_None (_transform2_multi_vec_element nan construct
                                   construct_polygon construct_multi f)
                                l include_z log Hin) as [H1 H2];
        [intros; exact I|].
      split; [exact H1|].
      destruct (resolve_include_z get_coordinate_dimension (GArray l) include_z); exact H2.
Qed.

(** *** How often the mapping is called *)

Lemma length_coords_geom (g : Geometry F) : length (coords_geom g) = count_geom g.
Proof.
  induction g as [cs|cs|cs|e holes|t geoms IH] using Geometry_nested_ind;
    cbn [coords_geom count_geom]; try reflexivity.
  - rewrite length_app, length_concat. reflexivity.
  - rewrite length_flat_map. f_equal.
    induction IH as [|g geoms Hg _ IHl]; [reflexivity|].
    cbn [map]. now rewrite Hg, IHl.
Qed.

Lemma length_coords_items (l : list (option (Geometry F))) :
  length (flat_map (@coords_item F) l) = lib_count_coordinates l.
Proof.
  unfold lib_count_coordinates. rewrite length_flat_map. f_equal.
  apply map_ext. intros [g|]; [apply length_coords_geom|reflexivity].
Qed.

Lemma length_chunk (m n : nat) (l : list F) : length (chunk m n l) = n.
Proof.
  revert l. induction n as [|n IH]; intros l; cbn [chunk length]; [reflexivity|].
  now rewrite IH.
Qed.

Lemma length_iter_array (n m : nat) (d : dtype) (l : list F) :
  length (iter_array (NdArray d [n; m] l)) = n.
Proof. unfold iter_array. cbn [shape]. now rewrite length_map, length_chunk. Qed.

Lemma rows_of_buffer (geometry : geom_arg F) (b : bool) :
  length (iter_array (coordinates_of geometry b)) = count_coordinates geometry.
Proof.
  unfold Coordinates.coordinates_of, lib_get_coordinates, count_coordinates.
  rewrite length_iter_array. apply length_coords_items.
Qed.

Lemma counted_ret {A} (a : A) : counted (ret a) 0.
Proof. intros log. exists []. rewrite app_nil_r. repeat split; auto. Qed.

Lemma counted_lift {A} (r : result A) : counted (lift r) 0.
Proof. intros log. exists []. rewrite app_nil_r. repeat split; auto. Qed.

Lemma counted_call (f : mapping F) (args : list (pyobj F)) : counted (call f args) 1.
Proof. intros log. exists [args]. repeat split; auto. Qed.

Lemma counted_bind {A B} (m : M F A) (k : A -> M F B) (c d : nat) :
  counted m c -> (forall a, counted (k a) d) -> counted (mbind m k) (c + d).
Proof.
  intros Hm Hk log. unfold mbind.
  destruct (Hm log) as (x & Ex & Lx & Ox).
  destruct (m log) as [[a|e] log'] eqn:E; cbn [fst snd] in *; subst log'.
  - destruct (Hk a (log ++ x)) as (y & Ey & Ly & Oy).
    exists (x ++ y). rewrite app_assoc, length_app. split; [exact Ey|].
    specialize (Ox a eq_refl). split; [lia|].
    intros r Hr. specialize (Oy r Hr). lia.
  - exists x. split; [reflexivity|]. split; [lia|]. intros r Hr. discriminate.
Qed.

Lemma counted_eq {A} (m : M F A) (c c' : nat) : counted m c -> c = c' -> counted m c'.
Proof. intros H <-. exact H. Qed.

Lemma counted_mapM {A B} (w : A -> M F B) (c : A -> nat) (l : list A) :
  Forall (fun a => counted (w a) (c a)) l ->
  counted (mapM w l) (list_sum (map c l)).
Proof.
  induction 1 as [|a l Ha _ IH].
  - apply counted_ret.
  - cbn [mapM]. eapply counted_eq.
    + apply counted_bind; [exact Ha|]. intros b0.
      apply counted_bind; [exact IH|]. intros bs. apply counted_ret.
    + cbn [map]. change (list_sum (c a :: map c l)) with (c a + list_sum (map c l))%nat.
      lia.
Qed.

Lemma list_sum_ones {A} (l : list A) : list_sum (map (fun _ => 1%nat) l) = length l.
Proof.
  induction l as [|a l IH]; [reflexivity|].
  cbn [map length]. rewrite <- IH. reflexivity.
Qed.

Lemma counted_whole_axes (f : mapping F) (coords : ndarray F) :
  counted (whole_axes nan f coords) 1.
Proof.
  unfold whole_axes. eapply counted_eq.
  - apply counted_bind; [apply counted_call|]. intros r.
    apply counted_bind; [apply counted_lift|]. intros a. apply counted_ret.
  - reflexivity.
Qed.

Lemma counted_each_coordinate (f : mapping F) (coords : ndarray F) :
  counted (each_coordinate f coords) (length (iter_array coords)).
Proof.
  unfold each_coordinate. eapply counted_eq.
  - apply counted_mapM with (c := fun _ => 1%nat).
    apply Forall_forall. intros c _. apply counted_call.
  - apply list_sum_ones.
Qed.

Lemma counted_per_coordinate (f : mapping F) (coords : ndarray F) :
  counted (per_coordinate f coords) (length (iter_array coords)).
Proof.
  unfold per_coordinate. eapply counted_eq.
  - apply counted_bind; [apply counted_each_coordinate|]. intros rs.
    apply counted_bind; [apply counted_lift|]. intros a. apply counted_ret.
  - lia.
Qed.

Lemma counted_transform (geometry : geom_arg F) (t : ndarray F -> M F (pyobj F))
    (b : bool) (c : nat) :
  counted (t (coordinates_of geometry b)) c -> counted (_transform geometry t b) c.
Proof.
  intros Ht. unfold Coordinates._transform. fold (coordinates_of geometry b).
  eapply counted_eq.
  - apply counted_bind; [exact Ht|]. intros v.
    apply counted_bind; [apply counted_lift|]. intros a.
    destruct (Coordinates.lib_set_coordinates F_eqb _ a) as [written [e|]];
      [apply (counted_lift (Raise e))|apply counted_ret].
  - lia.
Qed.

(** X20.  With separate ordinates the structure-preserving wrapper calls the
    mapping once on the whole vectors and, when that attempt fails, once
    more per coordinate: never more than [1 + count_coordinates] calls,
    and exactly 1 or exactly [1 + count_coordinates] when it returns. *)
Theorem multi_vec_calls (geometry : geom_arg F) (f : mapping F) (b : bool)
    (log : calls F) :
  let outcome := _transform_multi_vec geometry f b log in
  exists extra,
    snd outcome = log ++ extra /\
    (1 <= length extra <= 1 + count_coordinates geometry)%nat /\
    (forall out, fst outcome = Ok out ->
                 length extra = 1%nat \/
                 length extra = (1 + count_coordinates geometry)%nat).
Proof.
  cbv zeta. unfold Coordinates._transform_multi_vec, try_except.
  pose proof (counted_transform geometry (whole_axes nan f) b 1
                (counted_whole_axes f _) log) as (x & Ex & Lx & Ox).
  assert (L1 : length x = 1%nat).
  { rewrite transform_log in Ex. unfold whole_axes, mbind, call in Ex.
    destruct (f _) as [r|e] in Ex; cbn [snd] in Ex.
    - unfold lift in Ex. destruct (np_array r); cbn [snd] in Ex;
        apply app_inv_head in Ex; now subst x.
    - apply app_inv_head in Ex. now subst x. }
  destruct (_transform geometry (whole_axes nan f) b log) as [[out|e] log'];
    cbn [fst snd] in *; subst log'.
  - exists x. split; [reflexivity|]. split; [lia|]. intros; now left.
  - destruct (is_Exception e).
    + pose proof (counted_transform geometry (per_coordinate f) b _
                    (counted_per_coordinate f _) (log ++ x)) as (y & Ey & Ly & Oy).
      rewrite rows_of_buffer in Ly, Oy.
      exists (x ++ y). rewrite app_assoc, length_app. split; [exact Ey|].
      split; [lia|]. intros out Hout. right. rewrite (Oy out Hout). lia.
    + exists x. cbn [fst snd]. split; [reflexivity|]. split; [lia|]. intros; now left.
Qed.

Lemma counted_single_part (g : Geometry F) (f : mapping F) (b : bool) :
  is_empty g = false -> is_collection g = false ->
  counted (transform_rebuild_single_part g (single_vec_call f) b) (components g).
Proof.
  intros Hne Hc.
  destruct g as [cs|cs|cs|e holes|t geoms]; try discriminate;
    cbn [components]; rewrite Hne;
    cbn [Coordinates.transform_rebuild_single_part].
  1-3: eapply counted_eq;
       [ apply counted_bind; [apply counted_call|]; intros v;
         apply counted_bind; [apply counted_lift|]; intros g'; apply counted_ret
       | reflexivity ].
  eapply counted_eq.
  - apply counted_bind; [apply counted_call|]. intros v.
    apply counted_bind; [apply counted_lift|]. intros shell.
    apply counted_bind.
    + unfold interiors. rewrite Hne.
      apply counted_mapM with (c := fun _ => 1%nat).
      apply Forall_forall. intros ring _. eapply counted_eq.
      * apply counted_bind; [apply counted_call|]. intros w. apply counted_lift.
      * reflexivity.
    + intros hs. apply counted_bind; [apply counted_lift|]. intros g'. apply counted_ret.
  - rewrite list_sum_ones. lia.
Qed.

Lemma counted_transform2 (g : Geometry F) (f : mapping F) (b : bool) :
  counted (_transform2 g f b) (components g).
Proof.
  induction g as [cs|cs|cs|e holes|t geoms IH] using Geometry_nested_ind.
  1-4: match goal with
       | |- counted (_ ?g _ _) _ =>
           destruct (is_empty g) eqn:Hne;
           [ cbn [Coordinates._transform2 components]; rewrite Hne; apply counted_ret
           | pose proof (counted_single_part g f b Hne eq_refl) as H;
             cbn [Coordinates._transform2]; rewrite Hne; exact H ]
       end.
  destruct (is_empty (Multi t geoms)) eqn:Hne.
  - cbn [Coordinates._transform2 components]. rewrite Hne. apply counted_ret.
  - cbn [Coordinates._transform2 components]. rewrite Hne.
    eapply counted_eq.
    + apply counted_bind; [apply counted_mapM; exact IH|]. intros parts.
      apply counted_bind; [apply counted_lift|]. intros g'. apply counted_ret.
    + rewrite !Nat.add_0_r. reflexivity.
Qed.

(** X21.  In rebuild mode with one argument the mapping is called at most
    once per point, line and ring of the geometry that is not empty,
    in addition to what the record held, and exactly once per such
    component when [_transform2] returns. *)
Theorem transform2_calls (g : Geometry F) (f : mapping F) (b : bool) (log : calls F) :
  let outcome := _transform2 g f b log in
  exists extra,
    snd outcome = log ++ extra /\
    (length extra <= components g)%nat /\
    (forall g', fst outcome = Ok g' -> length extra = components g).
Proof. cbv zeta. exact (counted_transform2 g f b log). Qed.

(** *** What the structure-preserving mode keeps *)

Lemma same_nones_refl (l : list (option (Geometry F))) : same_nones l l.
Proof. induction l; constructor; [tauto|assumption]. Qed.

Lemma write_items_nones (l : list (option (Geometry F))) (rows : list (list F)) :
  same_nones l (fst (write_items l rows)).
Proof.
  revert rows. induction l as [|[g|] l IH]; intros rows; cbn [Coordinates.write_items].
  - constructor.
  - destruct (write_geom g rows) as [[g' rest]|e]; [|apply same_nones_refl].
    specialize (IH rest). destruct (write_items l rest) as [out failure].
    constructor; [split; discriminate|exact IH].
  - specialize (IH rows). destruct (write_items l rows) as [out failure].
    constructor; [tauto|exact IH].
Qed.

Lemma lib_set_coordinates_nones (l : list (option (Geometry F))) (a : ndarray F) :
  same_nones l (fst (lib_set_coordinates l a)).
Proof.
  unfold Coordinates.lib_set_coordinates.
  destruct (shape a) as [|n [|m [|k s]]];
    try apply same_nones_refl. apply write_items_nones.
Qed.

Lemma transform_layout (geometry : geom_arg F) (t : ndarray F -> M F (pyobj F))
    (b : bool) (log : calls F) (out : geom_out F) :
  fst (_transform geometry t b log) = Ok out -> same_layout geometry out.
Proof.
  unfold Coordinates._transform, mbind, lift, ret.
  destruct (t _ log) as [[v|e] log']; [|discriminate].
  destruct (check_result _ v) as [a|e]; [|discriminate].
  pose proof (lib_set_coordinates_nones (items (object_array geometry)) a) as N.
  destruct (Coordinates.lib_set_coordinates F_eqb (items (object_array geometry)) a)
    as [written [e|]]; [discriminate|].
  cbn [fst] in *. unfold ret. cbn [fst]. intros H. injection H as <-.
  destruct geometry as [g|l|l]; cbn [object_array items ndim0 unwrap isinstance_ndarray
                                     negb andb same_layout] in *.
  - inversion N as [|x y l1 l2 Hxy Hl]; subst. cbn [hd]. exact Hxy.
  - exact N.
  - exact N.
Qed.

Lemma transform_multi_vec_layout (geometry : geom_arg F) (f : mapping F)
    (b : bool) (log : calls F) (out : geom_out F) :
  fst (_transform_multi_vec geometry f b log) = Ok out -> same_layout geometry out.
Proof.
  unfold Coordinates._transform_multi_vec, try_except.
  destruct (_transform geometry (whole_axes nan f) b log) as [[o|e] log'] eqn:E.
  - cbn [fst]. intros H. injection H as <-.
    apply (transform_layout geometry (whole_axes nan f) b log). now rewrite E.
  - destruct (is_Exception e); [|discriminate]. apply transform_layout.
Qed.

Lemma mapM_Forall2 {A B} (w : A -> M F B) (R : A -> B -> Prop) (l : list A) :
  (forall a log r, fst (w a log) = Ok r -> R a r) ->
  forall log rs, fst (mapM w l log) = Ok rs -> Forall2 R l rs.
Proof.
  intros Hw. induction l as [|a l IH]; intros log rs; cbn [mapM].
  - unfold ret. cbn [fst]. intros H. injection H as <-. constructor.
  - unfold mbind. destruct (w a log) as [[r|e] log'] eqn:E; [|discriminate].
    destruct (mapM w l log') as [[rs'|e] log''] eqn:E'; [|discriminate].
    unfold ret. cbn [fst]. intros H. injection H as <-.
    constructor.
    + apply (Hw a log). now rewrite E.
    + apply (IH log'). now rewrite E'.
Qed.

Lemma preserve_wrapper_layout (f : mapping F) (single_vec : bool)
    (g : option (Geometry F)) (b : bool) (log : calls F) (r : option (Geometry F)) :
  fst (preserve_wrapper f single_vec g b log) = Ok r -> (g = None <-> r = None).
Proof.
  unfold Coordinates.preserve_wrapper, _transform_element, _transform_multi_vec_element, mbind, ret.
  destruct single_vec.
  - destruct (_transform (GScalar g) (single_vec_call f) b log) as [[o|e] log'] eqn:E;
      [|discriminate].
    cbn [fst]. intros H. injection H as <-.
    pose proof (transform_layout (GScalar g) (single_vec_call f) b log o) as L.
    rewrite E in L. specialize (L eq_refl). destruct o; [exact L|destruct L].
  - destruct (_transform_multi_vec (GScalar g) f b log) as [[o|e] log'] eqn:E;
      [|discriminate].
    cbn [fst]. intros H. injection H as <-.
    pose proof (transform_multi_vec_layout (GScalar g) f b log o) as L.
    rewrite E in L. specialize (L eq_refl). destruct o; [exact L|destruct L].
Qed.

Lemma preserve_batch_layout (geometry : geom_arg F) (f : mapping F)
    (single_vec b : bool) (log : calls F) (out : geom_out F) :
  fst (preserve_batch geometry f single_vec b log) = Ok out ->
  same_layout geometry out.
Proof.
  unfold Coordinates.preserve_batch. destruct single_vec;
    [apply transform_layout|apply transform_multi_vec_layout].
Qed.

Lemma per_element_layout (f : mapping F) (single_vec : bool)
    (l : list (option (Geometry F))) (log : calls F) (out : geom_out F) :
  fst (per_element (preserve_wrapper f single_vec) l log)
  = Ok out ->
  exists l', out = OutArray l' /\ same_nones l l'.
Proof.
  unfold Coordinates.per_element, mbind, ret.
  match goal with
  | |- context [mapM ?w l log] => destruct (mapM w l log) as [[rs|e] log'] eqn:E
  end; [|discriminate].
  cbn [fst]. intros H. injection H as <-. exists rs. split; [reflexivity|].
  apply (mapM_Forall2 (fun g => preserve_wrapper f single_vec g (is_3d g))
           (fun a b => a = None <-> b = None) l) with (log := log).
  - intros a log0 r. apply preserve_wrapper_layout.
  - now rewrite E.
Qed.

(** X25.  In the structure-preserving mode a result has the layout of the
    argument: one geometry gives one geometry, [None] gives [None], and
    a batch gives an array with as many entries, missing exactly where
    those of the batch are.  This holds for every value of [include_z]
    and in both calling modes. *)
Theorem preserving_mode_keeps_layout (geometry : geom_arg F) (f : mapping F)
    (include_z : include_z_arg) (single_vec : bool) (log : calls F)
    (out : geom_out F) :
  fst (transform geometry f include_z single_vec false log) = Ok out ->
  same_layout geometry out.
Proof.
  unfold Coordinates.transform, transform_resolved.
  change (fun b : bool =>
            if single_vec
            then _transform geometry (single_vec_call f) b
            else _transform_multi_vec geometry f b)
    with (fun b : bool => preserve_batch geometry f single_vec b).
  change (if single_vec then _transform_element nan F_eqb f
          else _transform_multi_vec_element nan F_eqb f)
    with (preserve_wrapper f single_vec).
  destruct (resolve_include_z get_coordinate_dimension geometry include_z)
    as [b|bs] eqn:Ez.
  - apply preserve_batch_layout.
  - unfold mbind, lift. destruct (all_equal_first bs) as [[|]|e]; [| |discriminate].
    + apply preserve_batch_layout.
    + destruct include_z; try discriminate.
      destruct geometry as [g|l|l]; cbn [resolve_include_z] in Ez; try discriminate;
        injection Ez as <-.
      * rewrite CoordinatesFacts.frompyfunc_per_element. intros H.
        apply per_element_layout in H. destruct H as (l' & -> & H). exact H.
      * change (frompyfunc (preserve_wrapper f single_vec) (GArray l)
                  (ZArray (map is_3d l)) log)
          with (frompyfunc (preserve_wrapper f single_vec) (GList l)
                  (ZArray (map is_3d l)) log).
        rewrite CoordinatesFacts.frompyfunc_per_element. intros H.
        apply per_element_layout in H. destruct H as (l' & -> & H). exact H.
Qed.

(** *** Extracting the coordinates and writing them back *)

Lemma write_coord_row (b : bool) (c : coord F) :
  write_coord c (row_of nan b c) = if b then c else drop_z c.
Proof. destruct c as [x y [z|]], b; reflexivity. Qed.

Lemma write_coords_rows (b : bool) (cs : list (coord F)) (rest : list (list F)) :
  write_coords cs (map (row_of nan b) cs ++ rest)
  = (map (fun c => if b then c else drop_z c) cs, rest).
Proof.
  induction cs as [|c cs IH]; [reflexivity|].
  cbn [map app write_coords]. rewrite IH, write_coord_row. reflexivity.
Qed.

Lemma write_rings_rows (b : bool) (rings : list (list (coord F)))
    (rest : list (list F)) :
  write_rings rings (map (row_of nan b) (concat rings) ++ rest)
  = (map (map (fun c => if b then c else drop_z c)) rings, rest).
Proof.
  revert rest. induction rings as [|r rings IH]; intros rest; [reflexivity|].
  cbn [concat map write_rings]. rewrite map_app, <- app_assoc.
  rewrite write_coords_rows, IH. reflexivity.
Qed.

Lemma last_map_default {A B} (h : A -> B) (l : list A) (d : A) :
  last (map h l) (h d) = h (last l d).
Proof.
  induction l as [|a l IH]; [reflexivity|].
  destruct l as [|a' l]; [reflexivity|]. exact IH.
Qed.

(** A closed ring is closed when it is read back, with or without its
    third ordinate. *)
Lemma is_closed_kept (b : bool) (cs : list (coord F)) :
  is_closed cs = true ->
  is_closed (map (fun c => if b then c else drop_z c) cs) = true.
Proof.
  destruct b; [now rewrite map_id|].
  destruct cs as [|c cs]; [reflexivity|].
  unfold GeometryPolygon.is_closed. cbn [map].
  change (drop_z c :: map (fun c => drop_z c) cs)
    with (map (fun c => drop_z c) (c :: cs)).
  rewrite (last_map_default (fun c => drop_z c)).
  unfold GeometryPolygon.coord_eqb. cbn [drop_z cx cy cz GeometryPolygon.option_eqb].
  intros H. apply andb_prop in H. destruct H as [H _]. now rewrite H.
Qed.

Lemma check_ring_kept (b : bool) (cs : list (coord F)) :
  is_closed cs = true ->
  check_ring (map (fun c => if b then c else drop_z c) cs)
  = Ok (map (fun c => if b then c else drop_z c) cs).
Proof. intros H. unfold Coordinates.check_ring. now rewrite is_closed_kept. Qed.

Lemma map_check_ring_kept (b : bool) (rings : list (list (coord F))) :
  forallb is_closed rings = true ->
  map_result check_ring (map (map (fun c => if b then c else drop_z c)) rings)
  = Ok (map (map (fun c => if b then c else drop_z c)) rings).
Proof.
  induction rings as [|r rings IH]; [reflexivity|].
  cbn [forallb map map_result]. intros H. apply andb_prop in H. destruct H as [Hr Hs].
  rewrite (check_ring_kept b r Hr). cbn [bind]. rewrite (IH Hs). reflexivity.
Qed.

Lemma write_geom_rows (b : bool) (g : Geometry F) :
  rings_closed g = true ->
  forall rest,
    write_geom g (map (row_of nan b) (coords_geom g) ++ rest)
    = Ok (map_coords (fun c => if b then c else drop_z c) g, rest).
Proof.
  induction g as [cs|cs|cs|e holes|t geoms IH] using Geometry_nested_ind;
    intros Hc rest; cbn [coords_geom Coordinates.write_geom map_coords].
  - rewrite write_coords_rows. reflexivity.
  - rewrite write_coords_rows. reflexivity.
  - rewrite write_coords_rows. cbn [CoordinatesNotions.rings_closed] in Hc.
    rewrite (check_ring_kept b cs Hc). reflexivity.
  - rewrite map_app, <- app_assoc, write_coords_rows, write_rings_rows.
    cbn [CoordinatesNotions.rings_closed forallb] in Hc.
    apply andb_prop in Hc. destruct Hc as [He Hh].
    rewrite (check_ring_kept b e He). cbn [bind].
    rewrite (map_check_ring_kept b holes Hh). reflexivity.
  - cbn [CoordinatesNotions.rings_closed] in Hc.
    match goal with
    | |- bind (?wa geoms _) _ = _ =>
        assert (E : forall rest,
                   wa geoms (map (row_of nan b) (flat_map (@coords_geom F) geoms) ++ rest)
                   = Ok (map (map_coords (fun c => if b then c else drop_z c)) geoms,
                         rest))
    end.
    { induction IH as [|g geoms Hg _ IHl]; intros rest'; [reflexivity|].
      cbn [forallb] in Hc. apply andb_prop in Hc. destruct Hc as [H1 H2].
      cbn [flat_map map]. rewrite map_app, <- app_assoc, (Hg H1). cbn [bind fst snd].
      rewrite (IHl H2). reflexivity. }
    rewrite E. reflexivity.
Qed.

Lemma map_coords_id (g : Geometry F) : map_coords (fun c => c) g = g.
Proof.
  induction g as [cs|cs|cs|e holes|t geoms IH] using Geometry_nested_ind;
    cbn [map_coords]; rewrite ?map_id; try reflexivity.
  - f_equal. rewrite <- (map_id holes) at 2. apply map_ext. intros r. apply map_id.
  - f_equal. induction IH as [|g geoms Hg _ IHl]; [reflexivity|].
    cbn [map]. now rewrite Hg, IHl.
Qed.

Lemma write_items_rows (b : bool) (l : list (option (Geometry F))) :
  forallb (fun g => match g with Some g => rings_closed g | None => true end) l = true ->
  write_items l (map (row_of nan b) (flat_map (@coords_item F) l))
  = (map (dimension_kept b) l, None).
Proof.
  induction l as [|[g|] l IH]; [reflexivity| |]; cbn [forallb]; intros H.
  - apply andb_prop in H. destruct H as [Hg Hl].
    cbn [flat_map coords_item Coordinates.write_items map].
    rewrite map_app, (write_geom_rows b g Hg), (IH Hl).
    f_equal. f_equal. unfold dimension_kept, flatten. destruct b; [|reflexivity].
    now rewrite map_coords_id.
  - cbn [flat_map coords_item Coordinates.write_items map app]. rewrite (IH H).
    f_equal. f_equal. unfold dimension_kept. destruct b; reflexivity.
Qed.

Lemma chunk_rows (b : bool) (cs : list (coord F)) :
  chunk (if b then 3 else 2) (length cs) (flat_map (row_of nan b) cs)
  = map (row_of nan b) cs.
Proof.
  induction cs as [|c cs IH]; [reflexivity|].
  cbn [length flat_map map chunk]. destruct b; cbn [row_of app firstn skipn] in *;
    now rewrite IH.
Qed.

Lemma set_get_coordinates (b : bool) (l : list (option (Geometry F))) :
  forallb (fun g => match g with Some g => rings_closed g | None => true end) l = true ->
  lib_set_coordinates l (lib_get_coordinates nan l b) = (map (dimension_kept b) l, None).
Proof.
  intros H. unfold Coordinates.lib_set_coordinates, lib_get_coordinates. cbn [shape data].
  rewrite chunk_rows. now apply write_items_rows.
Qed.

Lemma unwrap_written (geometry : geom_arg F) (b : bool) :
  unwrap geometry
         (GArr (ndim0 (object_array geometry))
               (map (dimension_kept b) (items (object_array geometry))))
  = out_map (dimension_kept b) (unchanged geometry).
Proof. destruct geometry; reflexivity. Qed.

(** X26.  Writing back the coordinates that were extracted from
    geometries whose rings are closed, as the data model has them, is
    always accepted.  With three ordinates per coordinate every geometry
    comes back as it was; with two, it comes back without its third
    ordinate.  The same holds for [_transform] with a mapping that
    returns the buffer it was given. *)
Theorem coordinates_round_trip (geometry : geom_arg F) (b : bool) :
  all_rings_closed geometry = true ->
  fst (set_coordinates geometry (coordinates_of geometry b))
  = Ok (out_map (dimension_kept b) (unchanged geometry)) /\
  (forall f log,
     f [PArray (coordinates_of geometry b)] = Ok (PArray (coordinates_of geometry b)) ->
     fst (_transform geometry (single_vec_call f) b log)
     = Ok (out_map (dimension_kept b) (unchanged geometry))).
Proof.
  unfold CoordinatesNotions.all_rings_closed. intros Hc. split.
  - unfold Coordinates.set_coordinates, Coordinates.coordinates_of.
    set (l := items (object_array geometry)) in *.
    assert (E : astype_float64 (atleast_2d (lib_get_coordinates nan l b))
                = lib_get_coordinates nan l b) by reflexivity.
    rewrite E. unfold lib_get_coordinates at 1 2 3. cbn [shape length Nat.eqb negb nth].
    rewrite length_coords_items, Nat.eqb_refl. cbn [negb orb].
    assert (E2 : existsb (Nat.eqb (if b then 3 else 2)%nat) [2; 3]%nat = true)
      by (destruct b; reflexivity).
    rewrite E2. cbn [negb]. rewrite (set_get_coordinates b l Hc). cbn [fst]. subst l.
    now rewrite unwrap_written.
  - intros f log Hf. unfold Coordinates._transform, mbind, single_vec_call, call, lift, ret.
    fold (coordinates_of geometry b). rewrite Hf.
    assert (Ec : check_result (coordinates_of geometry b)
                              (PArray (coordinates_of geometry b))
                 = Ok (coordinates_of geometry b)).
    { apply check_result_ok. repeat split; reflexivity. }
    rewrite Ec. unfold Coordinates.coordinates_of.
    rewrite (set_get_coordinates b _ Hc). cbn [fst]. now rewrite unwrap_written.
Qed.

End Facts.

Lemma transform_calls_mapping_once_witness :
  let geometry := GList [Some (point2 5 6); None] in
  snd (_transform NaN float64_eqb geometry (single_vec_call identity_mapping) false [])
  = [[PArray (NdArray Float64 [1; 2]%nat [Finite 5; Finite 6])]] /\
  fst (_transform NaN float64_eqb geometry (single_vec_call interrupted_mapping) false [])
  = Raise KeyboardInterrupt /\
  fst (_transform NaN float64_eqb (GList point_and_triangle)
                  (single_vec_call (fun _ => Ok (PArray open_rows))) false [])
  = Raise GEOSException.
Proof.
  cbv zeta. split; [|split].
  - exact (proj1 (transform_calls_mapping_once float64 NaN float64_eqb
                    (GList [Some (point2 5 6); None]) identity_mapping false [])).
  - apply (proj1 (proj2 (transform_calls_mapping_once float64 NaN float64_eqb
                           (GList [Some (point2 5 6); None]) interrupted_mapping
                           false []))).
    reflexivity.
  - apply (proj2 (proj2 (proj2 (proj2
             (transform_calls_mapping_once float64 NaN float64_eqb
                (GList point_and_triangle) (fun _ => Ok (PArray open_rows)) false []))))
             open_rows); reflexivity.
Defined.

Lemma retry_only_on_Exception_witness :
  _transform_multi_vec NaN float64_eqb (GScalar (Some (point2 0 0))) interrupted_mapping false []
  = (Raise KeyboardInterrupt,
     [[PArray (NdArray Float64 [1%nat] [Finite 0]);
       PArray (NdArray Float64 [1%nat] [Finite 0])]]).
Proof.
  apply (proj1 (retry_only_on_Exception float64 NaN float64_eqb no_construct no_construct_polygon
                  no_construct_multi interrupted_mapping false [] KeyboardInterrupt)
           (GScalar (Some (point2 0 0)))).
  reflexivity.
Defined.

Lemma rebuild_rejects_None_witness :
  raises (fst (Examples.transform (GList [Some (point2 5 6); None]) identity_mapping
                 IncludeIf3D true true [])).
Proof.
  apply (proj2 (rebuild_rejects_None float64 NaN float64_eqb dimension_of no_construct
                  no_construct_polygon no_construct_multi identity_mapping
                  IncludeIf3D true [])
           [Some (point2 5 6); None]).
  right. left. reflexivity.
Defined.

Lemma multi_vec_calls_witness :
  let outcome := _transform_multi_vec NaN float64_eqb (GScalar (Some (point2 0 0)))
                                      constant_mapping false [] in
  fst outcome = Ok (OutItem (Some (point2 1 2))) /\
  exists extra,
    snd outcome = [] ++ extra /\
    (1 <= length extra <= 1 + count_coordinates (GScalar (Some (point2 0 0))))%nat /\
    (forall out, fst outcome = Ok out ->
                 length extra = 1%nat \/
                 length extra = (1 + count_coordinates (GScalar (Some (point2 0 0))))%nat).
Proof.
  cbv zeta. split; [reflexivity|].
  exact (multi_vec_calls float64 NaN float64_eqb (GScalar (Some (point2 0 0))) constant_mapping
           false []).
Defined.

Lemma transform2_calls_witness :
  let g := Multi GeometryCollection [point2 5 6; Point []; line2] in
  let outcome := _transform2 NaN construct_again no_construct_polygon collect
                             g identity_mapping false [] in
  fst outcome = Ok (Some g) /\
  exists extra,
    snd outcome = [] ++ extra /\
    (length extra <= components g)%nat /\
    (forall g', fst outcome = Ok g' -> length extra = components g).
Proof.
  cbv zeta. split; [reflexivity|].
  exact (transform2_calls float64 NaN construct_again no_construct_polygon collect
           (Multi GeometryCollection [point2 5 6; Point []; line2])
           identity_mapping false []).
Defined.

Lemma preserving_mode_keeps_layout_witness :
  same_layout (GList [Some (point2 5 6); None; Some (point3 7 8 9)])
              (OutArray [Some (point2 5 6); None; Some (point3 7 8 9)]).
Proof.
  apply (preserving_mode_keeps_layout float64 NaN float64_eqb dimension_of no_construct
           no_construct_polygon no_construct_multi
           (GList [Some (point2 5 6); None; Some (point3 7 8 9)]) identity_mapping
           IncludeIf3D true []).
  reflexivity.
Defined.

Lemma coordinates_round_trip_witness :
  let geometry := GList [Some (point3 7 8 9); Some triangle; None] in
  fst (_transform NaN float64_eqb geometry (single_vec_call identity_mapping) false [])
  = Ok (OutArray [Some (point2 7 8); Some triangle; None]) /\
  fst (_transform NaN float64_eqb geometry (single_vec_call identity_mapping) true [])
  = Ok (OutArray [Some (point3 7 8 9); Some triangle; None]).
Proof.
  cbv zeta. split.
  - apply (proj2 (coordinates_round_trip float64 NaN float64_eqb
                    (GList [Some (point3 7 8 9); Some triangle; None]) false eq_refl)
             identity_mapping []).
    reflexivity.
  - apply (proj2 (coordinates_round_trip float64 NaN float64_eqb
                    (GList [Some (point3 7 8 9); Some triangle; None]) true eq_refl)
             identity_mapping []).
    reflexivity.
Defined.

End PipelineFacts.
